(** * CommunitySafe: the hazard-report handlers of [app.py]

    A shallow embedding of the Flask application in [src/app.py]:
    [init_db] and the request handlers [index], [report_hazard],
    [resolve_hazard], [history], [admin_login], [admin_logout],
    [admin_dashboard] and the two upload routes, over an explicit world
    made of the upload directories, the SQLite tables [hazard_reports] and
    [admin], and the clock read by [datetime.now()].

    What lies outside [app.py] is modelled as follows.
    - Python values coming out of [request.json] are the type [pyval];
      a Python [str] is the string of its UTF-8 bytes, and a [str] that
      has none (one with a lone surrogate) is outside the model.
    - [base64.b64decode] follows CPython's [binascii.a2b_base64] in its
      default, non-strict mode.
    - The [sqlite3] module binds [None], [int], [float], [str] (and [bool],
      a subclass of [int]); anything else is refused, an [int] outside
      64 bits overflows, and a NaN is stored as NULL.  Column affinity
      conversions are not modelled: a row keeps the value that was bound.
    - The handlers close their connection on the way to a success only.
      A connection left behind by an INSERT that failed on a constraint
      keeps the write lock of the database, and an INSERT or UPDATE made
      meanwhile ends in [database is locked]; reading is not hindered.
      The lock goes when the garbage collector closes the connection,
      which is a step of its own in [reachable] and [later].  No other
      process has the database open.
    - A [datetime] holds fields in range only, as Python's does.
    - [open] refuses a file name of more than 255 bytes; the configured
      upload folders are paths the file system accepts.  Beyond that the
      file system never fails, for lack of space or permission, no path
      names both a file and a directory, and paths are compared as
      strings: a relative upload folder means the same directory to
      [open] and to [send_from_directory].  The AUTOINCREMENT counter is
      not bounded by 2^63-1.
    - The password hashing of [werkzeug.security] is a parameter, and a
      login is followed up to the session it leaves.
    - [config.py] is not part of the sources: [Config] is a parameter. *)

From Stdlib Require Import ZArith NArith String Ascii List Lia Bool.
From Stdlib Require Import Sorting.Sorted Sorting.Permutation.
From Stdlib Require Import Strings.Byte Floats.SpecFloat DecimalString.
From Stdlib Require DecimalFacts DecimalPos DecimalN.
From stdpp Require Import gmap strings.

#[local] Set Warnings "-register-all".
#[local] Open Scope string_scope.
#[local] Open Scope list_scope.
#[local] Open Scope Z_scope.

(** ** Python values *)

Module Py.

(** The values [json.loads] produces: [None], [bool], [int], [float],
    [str], [list] and [dict] with string keys. *)
Inductive pyval : Type :=
| PNone
| PBool (b : bool)
| PInt (z : Z)
| PFloat (f : spec_float)
| PStr (s : string)
| PList (l : list pyval)
| PDict (d : gmap string pyval).

(** The exceptions the handlers can meet. *)
Inductive exn : Type :=
| TypeError
| AttributeError
| ValueError
| IndexError
| KeyError
| OSError
| OverflowError
| BinasciiError          (* binascii.Error *)
| SqliteBindError        (* sqlite3: unsupported parameter type *)
| IntegrityError         (* sqlite3.IntegrityError *)
| OperationalError       (* sqlite3.OperationalError: database is locked *)
| BadJsonRequest.        (* request.json: no JSON body could be read *)

Inductive result (A : Type) : Type :=
| Ok (a : A)
| Raises (e : exn).
Arguments Ok {A} a.
Arguments Raises {A} e.

(** Truth value testing, as [not v] and [if v] use it. *)
Definition truthy (v : pyval) : bool :=
  match v with
  | PNone => false
  | PBool b => b
  | PInt z => negb (z =? 0)
  | PFloat (S754_zero _) => false
  | PFloat _ => true
  | PStr s => negb (String.eqb s "")
  | PList [] => false
  | PList (_ :: _) => true
  | PDict d => negb (bool_decide (d = ∅))
  end.

(** [s.startswith(p)] *)
Fixpoint startswith (s p : string) {struct p} : bool :=
  match p with
  | EmptyString => true
  | String c p' =>
      match s with
      | EmptyString => false
      | String d s' => Ascii.eqb c d && startswith s' p'
      end
  end.

(** [p in s] for two strings: [p] occurs in [s]. *)
Fixpoint str_contains (s p : string) : bool :=
  startswith s p ||
  match s with
  | EmptyString => false
  | String _ s' => str_contains s' p
  end.

(** [s.split(sep)] and [s.split(sep, maxsplit)] for a separator of one
    character; [maxsplit = None] is the call without the second argument.
    The result always has at least one element. *)
Fixpoint split (sep : ascii) (maxsplit : option nat) (s : string) : list string :=
  match s with
  | EmptyString => [EmptyString]
  | String c s' =>
      let cut := Ascii.eqb c sep &&
                 match maxsplit with Some O => false | _ => true end in
      if cut then
        EmptyString :: split sep (option_map Nat.pred maxsplit) s'
      else
        match split sep maxsplit s' with
        | h :: t => String c h :: t
        | [] => [String c EmptyString]
        end
  end.

(** [l[i]] on a list: IndexError out of range. *)
Definition index {A : Type} (l : list A) (i : nat) : result A :=
  match nth_error l i with
  | Some x => Ok x
  | None => Raises IndexError
  end.

(** [a, b = l]: unpacking into exactly two names. *)
Definition unpack2 {A : Type} (l : list A) : result (A * A) :=
  match l with
  | [a; b] => Ok (a, b)
  | _ => Raises ValueError
  end.

(** [field not in data]: membership of a string in a parsed JSON value.
    A dict is searched by key, a list by element, a string by substring;
    the other values are not containers. *)
Definition not_in (field : string) (data : pyval) : result bool :=
  match data with
  | PDict d => Ok (match d !! field with Some _ => false | None => true end)
  | PList l =>
      Ok (negb (existsb (fun v => match v with
                                  | PStr s => String.eqb s field
                                  | _ => false
                                  end) l))
  | PStr s => Ok (negb (str_contains s field))
  | PNone | PBool _ | PInt _ | PFloat _ => Raises TypeError
  end.

(** [data[field]] with a string subscript. *)
Definition getitem (data : pyval) (field : string) : result pyval :=
  match data with
  | PDict d =>
      match d !! field with
      | Some v => Ok v
      | None => Raises KeyError
      end
  | _ => Raises TypeError
  end.

(** [data.get(field)]: only a dict has the method. *)
Definition dict_get (data : pyval) (field : string) : result pyval :=
  match data with
  | PDict d => Ok (match d !! field with Some v => v | None => PNone end)
  | _ => Raises AttributeError
  end.

(** [v.startswith(p)]: only a string has the method. *)
Definition py_startswith (v : pyval) (p : string) : result bool :=
  match v with
  | PStr s => Ok (startswith s p)
  | _ => Raises AttributeError
  end.

(** [v.split(sep, maxsplit)] on a value known to have [startswith]. *)
Definition py_split (v : pyval) (sep : ascii) (maxsplit : option nat)
  : result (list string) :=
  match v with
  | PStr s => Ok (split sep maxsplit s)
  | _ => Raises AttributeError
  end.

End Py.
Import Py.

(** ** Base64, as the [base64] module of the Python library does it *)

Module Base64.

#[local] Open Scope N_scope.

(** [table_a2b_base64]: the value of a character of the Base64 alphabet,
    [None] for a character outside it. *)
Definition table_a2b_base64 (c : ascii) : option N :=
  let n := N_of_ascii c in
  if (65 <=? n) && (n <=? 90) then Some (n - 65)          (* A-Z *)
  else if (97 <=? n) && (n <=? 122) then Some (n - 71)    (* a-z *)
  else if (48 <=? n) && (n <=? 57) then Some (n + 4)      (* 0-9 *)
  else if n =? 43 then Some 62                            (* + *)
  else if n =? 47 then Some 63                            (* / *)
  else None.

(** A store into an [unsigned char]. *)
Definition to_byte (n : N) : byte :=
  default x00 (Byte.of_N (n mod 256)).

(** The decoding loop of [binascii.a2b_base64] with [strict_mode] off:
    characters outside the alphabet are skipped, a complete pad sequence
    ends the parse, and input that stops inside a quad is an error. *)
Fixpoint a2b_loop (s : string) (quad_pos : nat) (leftchar pads : N)
                  (out : list byte) : result (list byte) :=
  match s with
  | EmptyString =>
      match quad_pos with
      | O => Ok out
      | _ => Raises BinasciiError
      end
  | String c s' =>
      if Ascii.eqb c "=" then
        if (2 <=? quad_pos)%nat then
          if (4 <=? N.of_nat quad_pos + (pads + 1))%N then Ok out
          else a2b_loop s' quad_pos leftchar (pads + 1)%N out
        else a2b_loop s' quad_pos leftchar pads out
      else
        match table_a2b_base64 c with
        | None => a2b_loop s' quad_pos leftchar pads out
        | Some this_ch =>
            match quad_pos with
            | 0%nat => a2b_loop s' 1 this_ch 0%N out
            | 1%nat =>
                a2b_loop s' 2 (N.land this_ch 15) 0%N
                  (out ++ [to_byte (N.lor (N.shiftl leftchar 2) (N.shiftr this_ch 4))])
            | 2%nat =>
                a2b_loop s' 3 (N.land this_ch 3) 0%N
                  (out ++ [to_byte (N.lor (N.shiftl leftchar 4) (N.shiftr this_ch 2))])
            | _ =>
                a2b_loop s' 0 0%N 0%N
                  (out ++ [to_byte (N.lor (N.shiftl leftchar 6) this_ch)])
            end
        end
  end.

Definition a2b_base64 (s : string) : result (list byte) :=
  a2b_loop s 0 0%N 0%N [].

(** [s.encode('ascii')] succeeds when every character is below 128. *)
Fixpoint is_ascii (s : string) : bool :=
  match s with
  | EmptyString => true
  | String c s' => (N_of_ascii c <? 128)%N && is_ascii s'
  end.

(** [base64.b64decode(s)] on a [str]: a ValueError for a non-ASCII
    string, then [a2b_base64]. *)
Definition b64decode (s : string) : result (list byte) :=
  if is_ascii s then a2b_base64 s else Raises ValueError.

(** The standard encoding (RFC 4648, with padding), which is what a client
    puts after [;base64,] in a data URI. *)
Definition table_b2a_base64 (n : N) : ascii :=
  if (n <? 26)%N then ascii_of_N (n + 65)
  else if (n <? 52)%N then ascii_of_N (n + 71)
  else if (n <? 62)%N then ascii_of_N (n - 4)
  else if (n =? 62)%N then "+"%char
  else "/"%char.

Fixpoint b64encode (bs : list byte) : string :=
  match bs with
  | [] => EmptyString
  | [a] =>
      let a := Byte.to_N a in
      String (table_b2a_base64 (N.shiftr a 2))
     (String (table_b2a_base64 (N.shiftl (N.land a 3) 4)) "==")
  | [a; b] =>
      let a := Byte.to_N a in
      let b := Byte.to_N b in
      String (table_b2a_base64 (N.shiftr a 2))
     (String (table_b2a_base64 (N.lor (N.shiftl (N.land a 3) 4) (N.shiftr b 4)))
     (String (table_b2a_base64 (N.shiftl (N.land b 15) 2)) "="))
  | a :: b :: c :: rest =>
      let a := Byte.to_N a in
      let b := Byte.to_N b in
      let c := Byte.to_N c in
      String (table_b2a_base64 (N.shiftr a 2))
     (String (table_b2a_base64 (N.lor (N.shiftl (N.land a 3) 4) (N.shiftr b 4)))
     (String (table_b2a_base64 (N.lor (N.shiftl (N.land b 15) 2) (N.shiftr c 6)))
     (String (table_b2a_base64 (N.land c 63)) (b64encode rest))))
  end.

End Base64.

(** ** [datetime] values and their two renderings *)

(** The fields a [datetime] can hold: its constructor raises a ValueError
    for any other ([datetime.MINYEAR] is 1 and [datetime.MAXYEAR] 9999). *)
Definition fields_in_range (y mo d h mi s us : N) : bool :=
  ((1 <=? y) && (y <=? 9999) && (1 <=? mo) && (mo <=? 12) &&
   (1 <=? d) && (d <=? 31) && (h <=? 23) && (mi <=? 59) && (s <=? 59) &&
   (us <=? 999999))%N.

(** A naive [datetime]: its fields, which are in range. *)
Record datetime : Type := {
  year : N; month : N; day : N;
  hour : N; minute : N; second : N; microsecond : N;
  in_range : fields_in_range year month day hour minute second microsecond = true
}.

(** [n] in decimal, padded with zeros on the left to [width] digits. *)
Fixpoint zeros (k : nat) : string :=
  match k with
  | O => EmptyString
  | S k' => String "0" (zeros k')
  end.

Definition zpad (width : nat) (n : N) : string :=
  let digits := NilEmpty.string_of_uint (N.to_uint n) in
  zeros (width - String.length digits) +:+ digits.

(** [t.strftime('%Y%m%d_%H%M%S')] *)
Definition strftime_Ymd_HMS (t : datetime) : string :=
  zpad 4 (year t) +:+ zpad 2 (month t) +:+ zpad 2 (day t) +:+ "_" +:+
  zpad 2 (hour t) +:+ zpad 2 (minute t) +:+ zpad 2 (second t).

(** [t.isoformat(" ")], the text the [sqlite3] module stores for a
    [datetime] parameter: the microseconds are printed unless they are 0. *)
Definition isoformat (t : datetime) : string :=
  zpad 4 (year t) +:+ "-" +:+ zpad 2 (month t) +:+ "-" +:+ zpad 2 (day t) +:+
  " " +:+ zpad 2 (hour t) +:+ ":" +:+ zpad 2 (minute t) +:+ ":" +:+
  zpad 2 (second t) +:+
  (if (microsecond t =? 0)%N then EmptyString
   else "." +:+ zpad 6 (microsecond t)).

(** SQLite's [CURRENT_TIMESTAMP]: ["YYYY-MM-DD HH:MM:SS"]. *)
Definition current_timestamp (t : datetime) : string :=
  zpad 4 (year t) +:+ "-" +:+ zpad 2 (month t) +:+ "-" +:+ zpad 2 (day t) +:+
  " " +:+ zpad 2 (hour t) +:+ ":" +:+ zpad 2 (minute t) +:+ ":" +:+
  zpad 2 (second t).

(** ** The SQLite table [hazard_reports] *)

Module Sqlite.

(** A stored value: NULL, INTEGER, REAL or TEXT. *)
Inductive sqlval : Type :=
| SNull
| SInteger (z : Z)
| SReal (f : spec_float)
| SText (s : string).

(** Binding a Python value to a [?] of a statement. *)
Definition bind_param (v : pyval) : result sqlval :=
  match v with
  | PNone => Ok SNull
  | PBool b => Ok (SInteger (if b then 1 else 0))
  | PInt z =>
      if (- 2 ^ 63 <=? z) && (z <? 2 ^ 63) then Ok (SInteger z)
      else Raises OverflowError
  | PFloat S754_nan => Ok SNull
  | PFloat f => Ok (SReal f)
  | PStr s => Ok (SText s)
  | PList _ | PDict _ => Raises SqliteBindError
  end.

(** A row of [hazard_reports], column by column.  [before_image],
    [status] and [date_reported] are always bound from a Python [str] or
    [datetime], so they are kept as text; [description], [latitude] and
    [longitude] hold whatever the client sent. *)
Record row : Type := {
  id : Z;                          (* INTEGER PRIMARY KEY AUTOINCREMENT *)
  before_image : string;           (* TEXT NOT NULL *)
  after_image : option string;     (* TEXT *)
  description : sqlval;            (* TEXT NOT NULL *)
  latitude : sqlval;               (* REAL NOT NULL *)
  longitude : sqlval;              (* REAL NOT NULL *)
  status : string;                 (* TEXT NOT NULL DEFAULT 'Pending' *)
  date_reported : string;          (* DATETIME NOT NULL *)
  date_resolved : option string;   (* DATETIME *)
  created_at : string              (* DATETIME DEFAULT CURRENT_TIMESTAMP *)
}.

Record admin_row : Type := {
  admin_id : Z;
  username : string;
  password_hash : string
}.

(** The database file: the rows of [hazard_reports] in rowid order, the
    [sqlite_sequence] counter AUTOINCREMENT keeps for it, and [admin]. *)
Record database : Type := {
  hazard_reports : list row;
  hazard_reports_seq : Z;
  admin : list admin_row
}.

Definition max_rowid (rows : list row) : Z :=
  fold_right (fun r m => Z.max (id r) m) 0 rows.

(** AUTOINCREMENT: one more than the largest rowid ever used. *)
Definition next_rowid (d : database) : Z :=
  Z.max (hazard_reports_seq d) (max_rowid (hazard_reports d)) + 1.

Definition not_null (v : sqlval) : bool :=
  match v with
  | SNull => false
  | _ => true
  end.

(** [INSERT INTO hazard_reports (before_image, description, latitude,
    longitude, status, date_reported) VALUES (?, ?, ?, ?, ?, ?)]; the
    result carries [cursor.lastrowid]. *)
Definition insert_report (d : database) (now_utc : datetime)
    (before_image_v : string) (description_v latitude_v longitude_v : sqlval)
    (status_v date_reported_v : string) : result (database * Z) :=
  if not_null description_v && not_null latitude_v && not_null longitude_v then
    let rowid := next_rowid d in
    let r := {| id := rowid;
                before_image := before_image_v;
                after_image := None;
                description := description_v;
                latitude := latitude_v;
                longitude := longitude_v;
                status := status_v;
                date_reported := date_reported_v;
                date_resolved := None;
                created_at := current_timestamp now_utc |} in
    Ok ({| hazard_reports := hazard_reports d ++ [r];
           hazard_reports_seq := rowid;
           admin := admin d |}, rowid)
  else Raises IntegrityError.

(** [UPDATE hazard_reports SET after_image = ?, status = ?,
    date_resolved = ? WHERE id = ?] *)
Definition set_resolved (after_image_v status_v date_resolved_v : string)
    (r : row) : row :=
  {| id := id r;
     before_image := before_image r;
     after_image := Some after_image_v;
     description := description r;
     latitude := latitude r;
     longitude := longitude r;
     status := status_v;
     date_reported := date_reported r;
     date_resolved := Some date_resolved_v;
     created_at := created_at r |}.

Definition update_resolved (d : database)
    (after_image_v status_v date_resolved_v : string) (report_id : Z) : database :=
  {| hazard_reports :=
       List.map (fun r => if id r =? report_id
                          then set_resolved after_image_v status_v date_resolved_v r
                          else r)
                (hazard_reports d);
     hazard_reports_seq := hazard_reports_seq d;
     admin := admin d |}.

(** [ORDER BY date_reported DESC]: the rows sorted on the stored text,
    largest first.  Rows are taken in rowid order and inserted from the
    right, so rows with equal keys keep their rowid order; SQL itself
    leaves that order open. *)
Definition date_ge (a b : row) : bool :=
  String.leb (date_reported b) (date_reported a).

Fixpoint insert_desc (r : row) (sorted : list row) : list row :=
  match sorted with
  | [] => [r]
  | h :: t => if date_ge r h then r :: h :: t else h :: insert_desc r t
  end.

Definition order_by_date_reported_desc (rows : list row) : list row :=
  fold_right insert_desc [] rows.

(** [SELECT * FROM hazard_reports ORDER BY date_reported DESC] *)
Definition select_all_reports (d : database) : list row :=
  order_by_date_reported_desc (hazard_reports d).

End Sqlite.
Import Sqlite.

(** ** The world the handlers run in *)

(** The upload directories as a map from path to file contents, the
    directories that exist, the database, and the clocks: [clock] is what
    [datetime.now()] returns at its n-th reading and [utc_clock] what
    SQLite's CURRENT_TIMESTAMP sees then.  [errlog] is what went to
    [app.logger.error].

    [write_lock] tells that a connection which a handler opened and never
    closed is still alive inside a transaction that holds the write lock
    of the database file.  The handlers close their connection on the way
    to a success only; the connection they leave behind is closed, and its
    transaction rolled back, when the garbage collector finds it. *)
Record world : Type := {
  files : gmap string (list byte);
  dirs : gset string;
  db : database;
  clock : nat -> datetime;
  utc_clock : nat -> datetime;
  ticks : nat;
  errlog : list (string * exn);
  write_lock : bool
}.

Definition set_files (f : gmap string (list byte)) (w : world) : world :=
  {| files := f; dirs := dirs w; db := db w; clock := clock w;
     utc_clock := utc_clock w; ticks := ticks w; errlog := errlog w;
     write_lock := write_lock w |}.

Definition set_dirs (d : gset string) (w : world) : world :=
  {| files := files w; dirs := d; db := db w; clock := clock w;
     utc_clock := utc_clock w; ticks := ticks w; errlog := errlog w;
     write_lock := write_lock w |}.

Definition set_db (d : database) (w : world) : world :=
  {| files := files w; dirs := dirs w; db := d; clock := clock w;
     utc_clock := utc_clock w; ticks := ticks w; errlog := errlog w;
     write_lock := write_lock w |}.

Definition set_ticks (n : nat) (w : world) : world :=
  {| files := files w; dirs := dirs w; db := db w; clock := clock w;
     utc_clock := utc_clock w; ticks := n; errlog := errlog w;
     write_lock := write_lock w |}.

Definition set_errlog (l : list (string * exn)) (w : world) : world :=
  {| files := files w; dirs := dirs w; db := db w; clock := clock w;
     utc_clock := utc_clock w; ticks := ticks w; errlog := l;
     write_lock := write_lock w |}.

Definition set_write_lock (b : bool) (w : world) : world :=
  {| files := files w; dirs := dirs w; db := db w; clock := clock w;
     utc_clock := utc_clock w; ticks := ticks w; errlog := errlog w;
     write_lock := b |}.

(** What a view returns. *)
Inductive body : Type :=
| Json (v : pyval)                                   (* jsonify(...) *)
| Template (name : string) (reports : list row)      (* render_template *)
| Redirect (endpoint : string)                       (* redirect(url_for(...)) *)
| FileBody (content : list byte)                     (* send_from_directory *)
| NotFound                                           (* the 404 page *)
| ServerError.                                       (* the 500 page of Flask *)

Record response : Type := {
  resp_body : body;
  resp_status : Z
}.

Definition jsonify (items : list (string * pyval)) : body :=
  Json (PDict (list_to_map items)).

(** ** A monad for the body of a view

    A computation reads and changes the world and ends in a value, in a
    [return] of the enclosing view, or in a raised exception.  The world
    keeps the changes made before a [return] or a [raise]. *)

Inductive outcome (A : Type) : Type :=
| Val (a : A)
| Return (r : response)
| Raise (e : exn).
Arguments Val {A} a.
Arguments Return {A} r.
Arguments Raise {A} e.

Definition M (A : Type) : Type := world -> outcome A * world.

Definition ret {A : Type} (a : A) : M A := fun w => (Val a, w).

Definition bind {A B : Type} (m : M A) (k : A -> M B) : M B :=
  fun w =>
    match m w with
    | (Val a, w') => k a w'
    | (Return r, w') => (Return r, w')
    | (Raise e, w') => (Raise e, w')
    end.

Definition return_ {A : Type} (b : body) (code : Z) : M A :=
  fun w => (Return {| resp_body := b; resp_status := code |}, w).

Definition raise {A : Type} (e : exn) : M A := fun w => (Raise e, w).

Definition lift {A : Type} (r : result A) : M A :=
  match r with
  | Ok a => ret a
  | Raises e => raise e
  end.

Notation "x <- m ;; k" := (bind m (fun x => k))
  (at level 100, m at next level, right associativity).
Notation "m ;; k" := (bind m (fun _ => k))
  (at level 100, right associativity).

(** [try: body except Exception as e: handler(e)] *)
Definition try_except {A : Type} (body_ : M A) (handler : exn -> M A) : M A :=
  fun w =>
    match body_ w with
    | (Raise e, w') => handler e w'
    | other => other
    end.

(** [for x in l: body(x)] *)
Fixpoint for_each {A : Type} (l : list A) (body_ : A -> M unit) : M unit :=
  match l with
  | [] => ret tt
  | x :: l' => body_ x ;; for_each l' body_
  end.

(** A view function as Flask calls it: the value it falls off with or
    returns is the response; an exception that escapes is a 500. *)
Definition run_view (m : M response) : world -> response * world :=
  fun w =>
    match m w with
    | (Val r, w') => (r, w')
    | (Return r, w') => (r, w')
    | (Raise _, w') => ({| resp_body := ServerError; resp_status := 500 |}, w')
    end.

(** *** Primitive effects *)

(** [datetime.now()] *)
Definition now : M datetime :=
  fun w => (Val (clock w (ticks w)), set_ticks (S (ticks w)) w).

(** [a.endswith(c)] for one character. *)
Fixpoint endswith_char (a : string) (c : ascii) : bool :=
  match a with
  | EmptyString => false
  | String d EmptyString => Ascii.eqb d c
  | String _ a' => endswith_char a' c
  end.

(** [posixpath.join(a, b)] *)
Definition os_path_join (a b : string) : string :=
  if startswith b "/" then b
  else if String.eqb a "" || endswith_char a "/" then a +:+ b
  else a +:+ "/" +:+ b.

Fixpoint has_nul (s : string) : bool :=
  match s with
  | EmptyString => false
  | String c s' => Ascii.eqb c zero || has_nul s'
  end.

(** [os.makedirs(d, exist_ok=True)]; a path with a NUL character is a
    ValueError and the empty path an OSError. *)
Definition makedirs (d : string) : M unit :=
  fun w =>
    if has_nul d then (Raise ValueError, w)
    else if String.eqb d "" then (Raise OSError, w)
    else (Val tt, set_dirs ({[ d ]} ∪ dirs w) w).

(** [posixpath.basename(path)]: what follows the last slash. *)
Fixpoint basename (path : string) : string :=
  match path with
  | EmptyString => EmptyString
  | String c rest =>
      if str_contains rest "/" then basename rest
      else if Ascii.eqb c "/" then rest
      else path
  end.

(** [NAME_MAX]: the bytes a file name can have. *)
Definition NAME_MAX : nat := 255.

(** [open(path, 'wb')]: the file is created or truncated at once; a path
    with a NUL character is a ValueError, and a file name of more than
    [NAME_MAX] bytes an OSError (ENAMETOOLONG).  The directory part comes
    from the configuration and is taken to be a path the file system
    accepts. *)
Definition open_wb (path : string) : M unit :=
  fun w =>
    if has_nul path then (Raise ValueError, w)
    else if (NAME_MAX <? String.length (basename path))%nat then (Raise OSError, w)
    else (Val tt, set_files (<[ path := [] ]> (files w)) w).

(** [f.write(data)] followed by the close at the end of the [with]. *)
Definition write (path : string) (data : list byte) : M unit :=
  fun w => (Val tt, set_files (<[ path := data ]> (files w)) w).

(** [app.logger.error(...)] *)
Definition logger_error (what : string) (e : exn) : M unit :=
  fun w => (Val tt, set_errlog (errlog w ++ [(what, e)]) w).

(** [get_db_connection()], [cursor.execute('INSERT ...', params)],
    [conn.commit()], [cursor.lastrowid] and [conn.close()].

    The [sqlite3] module opens a transaction, binds the parameters in
    order (the file name, the status and the datetime always bind, as
    text) and runs the statement.  A parameter that does not bind raises
    before the statement runs.  The statement takes the write lock: when a
    connection left behind holds it, the statement gives up with [database
    is locked].  When the INSERT itself fails, on a NOT NULL column, the
    transaction stays open with the lock, and as the handler closes the
    connection after the commit only, the lock stays with the connection
    it leaves behind.  On success the commit releases the lock. *)
Definition execute_insert (filename : string)
    (description_p latitude_p longitude_p : pyval) (status_p : string)
    (date_reported_p : datetime) : M Z :=
  d <- lift (bind_param description_p) ;;
  la <- lift (bind_param latitude_p) ;;
  lo <- lift (bind_param longitude_p) ;;
  fun w =>
    if write_lock w then (Raise OperationalError, w)
    else
      match insert_report (db w) (utc_clock w (ticks w)) filename d la lo
              status_p (isoformat date_reported_p) with
      | Ok (db', rowid) => (Val rowid, set_db db' w)
      | Raises e => (Raise e, set_write_lock true w)
      end.

(** [get_db_connection()], [conn.execute('UPDATE ...', params)],
    [conn.commit()] and [conn.close()]: the id is bound, then the
    statement takes the write lock, whether or not a row has that id, and
    gives up with [database is locked] when a connection left behind
    holds it. *)
Definition execute_update (after_image_p : string) (status_p : string)
    (date_resolved_p : datetime) (report_id : Z) : M unit :=
  i <- lift (bind_param (PInt report_id)) ;;
  fun w =>
    if write_lock w then (Raise OperationalError, w)
    else
      match i with
      | SInteger n =>
          (Val tt, set_db (update_resolved (db w) after_image_p status_p
                             (isoformat date_resolved_p) n) w)
      | _ => (Val tt, w)
      end.

(** [conn.execute('SELECT * ... ORDER BY date_reported DESC').fetchall()] *)
Definition fetchall_reports : M (list row) :=
  fun w => (Val (select_all_reports (db w)), w).

(** ** The application *)

(** [config.Config], read through [app.config[...]]. *)
Record Config : Type := {
  DATABASE : string;
  UPLOAD_FOLDER_BEFORE : string;
  UPLOAD_FOLDER_AFTER : string
}.

Section App.

Variable config : Config.

(** [werkzeug.security.generate_password_hash], salted and opaque here. *)
Variable generate_password_hash : string -> string.

(** [init_db()]: both tables are created if they do not exist (a table
    that does not exist yet and an empty one are the same here), and the
    default admin is inserted unless an [admin] row is called that. *)
Definition init_db (w : world) : world :=
  let d := db w in
  let default_admin :=
    existsb (fun a => String.eqb (username a) "admin") (admin d) in
  if default_admin then w
  else
    set_db {| hazard_reports := hazard_reports d;
              hazard_reports_seq := hazard_reports_seq d;
              admin := admin d ++
                [{| admin_id := fold_right (fun a m => Z.max (admin_id a) m) 0 (admin d) + 1;
                    username := "admin";
                    password_hash := generate_password_hash "admin123" |}] |} w.

(** [request.json]: the parsed body, or an exception when the request has
    no JSON body that parses. *)
Definition request_json (request_body : option pyval) : M pyval :=
  match request_body with
  | Some v => ret v
  | None => raise BadJsonRequest
  end.

(** [session.get(key)] *)
Definition session_get (session : gmap string pyval) (key : string) : pyval :=
  match session !! key with
  | Some v => v
  | None => PNone
  end.

Definition required_fields : list string :=
  ["before_image"; "description"; "latitude"; "longitude"].

(** The part both handlers share, written out twice in [app.py]: split
    the data URI, build the file name from the clock and the declared
    subtype, and write the decoded bytes under [folder]. *)
Definition save_image (image_data : pyval) (folder prefix : string) : M string :=
  parts <- lift (py_split image_data "," (Some 1%nat)) ;;
  header_data <- lift (unpack2 parts) ;;
  let header := fst header_data in
  let base64_data := snd header_data in
  mime <- lift (index (split ";" None header) 0) ;;
  file_extension <- lift (index (split "/" None mime) 1) ;;
  t <- now ;;
  let filename := prefix +:+ "_" +:+ strftime_Ymd_HMS t +:+ "." +:+ file_extension in
  let filepath := os_path_join folder filename in
  makedirs folder ;;
  open_wb filepath ;;
  decoded <- lift (Base64.b64decode base64_data) ;;
  write filepath decoded ;;
  ret filename.

(** [@app.route('/api/report', methods=['POST'])] *)
Definition report_hazard (request_body : option pyval)
  : world -> response * world :=
  run_view (try_except
    (data <- request_json request_body ;;
     (* Validate required fields *)
     for_each required_fields (fun field =>
       absent <- lift (not_in field data) ;;
       missing <- (if absent : bool then ret true
                   else v <- lift (getitem data field) ;;
                        ret (negb (truthy v))) ;;
       if missing : bool then
         return_ (jsonify [("error", PStr ("Missing required field: " +:+ field))]) 400
       else ret tt) ;;
     (* Save image *)
     before_image_data <- lift (getitem data "before_image") ;;
     is_image <- lift (py_startswith before_image_data "data:image") ;;
     filename <- (if is_image : bool then
                    save_image before_image_data (UPLOAD_FOLDER_BEFORE config) "hazard"
                  else
                    return_ (jsonify [("error", PStr "Invalid image format")]) 400) ;;
     (* Insert into database *)
     description_p <- lift (getitem data "description") ;;
     latitude_p <- lift (getitem data "latitude") ;;
     longitude_p <- lift (getitem data "longitude") ;;
     t <- now ;;
     report_id <- execute_insert filename description_p latitude_p longitude_p
                    "Pending" t ;;
     ret {| resp_body := jsonify [("success", PBool true);
                                  ("report_id", PInt report_id);
                                  ("message", PStr "Hazard reported successfully")];
            resp_status := 200 |})
    (fun e =>
       logger_error "Error reporting hazard" e ;;
       ret {| resp_body := jsonify [("error", PStr "Internal server error")];
              resp_status := 500 |})).

(** [@app.route('/admin/resolve/<int:report_id>', methods=['POST'])] *)
Definition resolve_hazard (session : gmap string pyval) (report_id : Z)
    (request_body : option pyval) : world -> response * world :=
  run_view
    ((if negb (truthy (session_get session "admin_logged_in")) then
        return_ (jsonify [("error", PStr "Unauthorized")]) 401
      else ret tt) ;;
     try_except
       (data <- request_json request_body ;;
        after_image_data <- lift (dict_get data "after_image") ;;
        invalid <- (if negb (truthy after_image_data) then ret true
                    else is_image <- lift (py_startswith after_image_data "data:image") ;;
                         ret (negb is_image)) ;;
        (if invalid : bool then
           return_ (jsonify [("error", PStr "Invalid after image")]) 400
         else ret tt) ;;
        (* Save after image *)
        filename <- save_image after_image_data (UPLOAD_FOLDER_AFTER config) "resolved" ;;
        (* Update database *)
        t <- now ;;
        execute_update filename "Resolved" t report_id ;;
        ret {| resp_body := jsonify [("success", PBool true);
                                     ("message", PStr "Hazard marked as resolved")];
               resp_status := 200 |})
       (fun e =>
          logger_error "Error resolving hazard" e ;;
          ret {| resp_body := jsonify [("error", PStr "Internal server error")];
                 resp_status := 500 |})).

(** [@app.route('/history')] *)
Definition history : world -> response * world :=
  run_view
    (reports <- fetchall_reports ;;
     ret {| resp_body := Template "history.html" reports; resp_status := 200 |}).

(** [@app.route('/admin/dashboard')] *)
Definition admin_dashboard (session : gmap string pyval)
  : world -> response * world :=
  run_view
    ((if negb (truthy (session_get session "admin_logged_in")) then
        return_ (Redirect "admin_login") 302
      else ret tt) ;;
     reports <- fetchall_reports ;;
     ret {| resp_body := Template "admin_dashboard.html" reports;
            resp_status := 200 |}).

(** [send_from_directory(directory, filename)] for a [<filename>] of the
    URL, which is not empty and has no slash: [safe_join] refuses [".."],
    and a path that is not a file is a 404. *)
Definition send_from_directory (directory filename : string) : M response :=
  fun w =>
    let not_found := {| resp_body := NotFound; resp_status := 404 |} in
    if String.eqb filename "" || str_contains filename "/"
       || String.eqb filename ".." then (Val not_found, w)
    else
      let path := os_path_join (if String.eqb directory "" then "." else directory)
                               filename in
      match files w !! path with
      | Some content =>
          (Val {| resp_body := FileBody content; resp_status := 200 |}, w)
      | None => (Val not_found, w)
      end.

(** [@app.route('/uploads/before/<filename>')] *)
Definition uploaded_before_file (filename : string) : world -> response * world :=
  run_view (send_from_directory (UPLOAD_FOLDER_BEFORE config) filename).

(** [@app.route('/uploads/after/<filename>')] *)
Definition uploaded_after_file (filename : string) : world -> response * world :=
  run_view (send_from_directory (UPLOAD_FOLDER_AFTER config) filename).

End App.

(** ** Vocabulary of the properties *)

(** A required field is missing when the key is absent or its value is
    falsy: this is the test [field not in data or not data[field]]. *)
Definition field_missing (d : gmap string pyval) (field : string) : bool :=
  match d !! field with
  | None => true
  | Some v => negb (truthy v)
  end.

(** The first required field, in the order of the loop, that is missing. *)
Definition first_missing (d : gmap string pyval) : option string :=
  List.find (field_missing d) required_fields.

Definition missing_field_response (field : string) : response :=
  {| resp_body := jsonify [("error", PStr ("Missing required field: " +:+ field))];
     resp_status := 400 |}.

Definition invalid_image_response : response :=
  {| resp_body := jsonify [("error", PStr "Invalid image format")];
     resp_status := 400 |}.

Definition invalid_after_image_response : response :=
  {| resp_body := jsonify [("error", PStr "Invalid after image")];
     resp_status := 400 |}.

Definition unauthorized_response : response :=
  {| resp_body := jsonify [("error", PStr "Unauthorized")];
     resp_status := 401 |}.

Definition internal_error_response : response :=
  {| resp_body := jsonify [("error", PStr "Internal server error")];
     resp_status := 500 |}.

Definition report_success_response (report_id : Z) : response :=
  {| resp_body := jsonify [("success", PBool true);
                           ("report_id", PInt report_id);
                           ("message", PStr "Hazard reported successfully")];
     resp_status := 200 |}.

Definition resolve_success_response : response :=
  {| resp_body := jsonify [("success", PBool true);
                           ("message", PStr "Hazard marked as resolved")];
     resp_status := 200 |}.

(** The number 0 of JSON: the integer [0] or a float zero. *)
Definition is_zero_number (v : pyval) : bool :=
  match v with
  | PInt 0 => true
  | PFloat (S754_zero _) => true
  | _ => false
  end.

(** [c] does not occur in [s]. *)
Fixpoint no_char (c : ascii) (s : string) : bool :=
  match s with
  | EmptyString => true
  | String d s' => negb (Ascii.eqb d c) && no_char c s'
  end.

(** The data URI [data:image/<subtype>;base64,<payload>]. *)
Definition data_uri (subtype payload : string) : string :=
  "data:image/" +:+ subtype +:+ ";base64," +:+ payload.

(** The name a handler gives the file it stores at time [t]. *)
Definition image_filename (prefix : string) (t : datetime) (subtype : string) : string :=
  prefix +:+ "_" +:+ strftime_Ymd_HMS t +:+ "." +:+ subtype.

(** The full pattern of the specification, for any subtype and payload. *)
Definition matches_data_uri_pattern (s : string) : Prop :=
  exists subtype payload, s = data_uri subtype payload.

(** A subtype as a MIME type has it: none of the separators the handler
    splits on, and no NUL. *)
Definition subtype_ok (subtype : string) : bool :=
  no_char "," subtype && no_char ";" subtype && no_char "/" subtype
  && negb (has_nul subtype).

(** A configured upload directory that [os.makedirs] accepts. *)
Definition folder_ok (folder : string) : bool :=
  negb (has_nul folder) && negb (String.eqb folder "").



(** The session of a logged-in administrator, as the handlers test it. *)
Definition admin_session (session : gmap string pyval) : bool :=
  truthy (session_get session "admin_logged_in").

(** The invariant of a row: [after_image] and [date_resolved] are both
    present exactly when [status] is ['Resolved']. *)
Definition row_ok (r : row) : Prop :=
  (is_Some (after_image r) /\ is_Some (date_resolved r)) <-> status r = "Resolved".

(** The invariant of the table, as a property of the world. *)
Definition rows_ok (w : world) : Prop := Forall row_ok (hazard_reports (db w)).

(** A computation keeps [P] when [P] of the world before gives [P] of the
    world after, however the computation ends. *)
Definition keeps (P : world -> Prop) {A : Type} (m : M A) : Prop :=
  forall w, P w -> P (snd (m w)).

(** What [resolve_hazard] leaves alone in a row. *)
Definition same_report_fields (r r' : row) : Prop :=
  id r' = id r /\ before_image r' = before_image r /\
  description r' = description r /\ latitude r' = latitude r /\
  longitude r' = longitude r /\ date_reported r' = date_reported r /\
  created_at r' = created_at r.

(** Orders on the stored [date_reported]. *)
Definition date_desc (a b : row) : Prop :=
  String.leb (date_reported b) (date_reported a) = true.

Definition date_strictly_desc (a b : row) : Prop :=
  String.ltb (date_reported b) (date_reported a) = true.

(** The worlds the application reaches: [init_db] on a database without
    reports, then any sequence of requests, and of collections of the
    connection a failed request left behind. *)
Inductive reachable (config : Config) (generate_password_hash : string -> string)
  : world -> Prop :=
| reach_init w :
    hazard_reports (db w) = [] ->
    reachable config generate_password_hash (init_db generate_password_hash w)
| reach_report w request_body :
    reachable config generate_password_hash w ->
    reachable config generate_password_hash
      (snd (report_hazard config request_body w))
| reach_resolve w session report_id request_body :
    reachable config generate_password_hash w ->
    reachable config generate_password_hash
      (snd (resolve_hazard config session report_id request_body w))
| reach_history w :
    reachable config generate_password_hash w ->
    reachable config generate_password_hash (snd (history w))
| reach_dashboard w session :
    reachable config generate_password_hash w ->
    reachable config generate_password_hash (snd (admin_dashboard session w))
| reach_before_file w filename :
    reachable config generate_password_hash w ->
    reachable config generate_password_hash
      (snd (uploaded_before_file config filename w))
| reach_after_file w filename :
    reachable config generate_password_hash w ->
    reachable config generate_password_hash
      (snd (uploaded_after_file config filename w))
| reach_collect w :
    (* the garbage collector closes the connection left behind *)
    reachable config generate_password_hash w ->
    reachable config generate_password_hash (set_write_lock false w).

(** Whether a computation can end in a [return] of the view, and with
    which status it can fall off the end. *)
Definition no_return {A : Type} (m : M A) : Prop :=
  forall w, match fst (m w) with Return _ => False | _ => True end.

Definition ends_with_status (code : Z) (m : M response) : Prop :=
  forall w, match fst (m w) with
            | Val r => resp_status r = code
            | Return _ => False
            | Raise _ => True
            end.

(** ** A concrete deployment, for the examples

    The scenario of the specification: a pothole reported at (12.9, 77.6)
    with a one-byte JPEG, resolved by the administrator with a one-byte
    PNG, on a fresh database and with a clock that stands still. *)

Definition example_config : Config :=
  {| DATABASE := "hazards.db";
     UPLOAD_FOLDER_BEFORE := "static/uploads/before";
     UPLOAD_FOLDER_AFTER := "static/uploads/after" |}.

Definition example_hash (password : string) : string := "pbkdf2:" +:+ password.

Definition example_time : datetime :=
  {| year := 2024; month := 3; day := 7;
     hour := 9; minute := 5; second := 0; microsecond := 0;
     in_range := eq_refl |}.

Definition example_world : world :=
  {| files := ∅; dirs := ∅;
     db := {| hazard_reports := []; hazard_reports_seq := 0; admin := [] |};
     clock := fun _ => example_time;
     utc_clock := fun _ => example_time;
     ticks := 0; errlog := []; write_lock := false |}.

(** 12.9 and 77.6 as binary64. *)
Definition example_latitude : pyval := PFloat (S754_finite false 7262054399134925 (-49)).
Definition example_longitude : pyval := PFloat (S754_finite false 5460614548186726 (-46)).

Definition example_submission : gmap string pyval :=
  list_to_map [("before_image", PStr "data:image/jpeg;base64,QQ==");
               ("description", PStr "pothole");
               ("latitude", example_latitude);
               ("longitude", example_longitude)].

Definition example_admin_session : gmap string pyval :=
  list_to_map [("admin_logged_in", PBool true); ("admin_username", PStr "admin")].

Definition example_resolution : gmap string pyval :=
  list_to_map [("after_image", PStr "data:image/png;base64,Qg==")].

(** The world after [init_db] and one accepted report, and after a second
    report made while the clock still shows the same time. *)
Definition example_world_1 : world :=
  snd (report_hazard example_config (Some (PDict example_submission))
         (init_db example_hash example_world)).

Definition example_world_2 : world :=
  snd (report_hazard example_config (Some (PDict example_submission))
         example_world_1).



(** A clock that shows [example_time] at its first two readings and a
    later time from then on, and the world after two reports under it. *)
Definition example_later : datetime :=
  {| year := 2024; month := 3; day := 7;
     hour := 9; minute := 6; second := 30; microsecond := 250000;
     in_range := eq_refl |}.

Definition example_ticking_world : world :=
  {| files := ∅; dirs := ∅;
     db := {| hazard_reports := []; hazard_reports_seq := 0; admin := [] |};
     clock := fun n => if (n <? 2)%nat then example_time else example_later;
     utc_clock := fun _ => example_time;
     ticks := 0; errlog := []; write_lock := false |}.

Definition example_ticking_world_2 : world :=
  snd (report_hazard example_config (Some (PDict example_submission))
         (snd (report_hazard example_config (Some (PDict example_submission))
                 example_ticking_world))).

(** A latitude that is not a number, as [json.loads] reads [NaN]. *)
Definition example_nan : pyval := PFloat S754_nan.

(** ** The administrator's views

    [index_view], [admin_login] and [admin_logout].  The session of Flask is a
    dict that the view reads and changes; a tuple stored in it is a list
    here.  The templates are not part of [app.py]: rendering one is taken
    to leave the session as the view left it. *)

Section Admin.

(** [werkzeug.security.check_password_hash(pwhash, password)], opaque. *)
Variable check_password_hash : string -> string -> bool.

(** [@app.route('/')], the view [index] ([index] here is already the
    subscript of a list). *)
Definition index_view : world -> response * world :=
  run_view (ret {| resp_body := Template "index.html" []; resp_status := 200 |}).

(** [conn.execute('SELECT * FROM admin WHERE username = ?',
    (username,)).fetchone()] *)
Definition fetch_admin (d : database) (name : string) : option admin_row :=
  List.find (fun a => String.eqb (username a) name) (admin d).

(** [flash(message, category)]: the pair is appended to the list kept
    under ['_flashes'] in the session. *)
Definition flash (message category : string) (session : gmap string pyval)
  : result (gmap string pyval) :=
  let entry := PList [PStr category; PStr message] in
  match session !! "_flashes" with
  | None => Ok (<[ "_flashes" := PList [entry] ]> session)
  | Some (PList l) => Ok (<[ "_flashes" := PList (l ++ [entry]) ]> session)
  | Some _ => Raises AttributeError
  end.

(** [@app.route('/admin/login', methods=['GET', 'POST'])]: the answer, or
    the exception that escapes the view, and the session afterwards.
    [request.form[key]] raises a KeyError (which Flask answers with a 400)
    when the form has no such field. *)
Definition admin_login (method : string) (form : gmap string string)
    (session : gmap string pyval) (w : world)
  : result response * gmap string pyval :=
  let login_page :=
    {| resp_body := Template "admin_login.html" []; resp_status := 200 |} in
  let invalid_credentials :=
    match flash "Invalid credentials" "error" session with
    | Ok session' => (Ok login_page, session')
    | Raises e => (Raises e, session)
    end in
  if String.eqb method "POST" then
    match form !! "username" with
    | None => (Raises KeyError, session)
    | Some username_ =>
        match form !! "password" with
        | None => (Raises KeyError, session)
        | Some password =>
            match fetch_admin (db w) username_ with
            | Some admin_ =>
                if check_password_hash (password_hash admin_) password then
                  (Ok {| resp_body := Redirect "admin_dashboard";
                         resp_status := 302 |},
                   <[ "admin_username" := PStr (username admin_) ]>
                     (<[ "admin_logged_in" := PBool true ]> session))
                else invalid_credentials
            | None => invalid_credentials
            end
        end
    end
  else (Ok login_page, session).

(** [@app.route('/admin/logout')]: [session.clear()] and a redirect. *)
Definition admin_logout (session : gmap string pyval)
  : response * gmap string pyval :=
  ({| resp_body := Redirect "admin_login"; resp_status := 302 |}, ∅).

End Admin.

(** ** More vocabulary: outcomes of a request and the life of a row *)

(** A Hoare triple for a computation: from a world in [P], a value [a]
    leaves a world in [Q a], a [return] of response [r] a world in [R r],
    and a raised exception a world in [X]. *)
Definition triple {A : Type} (P : world -> Prop) (m : M A)
    (Q : A -> world -> Prop) (R : response -> world -> Prop)
    (X : world -> Prop) : Prop :=
  forall w, P w ->
    match m w with
    | (Val a, w') => Q a w'
    | (Return r, w') => R r w'
    | (Raise _, w') => X w'
    end.

(** The file named [name] can be fetched from [folder] through
    [send_from_directory]. *)
Definition served (folder name : string) (w : world) : Prop :=
  exists content,
    send_from_directory folder name w =
    (Val {| resp_body := FileBody content; resp_status := 200 |}, w).

(** What a request may do to a row: the report itself stays, and a
    resolved row stays resolved. *)
Definition row_lives_on (r r' : row) : Prop :=
  same_report_fields r r' /\
  (status r = "Resolved" -> status r' = "Resolved") /\
  (r' = r \/ status r' = "Resolved").

(** What requests may do to the table: the old rows live on, in place,
    and new rows come after them. *)
Definition table_lives_on (rows rows' : list row) : Prop :=
  exists kept added, rows' = kept ++ added /\ Forall2 row_lives_on rows kept.

(** The rowids of the table: positive, increasing with the position, and
    not above the counter of AUTOINCREMENT. *)
Definition rowids_ok (d : database) : Prop :=
  StronglySorted Z.lt (List.map id (hazard_reports d)) /\
  Forall (fun r => 1 <= id r <= hazard_reports_seq d) (hazard_reports d).

(** At most the image of this request was written: the files are what
    they were, or differ by the one file the handler names after the
    prefix, the time it read and an extension without a slash. *)
Definition at_most_image_written (folder prefix : string) (w w' : world) : Prop :=
  files w' = files w \/
  exists ext content,
    no_char "/" ext = true /\
    files w' = <[ os_path_join folder
                    (image_filename prefix (clock w (ticks w)) ext) := content ]>
                 (files w).

(** The request was accepted and stored as the row [r]. *)
Definition report_stored (config : Config) (w w' : world) (r : row) : Prop :=
  exists ext content,
    no_char "/" ext = true /\
    folder_ok (UPLOAD_FOLDER_BEFORE config) = true /\
    before_image r = image_filename "hazard" (clock w (ticks w)) ext /\
    id r = next_rowid (db w) /\
    status r = "Pending" /\ after_image r = None /\ date_resolved r = None /\
    date_reported r = isoformat (clock w (S (ticks w))) /\
    db w' = {| hazard_reports := hazard_reports (db w) ++ [r];
               hazard_reports_seq := id r;
               admin := admin (db w) |} /\
    files w' = <[ os_path_join (UPLOAD_FOLDER_BEFORE config) (before_image r)
                  := content ]> (files w) /\
    errlog w' = errlog w.

(** The resolution was carried out under the file name [filename]. *)
Definition resolution_stored (config : Config) (report_id : Z) (w w' : world)
    (filename : string) : Prop :=
  exists ext content,
    no_char "/" ext = true /\
    folder_ok (UPLOAD_FOLDER_AFTER config) = true /\
    filename = image_filename "resolved" (clock w (ticks w)) ext /\
    db w' = update_resolved (db w) filename "Resolved"
              (isoformat (clock w (S (ticks w)))) report_id /\
    files w' = <[ os_path_join (UPLOAD_FOLDER_AFTER config) filename := content ]>
                 (files w) /\
    errlog w' = errlog w.

(** The request failed inside the [try]: it was answered with the 500,
    logged once under [what], and the table is what it was. *)
Definition failed_and_logged (what : string) (resp : response) (w w' : world) : Prop :=
  resp = internal_error_response /\
  db w' = db w /\
  exists e, errlog w' = errlog w ++ [(what, e)].

(** The image [name] of a row is in place: it is a name a handler made
    (the prefix, a time, an extension without a slash) and the folder
    holds a file of that name. *)
Definition image_in_place (folder prefix name : string) (w : world) : Prop :=
  folder_ok folder = true /\
  (exists t ext, name = image_filename prefix t ext /\ no_char "/" ext = true) /\
  is_Some (files w !! os_path_join folder name).

(** Every row has its before image in place, and its after image too
    when it has one. *)
Definition images_in_place (config : Config) (w : world) : Prop :=
  Forall (fun r =>
            image_in_place (UPLOAD_FOLDER_BEFORE config) "hazard" (before_image r) w /\
            (forall a, after_image r = Some a ->
                       image_in_place (UPLOAD_FOLDER_AFTER config) "resolved" a w))
         (hazard_reports (db w)).


(** The session after a login that succeeded for the admin row [a]. *)
Definition logged_in_session (session : gmap string pyval) (a : admin_row)
  : gmap string pyval :=
  <[ "admin_username" := PStr (username a) ]>
    (<[ "admin_logged_in" := PBool true ]> session).

Definition login_redirect : response :=
  {| resp_body := Redirect "admin_dashboard"; resp_status := 302 |}.

Definition login_page : response :=
  {| resp_body := Template "admin_login.html" []; resp_status := 200 |}.

(** The order of two naive [datetime] values, as Python's [<] has it:
    field by field, the year first. *)
Definition datetime_compare (a b : datetime) : comparison :=
  let then_ (c d : comparison) := match c with Eq => d | _ => c end in
  then_ (year a ?= year b)%N
    (then_ (month a ?= month b)%N
       (then_ (day a ?= day b)%N
          (then_ (hour a ?= hour b)%N
             (then_ (minute a ?= minute b)%N
                (then_ (second a ?= second b)%N
                   (microsecond a ?= microsecond b)%N))))).

(** The first digit of a decimal number as [string_of_uint] prints it, and
    the digits after it. *)
Definition head_digit (d : Decimal.uint) : N :=
  match d with
  | Decimal.Nil | Decimal.D0 _ => 0
  | Decimal.D1 _ => 1 | Decimal.D2 _ => 2 | Decimal.D3 _ => 3
  | Decimal.D4 _ => 4 | Decimal.D5 _ => 5 | Decimal.D6 _ => 6
  | Decimal.D7 _ => 7 | Decimal.D8 _ => 8 | Decimal.D9 _ => 9
  end%N.

Definition tail_digits (d : Decimal.uint) : Decimal.uint :=
  match d with
  | Decimal.Nil => Decimal.Nil
  | Decimal.D0 l | Decimal.D1 l | Decimal.D2 l | Decimal.D3 l | Decimal.D4 l
  | Decimal.D5 l | Decimal.D6 l | Decimal.D7 l | Decimal.D8 l | Decimal.D9 l => l
  end.

(** [d] with [k] zeros in front. *)
Fixpoint leading_zeros (k : nat) (d : Decimal.uint) : Decimal.uint :=
  match k with
  | O => d
  | S k' => Decimal.D0 (leading_zeros k' d)
  end.

(** The worlds that requests, and collections of the connection left
    behind, lead to from [w0]. *)
Inductive later (config : Config) (w0 : world) : world -> Prop :=
| later_now : later config w0 w0
| later_report w request_body :
    later config w0 w ->
    later config w0 (snd (report_hazard config request_body w))
| later_resolve w session report_id request_body :
    later config w0 w ->
    later config w0 (snd (resolve_hazard config session report_id request_body w))
| later_collect w :
    (* the garbage collector closes the connection left behind *)
    later config w0 w ->
    later config w0 (set_write_lock false w).

(** A stand-in for [check_password_hash] that goes with [example_hash]. *)
Definition example_check (pwhash password : string) : bool :=
  String.eqb pwhash (example_hash password).

(** * Properties *)

(** ** Strings *)

Section Strings.

Lemma split_none_left (sep : ascii) (a b : string) :
  no_char sep a = true ->
  split sep None (a +:+ String sep b) = a :: split sep None b.
Proof.
  induction a as [|c a IH]; simpl; intros H.
  - rewrite Ascii.eqb_refl. reflexivity.
  - apply andb_true_iff in H as [Hc Ha]. apply negb_true_iff in Hc.
    rewrite Hc. simpl. rewrite (IH Ha). reflexivity.
Qed.

Lemma split_nosep (sep : ascii) (m : option nat) (a : string) :
  no_char sep a = true -> split sep m a = [a].
Proof.
  induction a as [|c a IH]; simpl; intros H; [reflexivity|].
  apply andb_true_iff in H as [Hc Ha]. apply negb_true_iff in Hc.
  rewrite Hc. simpl. rewrite (IH Ha). reflexivity.
Qed.

Lemma split_zero (sep : ascii) (a : string) : split sep (Some 0%nat) a = [a].
Proof.
  induction a as [|c a IH]; simpl; [reflexivity|].
  rewrite andb_false_r, IH. reflexivity.
Qed.

Lemma split_once_left (sep : ascii) (a b : string) :
  no_char sep a = true ->
  split sep (Some 1%nat) (a +:+ String sep b) = [a; b].
Proof.
  induction a as [|c a IH]; simpl; intros H.
  - rewrite Ascii.eqb_refl. simpl. rewrite split_zero. reflexivity.
  - apply andb_true_iff in H as [Hc Ha]. apply negb_true_iff in Hc.
    rewrite Hc. simpl. rewrite (IH Ha). reflexivity.
Qed.

Lemma no_char_app (c : ascii) (a b : string) :
  no_char c (a +:+ b) = no_char c a && no_char c b.
Proof.
  induction a as [|d a IH]; simpl; [reflexivity|].
  rewrite IH. apply andb_assoc.
Qed.

Lemma has_nul_app (a b : string) : has_nul (a +:+ b) = has_nul a || has_nul b.
Proof.
  induction a as [|d a IH]; simpl; [reflexivity|].
  rewrite IH. apply orb_assoc.
Qed.

Lemma startswith_app (p s : string) : startswith (p +:+ s) p = true.
Proof.
  induction p as [|c p IH]; simpl; [reflexivity|].
  rewrite Ascii.eqb_refl. exact IH.
Qed.

Lemma str_contains_app (a p b : string) : str_contains (a +:+ p +:+ b) p = true.
Proof.
  induction a as [|c a IH].
  - change (str_contains (p +:+ b) p = true).
    pose proof (startswith_app p b) as H.
    destruct (p +:+ b); simpl; rewrite H; reflexivity.
  - simpl. rewrite IH. apply orb_true_r.
Qed.

Lemma append_assoc (a b c : string) : (a +:+ b) +:+ c = a +:+ (b +:+ c).
Proof.
  induction a as [|x a IH]; [reflexivity|].
  change (String x ((a +:+ b) +:+ c) = String x (a +:+ (b +:+ c))).
  f_equal. exact IH.
Qed.

Lemma has_nul_digits (u : Decimal.uint) : has_nul (NilEmpty.string_of_uint u) = false.
Proof. induction u; simpl; auto. Qed.

Lemma no_char_digits (c : ascii) (u : Decimal.uint) :
  (N_of_ascii c <? 48)%N = true -> no_char c (NilEmpty.string_of_uint u) = true.
Proof.
  intros Hc. induction u; cbn [NilEmpty.string_of_uint no_char]; auto;
  rewrite IHu, andb_true_r;
  apply negb_true_iff, Ascii.eqb_neq; intros <-; vm_compute in Hc; discriminate.
Qed.

Lemma has_nul_zeros k : has_nul (zeros k) = false.
Proof. induction k; simpl; auto. Qed.

Lemma has_nul_zpad k n : has_nul (zpad k n) = false.
Proof. unfold zpad. now rewrite has_nul_app, has_nul_zeros, has_nul_digits. Qed.

Lemma no_char_zeros c k : (N_of_ascii c <? 48)%N = true -> no_char c (zeros k) = true.
Proof.
  intros Hc. induction k; cbn [zeros no_char]; auto. rewrite IHk, andb_true_r.
  apply negb_true_iff, Ascii.eqb_neq; intros <-; vm_compute in Hc; discriminate.
Qed.

Lemma no_char_zpad c k n : (N_of_ascii c <? 48)%N = true -> no_char c (zpad k n) = true.
Proof. intros. unfold zpad. now rewrite no_char_app, no_char_zeros, no_char_digits. Qed.

Lemma has_nul_strftime t : has_nul (strftime_Ymd_HMS t) = false.
Proof. unfold strftime_Ymd_HMS. now rewrite !has_nul_app, !has_nul_zpad. Qed.

Lemma no_slash_strftime t : no_char "/" (strftime_Ymd_HMS t) = true.
Proof. unfold strftime_Ymd_HMS. now rewrite !no_char_app, !no_char_zpad. Qed.

Lemma str_contains_char (s : string) (c : ascii) :
  str_contains s (String c EmptyString) = negb (no_char c s).
Proof.
  induction s as [|d s IH]; simpl; [reflexivity|].
  rewrite IH, Ascii.eqb_sym. destruct (Ascii.eqb d c); simpl; [reflexivity|].
  destruct s; reflexivity.
Qed.

Lemma basename_no_slash (s : string) : no_char "/" s = true -> basename s = s.
Proof.
  destruct s as [|c s]; [reflexivity|]. cbn [no_char basename]. intros H.
  apply andb_true_iff in H as [Hc Hs]. apply negb_true_iff in Hc.
  now rewrite str_contains_char, Hs, Hc.
Qed.

Lemma basename_dir (a b : string) :
  endswith_char a "/" = true -> no_char "/" b = true -> basename (a +:+ b) = b.
Proof.
  intros Ha Hb. induction a as [|c a IH]; [discriminate Ha|].
  change (String c a +:+ b) with (String c (a +:+ b)). cbn [basename].
  rewrite str_contains_char, no_char_app, Hb, andb_true_r.
  destruct a as [|c' a].
  - cbn in Ha. cbn. now rewrite Ha.
  - assert (Ht : endswith_char (String c' a) "/" = true) by exact Ha.
    destruct (no_char "/" (String c' a)) eqn:Hn; cbn [negb]; [|now apply IH].
    exfalso. clear -Ht Hn. revert c' Ht Hn.
    induction a as [|d a IHa]; intros c' Ht Hn.
    + cbn in Ht, Hn. rewrite Ht in Hn. discriminate Hn.
    + cbn [no_char] in Hn. apply andb_true_iff in Hn as [_ Hn].
      exact (IHa d Ht Hn).
Qed.

Lemma endswith_char_last (a : string) (c : ascii) :
  endswith_char (a +:+ String c EmptyString) c = true.
Proof.
  induction a as [|d a IH]; [cbn; apply Ascii.eqb_refl|].
  change (String d a +:+ String c "") with (String d (a +:+ String c "")).
  cbn [endswith_char]. destruct (a +:+ String c "") eqn:E; [|exact IH].
  destruct a; discriminate E.
Qed.

(** The file name is what is left of a path made with [os.path.join]. *)
Lemma basename_join (a b : string) :
  no_char "/" b = true -> basename (os_path_join a b) = b.
Proof.
  intros Hb. unfold os_path_join.
  assert (Hs : startswith b "/" = false).
  { destruct b as [|c b]; [reflexivity|]. cbn [no_char startswith] in Hb |- *.
    apply andb_true_iff in Hb as [Hc _]. apply negb_true_iff in Hc.
    now rewrite Ascii.eqb_sym, Hc. }
  rewrite Hs. destruct (String.eqb_spec a "") as [->|Ha]; cbn [orb].
  - now apply basename_no_slash.
  - destruct (endswith_char a "/") eqn:He.
    + now apply basename_dir.
    + rewrite <- append_assoc. apply basename_dir; [|exact Hb].
      apply endswith_char_last.
Qed.

End Strings.

(** ** Numbers in decimal, and the texts of a time *)

Section Decimals.

#[local] Open Scope N_scope.

(** The value of a decimal number, digit by digit. *)
Lemma of_uint_acc_value (l : Decimal.uint) (acc : positive) :
  N.pos (Pos.of_uint_acc l acc) =
  N.pos acc * 10 ^ N.of_nat (Decimal.nb_digits l) + Pos.of_uint l.
Proof.
  revert acc.
  induction l as [|l IH|l IH|l IH|l IH|l IH|l IH|l IH|l IH|l IH|l IH]; intros acc;
    cbn [Pos.of_uint_acc Pos.of_uint Decimal.nb_digits];
    [cbn; lia | ..];
    rewrite Nat2N.inj_succ, N.pow_succ_r'; rewrite ?IH; rewrite (IH acc) || idtac;
    lia.
Qed.

Lemma of_uint_head (d : Decimal.uint) :
  Pos.of_uint d =
  head_digit d * 10 ^ N.of_nat (Decimal.nb_digits (tail_digits d)) +
  Pos.of_uint (tail_digits d).
Proof.
  destruct d; cbn [Pos.of_uint head_digit tail_digits]; try reflexivity;
    rewrite of_uint_acc_value; reflexivity.
Qed.

Lemma head_digit_bound (d : Decimal.uint) : head_digit d < 10.
Proof. destruct d; cbn; lia. Qed.

Lemma of_uint_bound (d : Decimal.uint) :
  Pos.of_uint d < 10 ^ N.of_nat (Decimal.nb_digits d).
Proof.
  induction d; try (cbn; lia);
    rewrite of_uint_head; cbn [head_digit tail_digits Decimal.nb_digits];
    rewrite Nat2N.inj_succ, N.pow_succ_r'; lia.
Qed.

Lemma string_of_uint_head (d : Decimal.uint) :
  d <> Decimal.Nil ->
  NilEmpty.string_of_uint d =
  String (ascii_of_N (48 + head_digit d)) (NilEmpty.string_of_uint (tail_digits d)).
Proof. destruct d; intros H; try reflexivity. contradiction. Qed.

Lemma nb_digits_tail (d : Decimal.uint) (n : nat) :
  Decimal.nb_digits d = S n -> Decimal.nb_digits (tail_digits d) = n /\ d <> Decimal.Nil.
Proof. destruct d; cbn; intros H; split; congruence. Qed.

Lemma N_compare_add_l (p a b : N) : (p + a ?= p + b) = (a ?= b).
Proof.
  destruct (N.compare_spec a b) as [E|L|G].
  - subst b. apply N.compare_refl.
  - apply N.compare_lt_iff. lia.
  - apply N.compare_gt_iff. lia.
Qed.

Lemma compare_digit_value (p h1 h2 v1 v2 : N) :
  v1 < p -> v2 < p ->
  (h1 * p + v1 ?= h2 * p + v2) =
  match h1 ?= h2 with Eq => v1 ?= v2 | c => c end.
Proof.
  intros V1 V2. destruct (N.compare_spec h1 h2) as [E|L|G].
  - subst h2. apply N_compare_add_l.
  - apply N.compare_lt_iff. nia.
  - apply N.compare_gt_iff. nia.
Qed.

Lemma digit_char_compare (a b : N) :
  a < 10 -> b < 10 ->
  Ascii.compare (ascii_of_N (48 + a)) (ascii_of_N (48 + b)) = (a ?= b).
Proof.
  intros Ha Hb. unfold Ascii.compare.
  rewrite !N_ascii_embedding by lia.
  apply N_compare_add_l.
Qed.

(** Numbers printed with the same number of digits compare as texts the
    way they compare as numbers. *)
Lemma string_of_uint_compare (d1 d2 : Decimal.uint) :
  Decimal.nb_digits d1 = Decimal.nb_digits d2 ->
  String.compare (NilEmpty.string_of_uint d1) (NilEmpty.string_of_uint d2) =
  (Pos.of_uint d1 ?= Pos.of_uint d2).
Proof.
  remember (Decimal.nb_digits d1) as n eqn:Hn. revert d1 d2 Hn.
  induction n as [|n IH]; intros d1 d2 H1 H2.
  - destruct d1; try discriminate H1. destruct d2; try discriminate H2. reflexivity.
  - symmetry in H1, H2.
    apply nb_digits_tail in H1 as [T1 N1]. apply nb_digits_tail in H2 as [T2 N2].
    rewrite (string_of_uint_head d1 N1), (string_of_uint_head d2 N2).
    cbn [String.compare].
    rewrite digit_char_compare by apply head_digit_bound.
    rewrite (of_uint_head d1), (of_uint_head d2), T1, T2.
    pose proof (head_digit_bound d1) as B1. pose proof (head_digit_bound d2) as B2.
    pose proof (of_uint_bound (tail_digits d1)) as V1.
    pose proof (of_uint_bound (tail_digits d2)) as V2.
    rewrite T1 in V1. rewrite T2 in V2.
    rewrite (compare_digit_value _ _ _ _ _ V1 V2).
    rewrite (IH (tail_digits d1) (tail_digits d2)) by congruence.
    reflexivity.
Qed.


Lemma leading_zeros_value (k : nat) (d : Decimal.uint) :
  Pos.of_uint (leading_zeros k d) = Pos.of_uint d.
Proof. induction k as [|k IH]; [reflexivity | exact IH]. Qed.

Lemma leading_zeros_digits (k : nat) (d : Decimal.uint) :
  Decimal.nb_digits (leading_zeros k d) = (k + Decimal.nb_digits d)%nat.
Proof. induction k as [|k IH]; cbn; [reflexivity | now rewrite IH]. Qed.

Lemma leading_zeros_string (k : nat) (d : Decimal.uint) :
  NilEmpty.string_of_uint (leading_zeros k d) =
  (zeros k +:+ NilEmpty.string_of_uint d)%string.
Proof. induction k as [|k IH]; cbn; [reflexivity | now rewrite IH]. Qed.

Lemma string_of_uint_length (d : Decimal.uint) :
  String.length (NilEmpty.string_of_uint d) = Decimal.nb_digits d.
Proof. induction d; cbn; congruence. Qed.

(** A number below [10 ^ width] prints with at most [width] digits. *)
Lemma to_uint_digits (width : nat) (n : N) :
  (1 <= width)%nat -> n < 10 ^ N.of_nat width ->
  (Decimal.nb_digits (N.to_uint n) <= width)%nat.
Proof.
  intros Hw Hn.
  pose proof (DecimalN.Unsigned.of_to n) as Hof.
  pose proof (DecimalN.Unsigned.to_of (N.to_uint n)) as Hnorm.
  rewrite Hof in Hnorm.
  set (u := N.to_uint n) in *.
  change (N.of_uint u) with (Pos.of_uint u) in Hof.
  unfold Decimal.unorm in Hnorm.
  pose proof (DecimalFacts.nzhead_nonzero u) as Hnz.
  destruct (Decimal.nzhead u) as [|z|z|z|z|z|z|z|z|z|z] eqn:Hh;
    [rewrite Hnorm; cbn; lia | exfalso; now apply (Hnz z) | ..];
    rewrite Hnorm in Hof |- *; rewrite of_uint_head in Hof;
    cbn [head_digit tail_digits Decimal.nb_digits] in Hof |- *;
    (apply Nat.nlt_ge; intros Hlt;
     assert (10 ^ N.of_nat width <= 10 ^ N.of_nat (Decimal.nb_digits z))
       by (apply N.pow_le_mono_r; lia);
     lia).
Qed.

(** [zpad] prints the number with exactly [width] digits. *)
Lemma zpad_digits (width : nat) (n : N) :
  (1 <= width)%nat -> n < 10 ^ N.of_nat width ->
  exists d,
    zpad width n = NilEmpty.string_of_uint d /\
    Decimal.nb_digits d = width /\ Pos.of_uint d = n.
Proof.
  intros Hw Hn. pose proof (to_uint_digits width n Hw Hn) as Hlen.
  exists (leading_zeros (width - Decimal.nb_digits (N.to_uint n)) (N.to_uint n)).
  split; [|split].
  - unfold zpad. now rewrite leading_zeros_string, string_of_uint_length.
  - rewrite leading_zeros_digits. lia.
  - rewrite leading_zeros_value. apply DecimalN.Unsigned.of_to.
Qed.

Lemma zpad_length (width : nat) (n : N) :
  (1 <= width)%nat -> n < 10 ^ N.of_nat width ->
  String.length (zpad width n) = width.
Proof.
  intros Hw Hn. destruct (zpad_digits width n Hw Hn) as (d & -> & Hd & _).
  now rewrite string_of_uint_length.
Qed.

Lemma zpad_compare (width : nat) (a b : N) :
  (1 <= width)%nat -> a < 10 ^ N.of_nat width -> b < 10 ^ N.of_nat width ->
  String.compare (zpad width a) (zpad width b) = (a ?= b).
Proof.
  intros Hw Ha Hb.
  destruct (zpad_digits width a Hw Ha) as (da & -> & Hda & <-).
  destruct (zpad_digits width b Hw Hb) as (db & -> & Hdb & <-).
  apply string_of_uint_compare. congruence.
Qed.

Lemma compare_app (a b x y : string) :
  String.length a = String.length b ->
  String.compare (a +:+ x) (b +:+ y) =
  match String.compare a b with Eq => String.compare x y | c => c end.
Proof.
  revert b. induction a as [|c a IH]; intros [|c' b] H; try discriminate H.
  - reflexivity.
  - change (String c a +:+ x)%string with (String c (a +:+ x)).
    change (String c' b +:+ y)%string with (String c' (b +:+ y)).
    cbn [String.compare]. destruct (Ascii.compare c c'); try reflexivity.
    apply IH. now injection H.
Qed.

Lemma compare_field (width : nat) (a b : N) (x y : string) :
  (1 <= width)%nat -> a < 10 ^ N.of_nat width -> b < 10 ^ N.of_nat width ->
  String.compare (zpad width a +:+ x) (zpad width b +:+ y) =
  match a ?= b with Eq => String.compare x y | _ => a ?= b end.
Proof.
  intros Hw Ha Hb. rewrite compare_app by now rewrite !zpad_length.
  rewrite zpad_compare by assumption. now destruct (a ?= b).
Qed.

Lemma compare_separator (c : ascii) (x y : string) :
  String.compare (String c x) (String c y) = String.compare x y.
Proof.
  cbn [String.compare]. unfold Ascii.compare. now rewrite N.compare_refl.
Qed.

Lemma in_range_bounds (t : datetime) :
  year t < 10 ^ N.of_nat 4 /\ month t < 10 ^ N.of_nat 2 /\ day t < 10 ^ N.of_nat 2 /\
  hour t < 10 ^ N.of_nat 2 /\ minute t < 10 ^ N.of_nat 2 /\
  second t < 10 ^ N.of_nat 2 /\ microsecond t < 10 ^ N.of_nat 6.
Proof.
  pose proof (in_range t) as H. unfold fields_in_range in H.
  rewrite !andb_true_iff, !N.leb_le in H.
  change (10 ^ N.of_nat 4) with 10000. change (10 ^ N.of_nat 2) with 100.
  change (10 ^ N.of_nat 6) with 1000000. lia.
Qed.

(** The text that is stored for a time sorts as the time does: the
    fields have fixed widths, and a time without microseconds is a prefix
    of the ones of the same second that have some. *)
Lemma isoformat_compare (a b : datetime) :
  String.compare (isoformat a) (isoformat b) = datetime_compare a b.
Proof.
  destruct (in_range_bounds a) as (Ya & Ma & Da & ha & ma & sa & ua).
  destruct (in_range_bounds b) as (Yb & Mb & Db & hb & mb & sb & ub).
  unfold isoformat, datetime_compare.
  rewrite compare_field by (assumption || lia).
  change ("-" +:+ ?x)%string with (String "-" x). rewrite compare_separator.
  rewrite compare_field by (assumption || lia).
  change ("-" +:+ ?x)%string with (String "-" x). rewrite compare_separator.
  rewrite compare_field by (assumption || lia).
  change (" " +:+ ?x)%string with (String " " x). rewrite compare_separator.
  rewrite compare_field by (assumption || lia).
  change (":" +:+ ?x)%string with (String ":" x). rewrite compare_separator.
  rewrite compare_field by (assumption || lia).
  change (":" +:+ ?x)%string with (String ":" x). rewrite compare_separator.
  rewrite compare_field by (assumption || lia).
  assert (Hfrac :
    String.compare
      (if microsecond a =? 0 then EmptyString else "." +:+ zpad 6 (microsecond a))
      (if microsecond b =? 0 then EmptyString else "." +:+ zpad 6 (microsecond b)) =
    (microsecond a ?= microsecond b)).
  { destruct (N.eqb_spec (microsecond a) 0) as [Ea|Ea];
      destruct (N.eqb_spec (microsecond b) 0) as [Eb|Eb].
    - now rewrite Ea, Eb.
    - rewrite Ea. change ("." +:+ ?x)%string with (String "." x).
      cbn [String.compare]. symmetry. apply N.compare_lt_iff. lia.
    - rewrite Eb. change ("." +:+ ?x)%string with (String "." x).
      cbn [String.compare]. symmetry. apply N.compare_gt_iff. lia.
    - change ("." +:+ ?x)%string with (String "." x). rewrite compare_separator.
      apply zpad_compare; (assumption || lia). }
  rewrite Hfrac. reflexivity.
Qed.

Lemma length_append (a b : string) :
  String.length (a +:+ b) = (String.length a + String.length b)%nat.
Proof.
  induction a as [|c a IH]; [reflexivity|].
  change (String c a +:+ b)%string with (String c (a +:+ b)).
  cbn [String.length Nat.add]. now rewrite IH.
Qed.

(** The time in a file name always takes fifteen characters. *)
Lemma strftime_length (t : datetime) : String.length (strftime_Ymd_HMS t) = 15%nat.
Proof.
  destruct (in_range_bounds t) as (Y & Mo & D & h & mi & s & _).
  unfold strftime_Ymd_HMS.
  rewrite !length_append, !zpad_length by (assumption || lia). reflexivity.
Qed.

Lemma image_filename_length (prefix : string) (t : datetime) (subtype : string) :
  String.length (image_filename prefix t subtype) =
  (String.length prefix + 17 + String.length subtype)%nat.
Proof.
  unfold image_filename. rewrite !length_append, strftime_length. cbn. lia.
Qed.

End Decimals.

(** ** Evaluating the handlers *)

(** One step of symbolic execution: the monad and the primitive effects
    are unfolded wherever that makes progress. *)
Ltac run :=
  cbn [bind ret lift raise return_ unpack2 index nth_error fst snd
       py_split py_startswith getitem dict_get request_json now makedirs
       open_wb write logger_error set_files set_dirs set_ticks set_db
       set_errlog set_write_lock files dirs db clock utc_clock ticks errlog
       write_lock].

Section Evaluation.

Variable config : Config.

Lemma check_fields_dict (d : gmap string pyval) (fields : list string) (w : world) :
  for_each fields (fun field =>
       absent <- lift (not_in field (PDict d)) ;;
       missing <- (if absent : bool then ret true
                   else v <- lift (getitem (PDict d) field) ;;
                        ret (negb (truthy v))) ;;
       if missing : bool then
         return_ (jsonify [("error", PStr ("Missing required field: " +:+ field))]) 400
       else ret tt) w
  = match List.find (field_missing d) fields with
    | Some g => (Return (missing_field_response g), w)
    | None => (Val tt, w)
    end.
Proof.
  induction fields as [|f fields IH]; [reflexivity|].
  cbn [for_each List.find]. unfold bind at 1. unfold field_missing at 1.
  unfold bind, lift, not_in, getitem, ret, return_.
  destruct (d !! f) as [v|]; [destruct (truthy v)|]; cbn [negb]; try reflexivity.
  exact IH.
Qed.

Lemma first_missing_None (d : gmap string pyval) :
  first_missing d = None ->
  forall f, In f required_fields -> exists v, d !! f = Some v /\ truthy v = true.
Proof.
  intros H f Hf. unfold first_missing in H.
  pose proof (find_none _ _ H f Hf) as Hm. unfold field_missing in Hm.
  destruct (d !! f) as [v|]; [|discriminate].
  exists v. split; [reflexivity|]. now apply negb_false_iff.
Qed.

Lemma report_hazard_missing (d : gmap string pyval) (w : world) (g : string) :
  first_missing d = Some g ->
  report_hazard config (Some (PDict d)) w = (missing_field_response g, w).
Proof.
  intros H. unfold report_hazard, run_view, try_except.
  unfold bind at 1. cbn [request_json ret].
  unfold bind at 1. rewrite check_fields_dict. fold (first_missing d). rewrite H.
  reflexivity.
Qed.


Lemma os_path_join_relative (a b : string) :
  startswith b "/" = false -> folder_ok a = true ->
  has_nul (os_path_join a b) = has_nul b.
Proof.
  intros Hb Ha. unfold os_path_join. rewrite Hb.
  apply andb_true_iff in Ha as [Hn _]. apply negb_true_iff in Hn.
  destruct (_ || _); rewrite !has_nul_app, Hn; reflexivity.
Qed.

Lemma bind_makedirs {A : Type} (folder : string) (k : unit -> M A) (w : world) :
  folder_ok folder = true ->
  bind (makedirs folder) k w = k tt (set_dirs ({[ folder ]} ∪ dirs w) w).
Proof.
  unfold folder_ok, bind, makedirs. intros H.
  apply andb_true_iff in H as [H1 H2].
  apply negb_true_iff in H1. apply negb_true_iff in H2.
  rewrite H1, H2. reflexivity.
Qed.

Lemma bind_open_wb {A : Type} (path : string) (k : unit -> M A) (w : world) :
  has_nul path = false ->
  (String.length (basename path) <= NAME_MAX)%nat ->
  bind (open_wb path) k w = k tt (set_files (<[ path := [] ]> (files w)) w).
Proof.
  unfold bind, open_wb. intros -> Hlen.
  apply Nat.ltb_ge in Hlen. rewrite Hlen. reflexivity.
Qed.

Lemma no_slash_image_filename (prefix : string) (t : datetime) (subtype : string) :
  no_char "/" prefix = true -> no_char "/" subtype = true ->
  no_char "/" (image_filename prefix t subtype) = true.
Proof.
  intros Hp Hs. unfold image_filename.
  now rewrite !no_char_app, Hp, no_slash_strftime, Hs.
Qed.

Lemma bind_lift_ok {A B : Type} (r : result A) (a : A) (k : A -> M B) (w : world) :
  r = Ok a -> bind (lift r) k w = k a w.
Proof. intros ->. reflexivity. Qed.

Lemma bind_lift_raises {A B : Type} (r : result A) (e : exn) (k : A -> M B) (w : world) :
  r = Raises e -> bind (lift r) k w = (Raise e, w).
Proof. intros ->. reflexivity. Qed.

Lemma save_image_ok (folder prefix subtype payload : string)
    (content : list byte) (w : world) :
  subtype_ok subtype = true ->
  folder_ok folder = true ->
  has_nul prefix = false ->
  no_char "/" prefix = true ->
  (forall rest, startswith (prefix +:+ rest) "/" = false) ->
  (String.length prefix + 17 + String.length subtype <= NAME_MAX)%nat ->
  Base64.b64decode payload = Ok content ->
  let filename := image_filename prefix (clock w (ticks w)) subtype in
  save_image (PStr (data_uri subtype payload)) folder prefix w =
  (Val filename,
   {| files := <[ os_path_join folder filename := content ]> (files w);
      dirs := {[ folder ]} ∪ dirs w;
      db := db w; clock := clock w; utc_clock := utc_clock w;
      ticks := S (ticks w); errlog := errlog w;
      write_lock := write_lock w |}).
Proof.
  intros Hsub Hfolder Hprefix Hpslash Hrel Hfits Hdec filename.
  unfold subtype_ok in Hsub.
  apply andb_true_iff in Hsub as [Hsub Hnul].
  apply andb_true_iff in Hsub as [Hsub Hslash].
  apply andb_true_iff in Hsub as [Hcomma Hsemi].
  apply negb_true_iff in Hnul.
  pose proof Hfolder as Hf. unfold folder_ok in Hf.
  apply andb_true_iff in Hf as [Hf1 Hf2].
  apply negb_true_iff in Hf1. apply negb_true_iff in Hf2.
  assert (Hfn : has_nul filename = false).
  { unfold filename, image_filename.
    rewrite !has_nul_app, Hprefix, has_nul_strftime, Hnul. reflexivity. }
  unfold save_image, data_uri. run.
  replace ("data:image/" +:+ subtype +:+ ";base64," +:+ payload)
    with (("data:image/" +:+ subtype +:+ ";base64") +:+ String "," payload)
    by (rewrite !append_assoc; reflexivity).
  rewrite split_once_left
    by (rewrite !no_char_app, Hcomma; reflexivity).
  run.
  replace ("data:image/" +:+ subtype +:+ ";base64")
    with (("data:image/" +:+ subtype) +:+ String ";" "base64")
    by (rewrite !append_assoc; reflexivity).
  rewrite split_none_left by (rewrite no_char_app, Hsemi; reflexivity).
  run.
  change ("data:image/" +:+ subtype) with ("data:image" +:+ String "/" subtype).
  rewrite split_none_left by reflexivity.
  rewrite (split_nosep "/" None subtype Hslash).
  run.
  fold (image_filename prefix (clock w (ticks w)) subtype). fold filename.
  rewrite bind_makedirs by assumption.
  rewrite bind_open_wb;
    [| rewrite os_path_join_relative; [exact Hfn | apply Hrel | assumption]
     | rewrite basename_join
         by (apply no_slash_image_filename; assumption);
       unfold filename; rewrite image_filename_length; exact Hfits].
  rewrite (bind_lift_ok _ _ _ _ Hdec).
  run. rewrite insert_insert_eq. reflexivity.
Qed.




Lemma startswith_data_uri subtype payload :
  startswith (data_uri subtype payload) "data:image" = true.
Proof. reflexivity. Qed.

Lemma hazard_prefix_relative (rest : string) : startswith ("hazard" +:+ rest) "/" = false.
Proof. reflexivity. Qed.

Lemma resolved_prefix_relative (rest : string) : startswith ("resolved" +:+ rest) "/" = false.
Proof. reflexivity. Qed.

(** A subtype of at most 232 bytes keeps [hazard_<time>.<subtype>] within
    [NAME_MAX], and one of at most 230 bytes [resolved_<time>.<subtype>]. *)
Lemma hazard_name_fits (subtype : string) :
  (String.length subtype <= 232)%nat ->
  (String.length "hazard" + 17 + String.length subtype <= NAME_MAX)%nat.
Proof. unfold NAME_MAX. cbn [String.length]. lia. Qed.

Lemma resolved_name_fits (subtype : string) :
  (String.length subtype <= 230)%nat ->
  (String.length "resolved" + 17 + String.length subtype <= NAME_MAX)%nat.
Proof. unfold NAME_MAX. cbn [String.length]. lia. Qed.



End Evaluation.

(** ** How a computation can end *)

Section Outcomes.

Lemma no_return_ret {A : Type} (a : A) : no_return (ret a).
Proof. intros w. exact I. Qed.

Lemma no_return_raise {A : Type} (e : exn) : no_return (@raise A e).
Proof. intros w. exact I. Qed.

Lemma no_return_lift {A : Type} (r : result A) : no_return (lift r).
Proof. destruct r; [apply no_return_ret | apply no_return_raise]. Qed.

Lemma no_return_bind {A B : Type} (m : M A) (k : A -> M B) :
  no_return m -> (forall a, no_return (k a)) -> no_return (bind m k).
Proof.
  intros Hm Hk w. unfold bind. specialize (Hm w).
  destruct (m w) as [[a|r|e] w']; cbn [fst] in *; [apply Hk | contradiction | exact I].
Qed.

Lemma no_return_now : no_return now.
Proof. intros w. exact I. Qed.

Lemma no_return_makedirs (folder : string) : no_return (makedirs folder).
Proof.
  intros w. unfold makedirs. destruct (has_nul folder); [exact I|].
  destruct (String.eqb folder ""); exact I.
Qed.

Lemma no_return_open_wb (path : string) : no_return (open_wb path).
Proof.
  intros w. unfold open_wb.
  destruct (has_nul path); [exact I|]. destruct (_ <? _)%nat; exact I.
Qed.

Lemma no_return_write (path : string) (data : list byte) : no_return (write path data).
Proof. intros w. exact I. Qed.

Lemma no_return_save_image (image_data : pyval) (folder prefix : string) :
  no_return (save_image image_data folder prefix).
Proof.
  unfold save_image.
  repeat first [ apply no_return_ret | apply no_return_lift | apply no_return_now
               | apply no_return_makedirs | apply no_return_open_wb
               | apply no_return_write
               | apply no_return_bind; [|intros ?] ].
Qed.

Lemma no_return_execute_insert (filename : string) (dv lav lov : pyval)
    (status_p : string) (t : datetime) :
  no_return (execute_insert filename dv lav lov status_p t).
Proof.
  unfold execute_insert.
  repeat (apply no_return_bind; [apply no_return_lift | intros ?]).
  intros w. destruct (write_lock w); [exact I|].
  destruct (insert_report _ _ _ _ _ _ _ _) as [[? ?]|?]; exact I.
Qed.

Lemma ends_with_status_ret (code : Z) (b : body) :
  ends_with_status code (ret {| resp_body := b; resp_status := code |}).
Proof. intros w. reflexivity. Qed.

Lemma ends_with_status_bind {A : Type} (code : Z) (m : M A) (k : A -> M response) :
  no_return m -> (forall a, ends_with_status code (k a)) ->
  ends_with_status code (bind m k).
Proof.
  intros Hm Hk w. unfold bind. specialize (Hm w).
  destruct (m w) as [[a|r|e] w']; cbn [fst] in *; [apply Hk | contradiction | exact I].
Qed.

End Outcomes.

(** ** Submitting a report *)

Section Submission.

Variable config : Config.

Lemma first_missing_Some (d : gmap string pyval) (f : string) :
  In f required_fields -> field_missing d f = true ->
  exists g, first_missing d = Some g /\ In g required_fields /\ field_missing d g = true.
Proof.
  intros Hin Hf. unfold first_missing.
  destruct (List.find (field_missing d) required_fields) as [g|] eqn:E.
  - exists g. apply find_some in E as [? ?]. auto.
  - rewrite (find_none _ _ E f Hin) in Hf. discriminate.
Qed.

(** C4: a submission, a JSON object, in which one of the four required
    fields is absent or empty is answered 400 with the MissingField error,
    which names the first such field in the order the handler checks them
    (so that field itself when it is the only one missing); the world (the
    table, the files, the clock, the log) is exactly what it was. *)
Theorem missing_field_rejected (d : gmap string pyval) (w : world) (f : string) :
  In f required_fields ->
  field_missing d f = true ->
  exists g,
    first_missing d = Some g /\ In g required_fields /\
    field_missing d g = true /\
    report_hazard config (Some (PDict d)) w = (missing_field_response g, w) /\
    ((forall h, In h required_fields -> h <> f -> field_missing d h = false) ->
     g = f).
Proof.
  intros Hin Hf.
  destruct (first_missing_Some d f Hin Hf) as (g & Hg & Hgin & Hgm).
  exists g. repeat split; try assumption.
  - now apply report_hazard_missing.
  - intros Hothers. destruct (string_dec g f) as [E|E]; [exact E|].
    rewrite (Hothers g Hgin E) in Hgm. discriminate.
Qed.

Lemma zero_number_falsy (v : pyval) : is_zero_number v = true -> truthy v = false.
Proof.
  destruct v as [| |z|f| | |]; try discriminate.
  - destruct z; [reflexivity | discriminate | discriminate].
  - destruct f; try discriminate. reflexivity.
Qed.

(** C10: a latitude or longitude that is present and equal to the number
    0 counts as missing, because the check is on truthiness: the
    submission is answered 400 with the MissingField error and nothing
    changes; the error names that coordinate whenever the other three
    fields are present and non-empty. *)
Theorem zero_coordinate_rejected (d : gmap string pyval) (w : world)
    (f : string) (v : pyval) :
  f = "latitude" \/ f = "longitude" ->
  d !! f = Some v ->
  is_zero_number v = true ->
  field_missing d f = true /\
  exists g,
    first_missing d = Some g /\
    report_hazard config (Some (PDict d)) w = (missing_field_response g, w) /\
    ((forall h, In h required_fields -> h <> f -> field_missing d h = false) ->
     g = f).
Proof.
  intros Hf Hv Hz.
  assert (Hm : field_missing d f = true).
  { unfold field_missing. rewrite Hv, (zero_number_falsy v Hz). reflexivity. }
  assert (Hin : In f required_fields).
  { destruct Hf as [-> | ->]; simpl; auto. }
  split; [exact Hm|].
  destruct (first_missing_Some d f Hin Hm) as (g & Hg & Hgin & Hgm).
  exists g. split; [exact Hg|]. split; [now apply report_hazard_missing|].
  intros Hothers. destruct (string_dec g f) as [E|E]; [exact E|].
  rewrite (Hothers g Hgin E) in Hgm. discriminate.
Qed.

(** C2, as the code has it: when the four fields are present and
    non-empty and [before_image] is a string, the submission is answered
    400 with the InvalidImageFormat error, and nothing changes, when the
    string does not begin with [data:image]; when it does begin with
    [data:image] the answer is never that error: it is a success or the
    500 of the catch-all handler. *)
Theorem image_prefix_decides (d : gmap string pyval) (w : world) (s : string) :
  first_missing d = None ->
  d !! "before_image" = Some (PStr s) ->
  (startswith s "data:image" = false ->
   report_hazard config (Some (PDict d)) w = (invalid_image_response, w)) /\
  (startswith s "data:image" = true ->
   resp_status (fst (report_hazard config (Some (PDict d)) w)) = 200 \/
   fst (report_hazard config (Some (PDict d)) w) = internal_error_response).
Proof.
  intros Hfields Himg. split; intros Hs.
  - unfold report_hazard, run_view, try_except.
    unfold bind at 1. cbn [request_json ret].
    unfold bind at 1. rewrite check_fields_dict. fold (first_missing d).
    rewrite Hfields. run. rewrite Himg. run. rewrite Hs. reflexivity.
  - enough (Hres : exists r w', report_hazard config (Some (PDict d)) w = (r, w') /\
                     (resp_status r = 200 \/ r = internal_error_response)).
    { destruct Hres as (r & w' & -> & Hr). exact Hr. }
    unfold report_hazard, run_view, try_except.
    unfold bind at 1. cbn [request_json ret].
    unfold bind at 1. rewrite check_fields_dict. fold (first_missing d).
    rewrite Hfields. run. rewrite Himg. run. rewrite Hs.
    match goal with
    | |- context [ bind (save_image ?i ?f ?p) ?k w ] =>
        assert (H : ends_with_status 200 (bind (save_image i f p) k));
        [| specialize (H w); destruct (bind (save_image i f p) k w) as [[r|r|e] w'] ]
    end.
    + apply ends_with_status_bind; [apply no_return_save_image | intros filename].
      repeat (apply ends_with_status_bind; [apply no_return_lift | intros ?]).
      apply ends_with_status_bind; [apply no_return_now | intros ?].
      apply ends_with_status_bind; [apply no_return_execute_insert | intros ?].
      apply ends_with_status_ret.
    + eexists _, _. split; [reflexivity|]. left. exact H.
    + contradiction.
    + eexists _, _. split; [reflexivity|]. right. reflexivity.
Qed.



End Submission.

(** ** Resolving a report *)

Section Resolution.

Variable config : Config.

(** C5: without the admin flag in the session, [resolve_hazard] answers
    401 Unauthorized whatever the request body and the report id are, and
    the world is exactly what it was: no row changed, no file written. *)
Theorem unauthorized_resolve_rejected (session : gmap string pyval)
    (report_id : Z) (request_body : option pyval) (w : world) :
  admin_session session = false ->
  resolve_hazard config session report_id request_body w =
  (unauthorized_response, w).
Proof.
  unfold admin_session. intros H.
  unfold resolve_hazard, run_view. unfold bind at 1. rewrite H. reflexivity.
Qed.

Lemma execute_update_ok (filename status_p : string) (t : datetime)
    (report_id : Z) (w : world) :
  - 2 ^ 63 <= report_id < 2 ^ 63 ->
  write_lock w = false ->
  execute_update filename status_p t report_id w =
  (Val tt, set_db (update_resolved (db w) filename status_p (isoformat t) report_id) w).
Proof.
  intros H Hlock. unfold execute_update, bind_param.
  replace ((- 2 ^ 63 <=? report_id) && (report_id <? 2 ^ 63)) with true
    by (symmetry; apply andb_true_iff; split; [apply Z.leb_le | apply Z.ltb_lt]; lia).
  cbn [lift bind ret]. rewrite Hlock. reflexivity.
Qed.

Lemma resolve_hazard_ok (session : gmap string pyval) (report_id : Z)
    (d : gmap string pyval) (w : world) (subtype payload : string)
    (content : list byte) :
  admin_session session = true ->
  d !! "after_image" = Some (PStr (data_uri subtype payload)) ->
  subtype_ok subtype = true ->
  Base64.b64decode payload = Ok content ->
  folder_ok (UPLOAD_FOLDER_AFTER config) = true ->
  - 2 ^ 63 <= report_id < 2 ^ 63 ->
  (String.length subtype <= 230)%nat ->
  write_lock w = false ->
  let filename := image_filename "resolved" (clock w (ticks w)) subtype in
  resolve_hazard config session report_id (Some (PDict d)) w =
  (resolve_success_response,
   {| files := <[ os_path_join (UPLOAD_FOLDER_AFTER config) filename := content ]> (files w);
      dirs := {[ UPLOAD_FOLDER_AFTER config ]} ∪ dirs w;
      db := update_resolved (db w) filename "Resolved"
              (isoformat (clock w (S (ticks w)))) report_id;
      clock := clock w; utc_clock := utc_clock w;
      ticks := S (S (ticks w)); errlog := errlog w;
      write_lock := write_lock w |}).
Proof.
  intros Hs Himg Hsub Hdec Hfolder Hid Hfits Hlock filename.
  unfold admin_session in Hs.
  unfold resolve_hazard, run_view. unfold bind at 1. rewrite Hs.
  cbn [negb ret]. unfold try_except. run. rewrite Himg.
  change (truthy (PStr (data_uri subtype payload))) with true.
  cbn [negb]. run. rewrite startswith_data_uri. cbn [negb]. run.
  unfold bind at 1.
  rewrite (save_image_ok _ "resolved" _ _ _ w Hsub Hfolder eq_refl eq_refl
             resolved_prefix_relative (resolved_name_fits _ Hfits) Hdec).
  fold filename. run. unfold bind at 1.
  rewrite execute_update_ok by assumption.
  reflexivity.
Qed.



Lemma update_resolved_frame (dbs : database) (a s t : string) (report_id : Z) :
  Forall2 (fun r r' => same_report_fields r r' /\ (id r <> report_id -> r' = r))
    (hazard_reports dbs) (hazard_reports (update_resolved dbs a s t report_id)).
Proof.
  unfold update_resolved. cbn [hazard_reports].
  induction (hazard_reports dbs) as [|r rows IH]; [constructor|].
  cbn [List.map]. constructor; [|exact IH].
  destruct (Z.eqb_spec (id r) report_id) as [E|E].
  - split; [|intros N; contradiction]. unfold same_report_fields, set_resolved.
    cbn. repeat split.
  - split; [unfold same_report_fields; repeat split | reflexivity].
Qed.

Lemma update_resolved_hit (dbs : database) (a s t : string) (report_id : Z) (r : row) :
  In r (hazard_reports dbs) -> id r = report_id ->
  In (set_resolved a s t r) (hazard_reports (update_resolved dbs a s t report_id)).
Proof.
  intros Hin Hid. unfold update_resolved. cbn [hazard_reports].
  apply in_map_iff. exists r. split; [|exact Hin].
  apply Z.eqb_eq in Hid. rewrite Hid. reflexivity.
Qed.

Lemma update_resolved_target (dbs : database) (a s t : string) (report_id : Z) (r' : row) :
  In r' (hazard_reports (update_resolved dbs a s t report_id)) ->
  id r' = report_id ->
  after_image r' = Some a /\ date_resolved r' = Some t /\ status r' = s.
Proof.
  unfold update_resolved. cbn [hazard_reports]. intros Hin Hid.
  apply in_map_iff in Hin as (r & Hr & _).
  destruct (Z.eqb_spec (id r) report_id) as [E|E]; subst r'.
  - repeat split.
  - contradiction.
Qed.


End Resolution.

(** ** The invariant of the rows *)

Section Invariant.

Variable P : world -> Prop.

Lemma keeps_ret {A : Type} (a : A) : keeps P (ret a).
Proof. intros w H. exact H. Qed.

Lemma keeps_raise {A : Type} (e : exn) : keeps P (@raise A e).
Proof. intros w H. exact H. Qed.

Lemma keeps_return {A : Type} (b : body) (code : Z) : keeps P (@return_ A b code).
Proof. intros w H. exact H. Qed.

Lemma keeps_lift {A : Type} (r : result A) : keeps P (lift r).
Proof. destruct r; [apply keeps_ret | apply keeps_raise]. Qed.

Lemma keeps_bind {A B : Type} (m : M A) (k : A -> M B) :
  keeps P m -> (forall a, keeps P (k a)) -> keeps P (bind m k).
Proof.
  intros Hm Hk w H. unfold bind. specialize (Hm w H).
  destruct (m w) as [[a|r|e] w']; cbn [snd] in *; [apply Hk|..]; exact Hm.
Qed.

Lemma keeps_try {A : Type} (m : M A) (h : exn -> M A) :
  keeps P m -> (forall e, keeps P (h e)) -> keeps P (try_except m h).
Proof.
  intros Hm Hh w H. unfold try_except. specialize (Hm w H).
  destruct (m w) as [[a|r|e] w']; cbn [snd] in *; [..|apply Hh]; exact Hm.
Qed.

Lemma keeps_for_each {A : Type} (l : list A) (f : A -> M unit) :
  (forall a, keeps P (f a)) -> keeps P (for_each l f).
Proof.
  intros Hf. induction l as [|a l IH]; cbn [for_each]; [apply keeps_ret|].
  apply keeps_bind; [apply Hf | intros _; exact IH].
Qed.

Lemma keeps_run_view (m : M response) (w : world) :
  keeps P m -> P w -> P (snd (run_view m w)).
Proof.
  intros Hm H. unfold run_view. specialize (Hm w H).
  destruct (m w) as [[a|r|e] w']; exact Hm.
Qed.

End Invariant.

Section RowInvariant.

Variable config : Config.
Variable generate_password_hash : string -> string.

Lemma keeps_same_db {A : Type} (m : M A) :
  (forall w, db (snd (m w)) = db w) -> keeps rows_ok m.
Proof. intros H w Hw. unfold rows_ok. rewrite H. exact Hw. Qed.

Lemma keeps_now : keeps rows_ok now.
Proof. apply keeps_same_db. reflexivity. Qed.

Lemma keeps_makedirs (folder : string) : keeps rows_ok (makedirs folder).
Proof.
  apply keeps_same_db. intros w. unfold makedirs.
  destruct (has_nul folder); [reflexivity|].
  destruct (String.eqb folder ""); reflexivity.
Qed.

Lemma keeps_open_wb (path : string) : keeps rows_ok (open_wb path).
Proof.
  apply keeps_same_db. intros w. unfold open_wb.
  destruct (has_nul path); [reflexivity|].
  destruct (_ <? _)%nat; reflexivity.
Qed.

Lemma keeps_write (path : string) (data : list byte) : keeps rows_ok (write path data).
Proof. apply keeps_same_db. reflexivity. Qed.

Lemma keeps_logger_error (what : string) (e : exn) : keeps rows_ok (logger_error what e).
Proof. apply keeps_same_db. reflexivity. Qed.

Lemma keeps_fetchall : keeps rows_ok fetchall_reports.
Proof. apply keeps_same_db. reflexivity. Qed.

Lemma keeps_request_json (request_body : option pyval) :
  keeps rows_ok (request_json request_body).
Proof. destruct request_body; [apply keeps_ret | apply keeps_raise]. Qed.

Lemma keeps_send_from_directory (directory filename : string) :
  keeps rows_ok (send_from_directory directory filename).
Proof.
  apply keeps_same_db. intros w. unfold send_from_directory.
  destruct (_ || _); [reflexivity|].
  destruct (files w !! _); reflexivity.
Qed.

Lemma keeps_execute_insert (filename : string) (dv lav lov : pyval)
    (t : datetime) :
  keeps rows_ok (execute_insert filename dv lav lov "Pending" t).
Proof.
  unfold execute_insert.
  repeat (apply keeps_bind; [apply keeps_lift | intros ?]).
  intros w Hw. destruct (write_lock w); [exact Hw|]. unfold insert_report.
  destruct (_ && _); [|exact Hw].
  unfold rows_ok. cbn. apply Forall_app. split; [exact Hw|].
  constructor; [|constructor]. unfold row_ok. cbn. split.
  - intros [[x Hx] _]. discriminate.
  - discriminate.
Qed.

Lemma keeps_execute_update (filename : string) (t : datetime) (report_id : Z) :
  keeps rows_ok (execute_update filename "Resolved" t report_id).
Proof.
  unfold execute_update.
  apply keeps_bind; [apply keeps_lift | intros i].
  intros w Hw. destruct (write_lock w); [exact Hw|]. destruct i; try exact Hw.
  unfold rows_ok, update_resolved in *. cbn [set_db db hazard_reports].
  induction Hw as [|r rows Hr _ IH]; cbn [List.map]; constructor; [|exact IH].
  destruct (id r =? z); [|exact Hr].
  unfold row_ok, set_resolved. cbn. split; [reflexivity|].
  intros _. split; eexists; reflexivity.
Qed.

Ltac keeps_step :=
  first
    [ apply keeps_ret | apply keeps_raise | apply keeps_return
    | apply keeps_lift | apply keeps_now | apply keeps_makedirs
    | apply keeps_open_wb | apply keeps_write | apply keeps_logger_error
    | apply keeps_fetchall | apply keeps_request_json
    | apply keeps_execute_insert | apply keeps_execute_update
    | apply keeps_bind; [|intros ?]
    | apply keeps_try; [|intros ?]
    | apply keeps_for_each; intros ?
    | match goal with
      | |- keeps _ (if ?b then _ else _) => destruct b
      end ].

Lemma keeps_save_image (image_data : pyval) (folder prefix : string) :
  keeps rows_ok (save_image image_data folder prefix).
Proof. unfold save_image. repeat keeps_step. Qed.

Lemma report_hazard_keeps (request_body : option pyval) (w : world) :
  rows_ok w -> rows_ok (snd (report_hazard config request_body w)).
Proof.
  unfold report_hazard. apply keeps_run_view.
  repeat first [apply keeps_save_image | keeps_step].
Qed.

Lemma resolve_hazard_keeps (session : gmap string pyval) (report_id : Z)
    (request_body : option pyval) (w : world) :
  rows_ok w -> rows_ok (snd (resolve_hazard config session report_id request_body w)).
Proof.
  unfold resolve_hazard. apply keeps_run_view.
  repeat first [apply keeps_save_image | keeps_step].
Qed.

Lemma init_db_rows (w : world) :
  hazard_reports (db (init_db generate_password_hash w)) = hazard_reports (db w).
Proof. unfold init_db. destruct (existsb _ _); reflexivity. Qed.

(** C1: in every world the application reaches, each row of
    [hazard_reports] has [after_image] and [date_resolved] both present
    exactly when its status is ['Resolved'].  The invariant holds after
    [init_db] on a database without reports, [report_hazard] and
    [resolve_hazard] preserve it whatever the request is, and so it holds
    in every reachable world. *)
Theorem resolved_invariant :
  (forall w, hazard_reports (db w) = [] ->
             rows_ok (init_db generate_password_hash w)) /\
  (forall request_body w,
     rows_ok w -> rows_ok (snd (report_hazard config request_body w))) /\
  (forall session report_id request_body w,
     rows_ok w ->
     rows_ok (snd (resolve_hazard config session report_id request_body w))) /\
  (forall w, reachable config generate_password_hash w -> rows_ok w).
Proof.
  assert (Hinit : forall w, hazard_reports (db w) = [] ->
                            rows_ok (init_db generate_password_hash w)).
  { intros w H. unfold rows_ok. rewrite init_db_rows, H. constructor. }
  repeat split.
  - exact Hinit.
  - intros. now apply report_hazard_keeps.
  - intros. now apply resolve_hazard_keeps.
  - intros w Hw. induction Hw.
    + now apply Hinit.
    + now apply report_hazard_keeps.
    + now apply resolve_hazard_keeps.
    + exact IHHw.
    + unfold admin_dashboard. apply keeps_run_view; [|exact IHHw].
      repeat keeps_step.
    + unfold uploaded_before_file. apply keeps_run_view; [|exact IHHw].
      apply keeps_send_from_directory.
    + unfold uploaded_after_file. apply keeps_run_view; [|exact IHHw].
      apply keeps_send_from_directory.
    + exact IHHw.
Qed.

End RowInvariant.

(** ** Listing the reports *)

Section Listing.

Lemma string_compare_trans (a b c : string) :
  String.compare a b <> Gt -> String.compare b c <> Gt -> String.compare a c <> Gt.
Proof.
  revert b c. induction a as [|x a IH]; intros [|y b] [|z c]; simpl; try congruence.
  unfold Ascii.compare.
  destruct (N.compare_spec (N_of_ascii x) (N_of_ascii y)) as [E1|L1|G1];
  destruct (N.compare_spec (N_of_ascii y) (N_of_ascii z)) as [E2|L2|G2];
  destruct (N.compare_spec (N_of_ascii x) (N_of_ascii z)) as [E3|L3|G3];
  try congruence; try lia.
  apply IH.
Qed.

Lemma leb_compare (a b : string) : String.leb a b = true <-> String.compare a b <> Gt.
Proof. unfold String.leb. destruct (String.compare a b); split; congruence. Qed.

Lemma leb_trans (a b c : string) :
  String.leb a b = true -> String.leb b c = true -> String.leb a c = true.
Proof. rewrite !leb_compare. apply string_compare_trans. Qed.

Lemma ltb_leb_neq (a b : string) :
  String.leb a b = true -> a <> b -> String.ltb a b = true.
Proof.
  unfold String.leb, String.ltb. intros H N.
  destruct (String.compare a b) eqn:E; try congruence.
  apply String.compare_eq_iff in E. contradiction.
Qed.

Lemma date_desc_trans (a b c : row) : date_desc a b -> date_desc b c -> date_desc a c.
Proof. unfold date_desc. intros H1 H2. eapply leb_trans; eassumption. Qed.

Lemma insert_desc_perm (r : row) (l : list row) : Permutation (insert_desc r l) (r :: l).
Proof.
  induction l as [|h t IH]; cbn [insert_desc]; [reflexivity|].
  destruct (date_ge r h); [reflexivity|].
  rewrite IH. apply perm_swap.
Qed.

Lemma insert_desc_sorted (r : row) (l : list row) :
  StronglySorted date_desc l -> StronglySorted date_desc (insert_desc r l).
Proof.
  induction 1 as [|h t Ht IH Hh]; cbn [insert_desc].
  - constructor; constructor.
  - destruct (date_ge r h) eqn:E.
    + constructor; [constructor; assumption|].
      constructor; [exact E|].
      eapply List.Forall_impl; [|exact Hh].
      intros x Hx. eapply date_desc_trans; [exact E | exact Hx].
    + constructor; [exact IH|].
      eapply Permutation_Forall; [symmetry; apply insert_desc_perm|].
      constructor; [|exact Hh].
      unfold date_desc. unfold date_ge in E.
      destruct (String.leb_total (date_reported r) (date_reported h)) as [L|L];
        [exact L | congruence].
Qed.

Lemma order_by_perm (rows : list row) :
  Permutation (order_by_date_reported_desc rows) rows.
Proof.
  unfold order_by_date_reported_desc.
  induction rows as [|r rows IH]; cbn [fold_right]; [reflexivity|].
  rewrite insert_desc_perm. now constructor.
Qed.

Lemma order_by_sorted (rows : list row) :
  StronglySorted date_desc (order_by_date_reported_desc rows).
Proof.
  unfold order_by_date_reported_desc.
  induction rows as [|r rows IH]; cbn [fold_right]; [constructor|].
  now apply insert_desc_sorted.
Qed.

Lemma strictly_sorted_of_distinct (l : list row) :
  StronglySorted date_desc l ->
  List.NoDup (List.map date_reported l) ->
  StronglySorted date_strictly_desc l.
Proof.
  induction 1 as [|h t Ht IH Hh]; cbn [List.map]; intros Hnd; [constructor|].
  inversion Hnd as [|? ? Hnotin Hnd']; subst.
  constructor; [now apply IH|].
  apply List.Forall_forall. intros x Hx.
  rewrite List.Forall_forall in Hh. specialize (Hh x Hx).
  apply ltb_leb_neq; [exact Hh|].
  intros E. apply Hnotin. rewrite <- E. now apply in_map.
Qed.

(** C8, as the code has it: [/history] and, for a logged-in admin,
    [/admin/dashboard] hand the template every row of [hazard_reports],
    each exactly once, ordered by [date_reported] from the largest to the
    smallest; rows with the same [date_reported] follow one another, and
    the order is strictly descending when no two rows share a
    [date_reported]. *)
Theorem reports_listed_descending (w : world) :
  let reports := select_all_reports (db w) in
  history w = ({| resp_body := Template "history.html" reports;
                  resp_status := 200 |}, w) /\
  (forall session,
     admin_session session = true ->
     admin_dashboard session w =
     ({| resp_body := Template "admin_dashboard.html" reports;
         resp_status := 200 |}, w)) /\
  Permutation reports (hazard_reports (db w)) /\
  StronglySorted date_desc reports /\
  (List.NoDup (List.map date_reported (hazard_reports (db w))) ->
   StronglySorted date_strictly_desc reports).
Proof.
  intros reports. split; [reflexivity|]. split.
  - intros session Hs. unfold admin_session in Hs.
    unfold admin_dashboard, run_view. unfold bind at 1. rewrite Hs. reflexivity.
  - split; [apply order_by_perm|]. split; [apply order_by_sorted|].
    intros Hnd. apply strictly_sorted_of_distinct; [apply order_by_sorted|].
    eapply Permutation.Permutation_NoDup; [|exact Hnd].
    apply Permutation_map. symmetry. apply order_by_perm.
Qed.

End Listing.

(** ** Base64 round trip *)

Section Base64RoundTrip.

Import Base64.
#[local] Open Scope N_scope.

(** The pieces of a byte the encoder cuts it into, and how they go back
    together. *)
Lemma byte_pieces (a : byte) :
  let n := Byte.to_N a in
  N.shiftr n 2 < 64 /\ N.land n 3 < 4 /\
  N.shiftr n 4 < 16 /\ N.land n 15 < 16 /\
  N.shiftr n 6 < 4 /\ N.land n 63 < 64 /\
  to_byte (N.lor (N.shiftl (N.shiftr n 2) 2) (N.land n 3)) = a /\
  to_byte (N.lor (N.shiftl (N.shiftr n 4) 4) (N.land n 15)) = a /\
  to_byte (N.lor (N.shiftl (N.shiftr n 6) 6) (N.land n 63)) = a.
Proof. destruct a; vm_compute; repeat split; reflexivity. Qed.

Lemma below_4 (x : N) : x < 4 -> x = 0 \/ x = 1 \/ x = 2 \/ x = 3.
Proof. lia. Qed.

Lemma below_16 (x : N) :
  x < 16 ->
  x = 0 \/ x = 1 \/ x = 2 \/ x = 3 \/ x = 4 \/ x = 5 \/ x = 6 \/ x = 7 \/
  x = 8 \/ x = 9 \/ x = 10 \/ x = 11 \/ x = 12 \/ x = 13 \/ x = 14 \/ x = 15.
Proof. lia. Qed.

Ltac enum4 H := apply below_4 in H; repeat (destruct H as [H|H]); subst.
Ltac enum16 H := apply below_16 in H; repeat (destruct H as [H|H]); subst.

(** The sextet made of two bits above four bits. *)
Lemma sextet_2_4 (x y : N) :
  x < 4 -> y < 16 ->
  let s := N.lor (N.shiftl x 4) y in
  s < 64 /\ N.shiftr s 4 = x /\ N.land s 15 = y.
Proof. intros Hx Hy. enum4 Hx; enum16 Hy; vm_compute; repeat split; reflexivity. Qed.

(** The sextet made of four bits above two bits. *)
Lemma sextet_4_2 (u v : N) :
  u < 16 -> v < 4 ->
  let s := N.lor (N.shiftl u 2) v in
  s < 64 /\ N.shiftr s 2 = u /\ N.land s 3 = v.
Proof. intros Hu Hv. enum16 Hu; enum4 Hv; vm_compute; repeat split; reflexivity. Qed.

Lemma table_round_trip (n : N) :
  n < 64 ->
  table_a2b_base64 (table_b2a_base64 n) = Some n /\
  Ascii.eqb (table_b2a_base64 n) "=" = false /\
  (N_of_ascii (table_b2a_base64 n) <? 128) = true.
Proof.
  intros H. rewrite <- (N2Nat.id n) in *.
  assert (Hk : (N.to_nat n < 64)%nat) by lia.
  clear H. generalize dependent (N.to_nat n). clear n. intros k Hk.
  do 64 (destruct k as [|k]; [vm_compute; repeat split; reflexivity|]).
  lia.
Qed.


(** One character of the alphabet moves the decoder one place in the quad. *)
Lemma a2b_loop_sextet (n : N) (rest : string) (quad_pos : nat)
    (leftchar pads : N) (out : list byte) :
  n < 64 ->
  a2b_loop (String (table_b2a_base64 n) rest) quad_pos leftchar pads out =
  match quad_pos with
  | 0%nat => a2b_loop rest 1 n 0 out
  | 1%nat =>
      a2b_loop rest 2 (N.land n 15) 0
        (out ++ [to_byte (N.lor (N.shiftl leftchar 2) (N.shiftr n 4))])
  | 2%nat =>
      a2b_loop rest 3 (N.land n 3) 0
        (out ++ [to_byte (N.lor (N.shiftl leftchar 4) (N.shiftr n 2))])
  | _ =>
      a2b_loop rest 0 0 0 (out ++ [to_byte (N.lor (N.shiftl leftchar 6) n)])
  end.
Proof.
  intros H. destruct (table_round_trip n H) as (Ht & He & _).
  cbn [a2b_loop]. rewrite He, Ht. reflexivity.
Qed.

Lemma list_ind3 (P : list byte -> Prop) :
  P [] -> (forall a, P [a]) -> (forall a b, P [a; b]) ->
  (forall a b c l, P l -> P (a :: b :: c :: l)) ->
  forall l, P l.
Proof.
  intros H0 H1 H2 H3 l.
  enough (P l /\ (forall a, P (a :: l)) /\ (forall a b, P (a :: b :: l))) by tauto.
  induction l as [|x l (IH0 & IH1 & IH2)]; [auto|].
  split; [apply IH1|]. split; [intros a; apply IH2|].
  intros a b. apply H3, IH0.
Qed.

Lemma a2b_loop_b64encode (bs : list byte) (out : list byte) :
  a2b_loop (b64encode bs) 0 0 0 out = Ok (out ++ bs).
Proof.
  revert out. induction bs as [|a|a b|a b c l IH] using list_ind3; intros out.
  - cbn. now rewrite app_nil_r.
  - cbn [b64encode]. cbv zeta.
    destruct (byte_pieces a) as (Ha1 & Ha2 & _ & _ & _ & _ & Ea & _ & _).
    cbv zeta in *.
    destruct (sextet_2_4 _ 0 Ha2 eq_refl) as (S2 & S2hi & S2lo).
    cbv zeta in *. rewrite N.lor_0_r in *.
    rewrite (a2b_loop_sextet _ _ 0 _ _ _ Ha1).
    rewrite (a2b_loop_sextet _ _ 1 _ _ _ S2).
    rewrite S2hi, Ea. reflexivity.
  - cbn [b64encode]. cbv zeta.
    destruct (byte_pieces a) as (Ha1 & Ha2 & _ & _ & _ & _ & Ea & _ & _).
    destruct (byte_pieces b) as (_ & _ & Hb1 & Hb2 & _ & _ & _ & Eb & _).
    cbv zeta in *.
    destruct (sextet_2_4 _ _ Ha2 Hb1) as (S2 & S2hi & S2lo).
    destruct (sextet_4_2 _ 0 Hb2 eq_refl) as (S3 & S3hi & S3lo).
    cbv zeta in *. rewrite N.lor_0_r in *.
    rewrite (a2b_loop_sextet _ _ 0 _ _ _ Ha1).
    rewrite (a2b_loop_sextet _ _ 1 _ _ _ S2).
    rewrite (a2b_loop_sextet _ _ 2 _ _ _ S3).
    rewrite S2hi, S2lo, S3hi, Ea, Eb.
    cbn. rewrite <- app_assoc. reflexivity.
  - cbn [b64encode]. cbv zeta.
    destruct (byte_pieces a) as (Ha1 & Ha2 & _ & _ & _ & _ & Ea & _ & _).
    destruct (byte_pieces b) as (_ & _ & Hb1 & Hb2 & _ & _ & _ & Eb & _).
    destruct (byte_pieces c) as (_ & _ & _ & _ & Hc1 & Hc2 & _ & _ & Ec).
    cbv zeta in *.
    destruct (sextet_2_4 _ _ Ha2 Hb1) as (S2 & S2hi & S2lo).
    destruct (sextet_4_2 _ _ Hb2 Hc1) as (S3 & S3hi & S3lo).
    cbv zeta in *.
    rewrite (a2b_loop_sextet _ _ 0 _ _ _ Ha1).
    rewrite (a2b_loop_sextet _ _ 1 _ _ _ S2).
    rewrite (a2b_loop_sextet _ _ 2 _ _ _ S3).
    rewrite (a2b_loop_sextet _ _ 3 _ _ _ Hc2).
    rewrite S2hi, S2lo, S3hi, S3lo, Ea, Eb, Ec.
    rewrite IH, <- !app_assoc. reflexivity.
Qed.

Lemma is_ascii_b64encode (bs : list byte) : is_ascii (b64encode bs) = true.
Proof.
  induction bs as [|a|a b|a b c l IH] using list_ind3.
  - reflexivity.
  - cbn [b64encode]. cbv zeta.
    destruct (byte_pieces a) as (Ha1 & Ha2 & _).
    cbv zeta in *.
    destruct (sextet_2_4 _ 0 Ha2 eq_refl) as (S2 & _).
    cbv zeta in *. rewrite N.lor_0_r in *.
    destruct (table_round_trip _ Ha1) as (_ & _ & A1).
    destruct (table_round_trip _ S2) as (_ & _ & A2).
    cbn [is_ascii]. rewrite A1, A2. reflexivity.
  - cbn [b64encode]. cbv zeta.
    destruct (byte_pieces a) as (Ha1 & Ha2 & _).
    destruct (byte_pieces b) as (_ & _ & Hb1 & Hb2 & _).
    cbv zeta in *.
    destruct (sextet_2_4 _ _ Ha2 Hb1) as (S2 & _).
    destruct (sextet_4_2 _ 0 Hb2 eq_refl) as (S3 & _).
    cbv zeta in *. rewrite N.lor_0_r in *.
    destruct (table_round_trip _ Ha1) as (_ & _ & A1).
    destruct (table_round_trip _ S2) as (_ & _ & A2).
    destruct (table_round_trip _ S3) as (_ & _ & A3).
    cbn [is_ascii]. rewrite A1, A2, A3. reflexivity.
  - cbn [b64encode]. cbv zeta.
    destruct (byte_pieces a) as (Ha1 & Ha2 & _).
    destruct (byte_pieces b) as (_ & _ & Hb1 & Hb2 & _).
    destruct (byte_pieces c) as (_ & _ & _ & _ & Hc1 & Hc2 & _).
    cbv zeta in *.
    destruct (sextet_2_4 _ _ Ha2 Hb1) as (S2 & _).
    destruct (sextet_4_2 _ _ Hb2 Hc1) as (S3 & _).
    cbv zeta in *.
    destruct (table_round_trip _ Ha1) as (_ & _ & A1).
    destruct (table_round_trip _ S2) as (_ & _ & A2).
    destruct (table_round_trip _ S3) as (_ & _ & A3).
    destruct (table_round_trip _ Hc2) as (_ & _ & A4).
    cbn [is_ascii]. rewrite A1, A2, A3, A4, IH. reflexivity.
Qed.

(** Decoding what the standard encoding produced gives the bytes back. *)
Lemma b64decode_b64encode (bs : list byte) : b64decode (b64encode bs) = Ok bs.
Proof.
  unfold b64decode, a2b_base64.
  rewrite is_ascii_b64encode, a2b_loop_b64encode. reflexivity.
Qed.

End Base64RoundTrip.

(** ** Storing an image and reading it back *)

Section ImageRoundTrip.

Variable config : Config.

Lemma hazard_filename_servable (t : datetime) (subtype : string) :
  no_char "/" subtype = true ->
  let filename := image_filename "hazard" t subtype in
  String.eqb filename "" || str_contains filename "/" || String.eqb filename ".."
  = false.
Proof.
  intros Hsub filename.
  assert (Hslash : str_contains filename "/" = false).
  { rewrite str_contains_char. apply negb_false_iff.
    unfold filename, image_filename.
    rewrite !no_char_app, no_slash_strftime, Hsub. reflexivity. }
  rewrite Hslash. reflexivity.
Qed.

Lemma send_stored_file (folder : string) (t : datetime) (subtype : string)
    (content : list byte) (w : world) :
  folder_ok folder = true ->
  no_char "/" subtype = true ->
  let filename := image_filename "hazard" t subtype in
  files w !! os_path_join folder filename = Some content ->
  send_from_directory folder filename w =
  (Val {| resp_body := FileBody content; resp_status := 200 |}, w).
Proof.
  intros Hfolder Hsub filename Hfile. unfold send_from_directory.
  fold filename. unfold filename at 1 2 3.
  rewrite (hazard_filename_servable t subtype Hsub).
  apply andb_true_iff in Hfolder as [_ Hne]. apply negb_true_iff in Hne.
  rewrite Hne. fold filename. rewrite Hfile. reflexivity.
Qed.

Lemma execute_insert_cases (filename : string) (dv lav lov : pyval)
    (status_p : string) (t : datetime) (w : world) :
  (exists e w',
     execute_insert filename dv lav lov status_p t w = (Raise e, w') /\
     files w' = files w /\ db w' = db w) \/
  (exists r,
     before_image r = filename /\ id r = next_rowid (db w) /\
     execute_insert filename dv lav lov status_p t w =
     (Val (next_rowid (db w)),
      set_db {| hazard_reports := hazard_reports (db w) ++ [r];
                hazard_reports_seq := next_rowid (db w);
                admin := admin (db w) |} w)).
Proof.
  unfold execute_insert.
  destruct (bind_param dv) as [ds|e] eqn:Bd;
    [|left; exists e, w; repeat split].
  destruct (bind_param lav) as [las|e] eqn:Bla;
    [|left; exists e, w; repeat split].
  destruct (bind_param lov) as [los|e] eqn:Blo;
    [|left; exists e, w; repeat split].
  cbn [lift bind ret].
  destruct (write_lock w); [left; eexists _, _; repeat split|].
  unfold insert_report.
  destruct (not_null ds && not_null las && not_null los).
  - right. eexists. split; [|split]; [| |reflexivity]; reflexivity.
  - left. eexists _, _. repeat split.
Qed.

Lemma report_success_response_inj (a b : Z) :
  report_success_response a = report_success_response b -> a = b.
Proof.
  intros H.
  apply (f_equal (fun resp => match resp_body resp with
                              | Json (PDict m) => m !! "report_id"
                              | _ => None
                              end)) in H.
  vm_compute in H. congruence.
Qed.

Lemma report_hazard_stores_image (d : gmap string pyval) (w : world)
    (subtype payload : string) (content : list byte) :
  first_missing d = None ->
  d !! "before_image" = Some (PStr (data_uri subtype payload)) ->
  subtype_ok subtype = true ->
  Base64.b64decode payload = Ok content ->
  folder_ok (UPLOAD_FOLDER_BEFORE config) = true ->
  (String.length subtype <= 232)%nat ->
  let filename := image_filename "hazard" (clock w (ticks w)) subtype in
  exists resp w',
    report_hazard config (Some (PDict d)) w = (resp, w') /\
    files w' =
      <[ os_path_join (UPLOAD_FOLDER_BEFORE config) filename := content ]> (files w) /\
    (resp = internal_error_response \/
     exists r, resp = report_success_response (id r) /\
               In r (hazard_reports (db w')) /\
               before_image r = filename).
Proof.
  intros Hfields Himg Hsub Hdec Hfolder Hfits filename.
  destruct (first_missing_None d Hfields "description") as (dv & Ed & _);
    [cbn; auto|].
  destruct (first_missing_None d Hfields "latitude") as (lav & Ela & _);
    [cbn; auto|].
  destruct (first_missing_None d Hfields "longitude") as (lov & Elo & _);
    [cbn; auto 6|].
  unfold report_hazard, run_view, try_except.
  unfold bind at 1. cbn [request_json ret].
  unfold bind at 1. rewrite check_fields_dict. fold (first_missing d).
  rewrite Hfields. run. rewrite Himg. run. rewrite startswith_data_uri.
  unfold bind at 1.
  rewrite (save_image_ok _ "hazard" _ _ _ w Hsub Hfolder eq_refl eq_refl
             hazard_prefix_relative (hazard_name_fits _ Hfits) Hdec).
  fold filename. rewrite Ed, Ela, Elo. run. unfold bind at 1.
  match goal with
  | |- context [ execute_insert ?f ?a ?b ?c ?s ?t ?w0 ] =>
      destruct (execute_insert_cases f a b c s t w0)
        as [(e & w1 & -> & Hf1 & _) | (r & Hb & Hi & ->)]
  end.
  - eexists _, _. split; [reflexivity|]. cbn. split; [exact Hf1|].
    left. reflexivity.
  - eexists _, _. split; [reflexivity|]. cbn. split; [reflexivity|].
    right. exists r. rewrite Hi. cbn. split; [reflexivity|].
    split; [apply in_or_app; right; left; reflexivity | exact Hb].
Qed.

(** C9: when the required fields are there, the upload directory is a
    usable path and the image is [data:image/png;base64,] followed by a
    payload that decodes to [content], the file the handler writes holds
    exactly [content], and
    [/uploads/before/<name>] for the name the handler gave it (the name a
    successful submission stores in its row) answers with exactly
    [content].  When the payload is the standard Base64 encoding of some
    bytes, [content] is those bytes. *)
Theorem image_round_trip (d : gmap string pyval) (w : world)
    (payload : string) (content : list byte) :
  first_missing d = None ->
  d !! "before_image" = Some (PStr ("data:image/png;base64," +:+ payload)) ->
  Base64.b64decode payload = Ok content ->
  folder_ok (UPLOAD_FOLDER_BEFORE config) = true ->
  let filename := image_filename "hazard" (clock w (ticks w)) "png" in
  let result := report_hazard config (Some (PDict d)) w in
  files (snd result) !! os_path_join (UPLOAD_FOLDER_BEFORE config) filename
    = Some content /\
  uploaded_before_file config filename (snd result) =
    ({| resp_body := FileBody content; resp_status := 200 |}, snd result) /\
  (forall report_id,
     fst result = report_success_response report_id ->
     exists r, In r (hazard_reports (db (snd result))) /\
               id r = report_id /\ before_image r = filename) /\
  (forall original, payload = Base64.b64encode original -> content = original).
Proof.
  intros Hfields Himg Hdec Hfolder filename result.
  destruct (report_hazard_stores_image d w "png" payload content
              Hfields Himg eq_refl Hdec Hfolder ltac:(cbn; lia))
    as (resp & w' & Hrun & Hfiles & Hresp).
  fold filename in Hfiles, Hresp. unfold result. rewrite Hrun. cbn [fst snd].
  assert (Hfile : files w'
                  !! os_path_join (UPLOAD_FOLDER_BEFORE config) filename
                  = Some content).
  { rewrite Hfiles. apply lookup_insert_eq. }
  split; [exact Hfile|]. split; [|split].
  - unfold uploaded_before_file, run_view. unfold filename in *.
    rewrite (send_stored_file _ _ "png" content); auto.
  - intros report_id Hok. destruct Hresp as [Herr | (r & Hr & Hin & Hb)].
    + rewrite Herr in Hok. apply (f_equal resp_status) in Hok. discriminate.
    + exists r. split; [exact Hin|]. split; [|exact Hb].
      rewrite Hr in Hok. now apply report_success_response_inj.
  - intros original ->. rewrite b64decode_b64encode in Hdec. congruence.
Qed.

End ImageRoundTrip.

(** ** The scenario of the specification, run *)

Section Examples.

(** The scenario of section 8 of the specification: the report is
    accepted with id 1 and stored as Pending. *)
Example scenario_report :
  fst (report_hazard example_config (Some (PDict example_submission)) example_world)
    = report_success_response 1 /\
  hazard_reports (db example_world_1) =
    [{| id := 1;
        before_image := "hazard_20240307_090500.jpeg";
        after_image := None;
        description := SText "pothole";
        latitude := SReal (S754_finite false 7262054399134925 (-49));
        longitude := SReal (S754_finite false 5460614548186726 (-46));
        status := "Pending";
        date_reported := "2024-03-07 09:05:00";
        date_resolved := None;
        created_at := "2024-03-07 09:05:00" |}] /\
  files example_world_1 !! "static/uploads/before/hazard_20240307_090500.jpeg"
    = Some ["A"%byte].
Proof. repeat split; vm_compute; reflexivity. Qed.

(** Then the administrator resolves report 1. *)
Example scenario_resolve :
  let result := resolve_hazard example_config example_admin_session 1
                  (Some (PDict example_resolution)) example_world_1 in
  fst result = resolve_success_response /\
  List.map (fun r => (id r, status r, after_image r, date_resolved r))
      (hazard_reports (db (snd result)))
    = [(1, "Resolved", Some "resolved_20240307_090500.png",
        Some "2024-03-07 09:05:00")] /\
  files (snd result) !! "static/uploads/after/resolved_20240307_090500.png"
    = Some ["B"%byte].
Proof. repeat split; vm_compute; reflexivity. Qed.

(** A data URI without the slash before the subtype starts with
    [data:image], fails at [split('/')[1]] and gets the 500; the failure
    is logged and nothing is stored. *)
Example no_slash_is_internal_error :
  let d := <[ "before_image" := PStr "data:imagepng;base64,QQ==" ]> example_submission in
  let result := report_hazard example_config (Some (PDict d)) example_world in
  fst result = internal_error_response /\
  errlog (snd result) = [("Error reporting hazard", IndexError)] /\
  files (snd result) = files example_world /\
  db (snd result) = db example_world.
Proof. repeat split; vm_compute; reflexivity. Qed.

(** A payload that is not Base64 leaves the file created by [open] empty. *)
Example bad_payload_leaves_empty_file :
  let d := <[ "before_image" := PStr "data:image/png;base64,Q" ]> example_submission in
  let result := report_hazard example_config (Some (PDict d)) example_world in
  fst result = internal_error_response /\
  errlog (snd result) = [("Error reporting hazard", BinasciiError)] /\
  files (snd result) !! "static/uploads/before/hazard_20240307_090500.png" = Some [] /\
  db (snd result) = db example_world.
Proof. repeat split; vm_compute; reflexivity. Qed.

(** Bodies that are not JSON objects: [null] is not a container, an empty
    list contains no field. *)
Example null_body_is_internal_error :
  fst (report_hazard example_config (Some PNone) example_world)
    = internal_error_response.
Proof. vm_compute. reflexivity. Qed.

Example list_body_misses_before_image :
  fst (report_hazard example_config (Some (PList [])) example_world)
    = missing_field_response "before_image".
Proof. vm_compute. reflexivity. Qed.

(** A description that is a list passes the validation and fails at the
    insert, after the file was written. *)
Example list_description_is_internal_error :
  let d := <[ "description" := PList [PStr "pothole"] ]> example_submission in
  let result := report_hazard example_config (Some (PDict d)) example_world in
  fst result = internal_error_response /\
  errlog (snd result) = [("Error reporting hazard", SqliteBindError)] /\
  files (snd result) !! "static/uploads/before/hazard_20240307_090500.jpeg"
    = Some ["A"%byte] /\
  db (snd result) = db example_world.
Proof. repeat split; vm_compute; reflexivity. Qed.

(** A subtype of 233 bytes makes a file name of 256: [open] refuses it,
    the answer is the 500 and nothing is stored.  With 232 bytes the
    report is accepted. *)
Example long_subtype_is_internal_error :
  let d n := <[ "before_image" := PStr (data_uri (zeros n) "QQ==") ]> example_submission in
  let result := report_hazard example_config (Some (PDict (d 233%nat))) example_world in
  fst result = internal_error_response /\
  errlog (snd result) = [("Error reporting hazard", OSError)] /\
  files (snd result) = files example_world /\
  db (snd result) = db example_world /\
  fst (report_hazard example_config (Some (PDict (d 232%nat))) example_world)
    = report_success_response 1.
Proof. repeat split; vm_compute; reflexivity. Qed.

(** A latitude NaN is bound as NULL and fails the INSERT; the connection
    stays behind with the write lock, the next submission, a valid one,
    finds the database locked, and is accepted once the connection has
    been collected. *)
Example failed_insert_locks_the_database :
  let d := <[ "latitude" := example_nan ]> example_submission in
  let w1 := snd (report_hazard example_config (Some (PDict d)) example_world) in
  let w2 := snd (report_hazard example_config (Some (PDict example_submission)) w1) in
  fst (report_hazard example_config (Some (PDict d)) example_world)
    = internal_error_response /\
  write_lock w1 = true /\
  fst (report_hazard example_config (Some (PDict example_submission)) w1)
    = internal_error_response /\
  errlog w2 = [("Error reporting hazard", IntegrityError);
               ("Error reporting hazard", OperationalError)] /\
  db w2 = db example_world /\
  fst (report_hazard example_config (Some (PDict example_submission))
         (set_write_lock false w2))
    = report_success_response 1.
Proof. repeat split; vm_compute; reflexivity. Qed.

Example b64decode_examples :
  Base64.b64decode "QQ==" = Ok ["A"%byte] /\
  Base64.b64decode "aGVsbG8=" = Ok ["h"; "e"; "l"; "l"; "o"]%byte /\
  Base64.b64decode "aG Vs\bG8=" = Ok ["h"; "e"; "l"; "l"; "o"]%byte /\
  Base64.b64decode "aGVsbG8" = Raises BinasciiError /\
  Base64.b64encode ["h"; "e"; "l"; "l"; "o"]%byte = "aGVsbG8=".
Proof. repeat split; vm_compute; reflexivity. Qed.

Example split_examples :
  split "," (Some 1%nat) "data:image/png;base64,QQ,==" = ["data:image/png;base64"; "QQ,=="] /\
  split "," (Some 1%nat) "data:image" = ["data:image"] /\
  split "/" None "data:image/svg+xml" = ["data:image"; "svg+xml"] /\
  split "/" None "/a//" = [""; "a"; ""; ""].
Proof. repeat split; reflexivity. Qed.

Lemma example_world_1_reachable : reachable example_config example_hash example_world_1.
Proof. unfold example_world_1. apply reach_report, reach_init. reflexivity. Qed.

Lemma example_world_2_reachable : reachable example_config example_hash example_world_2.
Proof. unfold example_world_2. apply reach_report, example_world_1_reachable. Qed.

Lemma data_uri_contains_marker (subtype payload : string) :
  str_contains (data_uri subtype payload) ";base64," = true.
Proof.
  unfold data_uri.
  replace ("data:image/" +:+ subtype +:+ ";base64," +:+ payload)
    with (("data:image/" +:+ subtype) +:+ ";base64," +:+ payload)
    by (rewrite !append_assoc; reflexivity).
  apply str_contains_app.
Qed.

(** C2 fails as stated: [data:image/png,QQ==] has no [;base64] marker, so
    it does not match the full pattern, and yet the submission carrying it
    is accepted: the answer is the success with report id 1. *)
Lemma full_pattern_not_enforced :
  let d := <[ "before_image" := PStr "data:image/png,QQ==" ]> example_submission in
  ~ matches_data_uri_pattern "data:image/png,QQ==" /\
  d !! "before_image" = Some (PStr "data:image/png,QQ==") /\
  fst (report_hazard example_config (Some (PDict d)) example_world)
    = report_success_response 1 /\
  fst (report_hazard example_config (Some (PDict d)) example_world)
    <> invalid_image_response.
Proof.
  intros d. split.
  - intros (subtype & payload & E).
    pose proof (data_uri_contains_marker subtype payload) as H.
    rewrite <- E in H. vm_compute in H. discriminate.
  - split; [reflexivity|].
    assert (E : fst (report_hazard example_config (Some (PDict d)) example_world)
                = report_success_response 1) by (vm_compute; reflexivity).
    split; [exact E|]. rewrite E. intros H.
    apply (f_equal resp_status) in H. discriminate.
Qed.

(** C8 fails as stated: two reports made while the clock shows the same
    time carry the same [date_reported], and the list [/history] shows is
    then not strictly descending. *)
Lemma equal_dates_not_strictly_descending :
  reachable example_config example_hash example_world_2 /\
  fst (history example_world_2) =
    {| resp_body := Template "history.html" (select_all_reports (db example_world_2));
       resp_status := 200 |} /\
  length (select_all_reports (db example_world_2)) = 2%nat /\
  ~ Sorted date_strictly_desc (select_all_reports (db example_world_2)).
Proof.
  split; [apply example_world_2_reachable|]. split; [reflexivity|].
  split; [vm_compute; reflexivity|].
  intros H. vm_compute in H.
  inversion H as [|r1 l1 _ Hd]; subst.
  inversion Hd as [|r2 l2 Hlt]; subst.
  vm_compute in Hlt. discriminate.
Qed.





(** The invariant in the world reached by a report and its resolution. *)
Lemma resolved_invariant_witness :
  rows_ok (snd (resolve_hazard example_config example_admin_session 1
                  (Some (PDict example_resolution)) example_world_1)).
Proof.
  apply (proj2 (proj2 (proj2 (resolved_invariant example_config example_hash)))).
  apply reach_resolve. unfold example_world_1.
  apply reach_report, reach_init. reflexivity.
Defined.

(** A [before_image] without the [data:] prefix. *)
Lemma image_prefix_decides_witness :
  let d := <[ "before_image" := PStr "image/png;base64,QQ==" ]> example_submission in
  first_missing d = None /\
  d !! "before_image" = Some (PStr "image/png;base64,QQ==") /\
  startswith "image/png;base64,QQ==" "data:image" = false /\
  report_hazard example_config (Some (PDict d)) example_world
    = (invalid_image_response, example_world).
Proof.
  intros d. split; [reflexivity|]. split; [reflexivity|]. split; [reflexivity|].
  apply (proj1 (image_prefix_decides example_config d example_world
                  "image/png;base64,QQ==" eq_refl eq_refl)).
  reflexivity.
Defined.


(** The scenario's submission without its latitude. *)
Lemma missing_field_rejected_witness :
  let d := delete "latitude" example_submission in
  In "latitude" required_fields /\
  field_missing d "latitude" = true /\
  report_hazard example_config (Some (PDict d)) example_world
    = (missing_field_response "latitude", example_world).
Proof.
  intros d.
  assert (Hin : In "latitude" required_fields) by (cbn; auto).
  assert (Hm : field_missing d "latitude" = true) by reflexivity.
  split; [exact Hin|]. split; [exact Hm|].
  destruct (missing_field_rejected example_config d example_world "latitude" Hin Hm)
    as (g & _ & _ & _ & Hrun & Hg).
  rewrite Hrun, Hg; [reflexivity|].
  intros h Hh Hne. cbn in Hh.
  destruct Hh as [<- | [<- | [<- | [<- | []]]]];
    [reflexivity | reflexivity | contradiction | reflexivity].
Defined.

(** A resolve request without any session. *)
Lemma unauthorized_resolve_rejected_witness :
  admin_session ∅ = false /\
  resolve_hazard example_config ∅ 1 (Some (PDict example_resolution)) example_world_1
    = (unauthorized_response, example_world_1).
Proof.
  split; [reflexivity|].
  apply (unauthorized_resolve_rejected example_config ∅ 1
           (Some (PDict example_resolution)) example_world_1).
  reflexivity.
Defined.


(** The dashboard of a logged-in administrator after two reports. *)
Lemma reports_listed_descending_witness :
  admin_session example_admin_session = true /\
  admin_dashboard example_admin_session example_world_2 =
  ({| resp_body := Template "admin_dashboard.html"
                     (select_all_reports (db example_world_2));
      resp_status := 200 |}, example_world_2).
Proof.
  split; [reflexivity|].
  apply (proj1 (proj2 (reports_listed_descending example_world_2))).
  reflexivity.
Defined.

(** The five bytes of "hello" sent as a PNG and read back. *)
Lemma image_round_trip_witness :
  let d := <[ "before_image" := PStr "data:image/png;base64,aGVsbG8=" ]>
             example_submission in
  let result := report_hazard example_config (Some (PDict d)) example_world in
  fst result = report_success_response 1 /\
  uploaded_before_file example_config "hazard_20240307_090500.png" (snd result) =
  ({| resp_body := FileBody ["h"; "e"; "l"; "l"; "o"]%byte; resp_status := 200 |},
   snd result).
Proof.
  intros d result. split; [vm_compute; reflexivity|].
  apply (proj1 (proj2 (image_round_trip example_config d example_world "aGVsbG8="
                         ["h"; "e"; "l"; "l"; "o"]%byte
                         eq_refl eq_refl eq_refl eq_refl))).
Defined.

(** The scenario's submission made from latitude 0. *)
Lemma zero_coordinate_rejected_witness :
  let d := <[ "latitude" := PInt 0 ]> example_submission in
  d !! "latitude" = Some (PInt 0) /\
  is_zero_number (PInt 0) = true /\
  report_hazard example_config (Some (PDict d)) example_world
    = (missing_field_response "latitude", example_world).
Proof.
  intros d. split; [reflexivity|]. split; [reflexivity|].
  destruct (zero_coordinate_rejected example_config d example_world "latitude"
              (PInt 0) (or_introl eq_refl) eq_refl eq_refl)
    as (_ & g & _ & Hrun & Hg).
  rewrite Hrun, Hg; [reflexivity|].
  intros h Hin Hne. cbn in Hin.
  destruct Hin as [<- | [<- | [<- | [<- | []]]]];
    [reflexivity | reflexivity | contradiction | reflexivity].
Defined.

End Examples.

(** * Every request, and sequences of requests

    The handlers have been followed above on the requests they are meant
    for.  What follows holds for every request: the ways a handler can
    end, what it can do to the table and to the files, and what that gives
    over any sequence of requests. *)
(** ** Hoare triples for the views *)

Section Triples.

Context {A : Type}.

Lemma triple_ret (P : world -> Prop) (a : A) (Q : A -> world -> Prop) R X :
  (forall w, P w -> Q a w) -> triple P (ret a) Q R X.
Proof. intros H w Hw. now apply H. Qed.

Lemma triple_raise (P : world -> Prop) (e : exn) (Q : A -> world -> Prop) R X :
  (forall w, P w -> X w) -> triple P (raise e) Q R X.
Proof. intros H w Hw. now apply H. Qed.

Lemma triple_return (P : world -> Prop) (b : body) (code : Z)
    (Q : A -> world -> Prop) (R : response -> world -> Prop) X :
  (forall w, P w -> R {| resp_body := b; resp_status := code |} w) ->
  triple P (return_ b code) Q R X.
Proof. intros H w Hw. now apply H. Qed.

Lemma triple_lift (P : world -> Prop) (r : result A) (Q : A -> world -> Prop) R X :
  (forall a w, r = Ok a -> P w -> Q a w) ->
  (forall w, P w -> X w) ->
  triple P (lift r) Q R X.
Proof.
  intros HQ HX. destruct r as [a|e]; [apply triple_ret | apply triple_raise]; auto.
Qed.

Lemma triple_bind {B : Type} (P : world -> Prop) (m : M A) (k : A -> M B)
    (Q1 : A -> world -> Prop) (Q : B -> world -> Prop) R X :
  triple P m Q1 R X ->
  (forall a, triple (Q1 a) (k a) Q R X) ->
  triple P (bind m k) Q R X.
Proof.
  intros Hm Hk w Hw. unfold bind. specialize (Hm w Hw).
  destruct (m w) as [[a|r|e] w']; [now apply Hk | exact Hm | exact Hm].
Qed.

Lemma triple_weaken (P P' : world -> Prop) (m : M A)
    (Q Q' : A -> world -> Prop) (R R' : response -> world -> Prop)
    (X X' : world -> Prop) :
  triple P m Q R X ->
  (forall w, P' w -> P w) ->
  (forall a w, Q a w -> Q' a w) ->
  (forall r w, R r w -> R' r w) ->
  (forall w, X w -> X' w) ->
  triple P' m Q' R' X'.
Proof.
  intros H HP HQ HR HX w Hw. specialize (H w (HP w Hw)).
  destruct (m w) as [[a|r|e] w']; auto.
Qed.

Lemma triple_try (P : world -> Prop) (m : M A) (h : exn -> M A)
    (Q : A -> world -> Prop) R (X X' : world -> Prop) :
  triple P m Q R X ->
  (forall e, triple X (h e) Q R X') ->
  triple P (try_except m h) Q R X'.
Proof.
  intros Hm Hh w Hw. unfold try_except. specialize (Hm w Hw).
  destruct (m w) as [[a|r|e] w']; [exact Hm | exact Hm | now apply Hh].
Qed.

(** A computation that keeps [P] and has no [return] in it. *)
Lemma triple_keeps (P : world -> Prop) (m : M A) R :
  keeps P m -> no_return m -> triple P m (fun _ => P) R P.
Proof.
  intros Hk Hn w Hw. specialize (Hk w Hw). specialize (Hn w).
  destruct (m w) as [[a|r|e] w']; cbn [fst snd] in *; [exact Hk | contradiction | exact Hk].
Qed.

End Triples.

Lemma triple_for_each {A : Type} (P : world -> Prop) (l : list A)
    (f : A -> M unit) R X :
  (forall a, triple P (f a) (fun _ => P) R X) ->
  triple P (for_each l f) (fun _ => P) R X.
Proof.
  intros Hf. induction l as [|a l IH]; cbn [for_each].
  - apply triple_ret. auto.
  - eapply triple_bind; [apply Hf | intros u; exact IH].
Qed.

(** ** What saving an image can do *)

Section SaveImage.

Lemma split_no_sep (sep : ascii) (s : string) :
  Forall (fun x => no_char sep x = true) (split sep None s).
Proof.
  induction s as [|c s IH]; cbn [split].
  - constructor; [reflexivity | constructor].
  - rewrite andb_true_r. destruct (Ascii.eqb c sep) eqn:E.
    + constructor; [reflexivity | exact IH].
    + destruct (split sep None s) as [|h t].
      * constructor; [|constructor]. cbn [no_char]. now rewrite E.
      * inversion IH as [|? ? Hh Ht]; subst. constructor; [|exact Ht].
        cbn [no_char]. now rewrite E, Hh.
Qed.

Lemma index_split_no_sep (sep : ascii) (s : string) (i : nat) (x : string) :
  index (split sep None s) i = Ok x -> no_char sep x = true.
Proof.
  unfold index. destruct (nth_error (split sep None s) i) as [y|] eqn:E; [|discriminate].
  intros [= <-]. apply nth_error_In in E.
  pose proof (split_no_sep sep s) as H. rewrite List.Forall_forall in H. now apply H.
Qed.

Lemma image_filename_relative (prefix : string) (t : datetime) (ext : string) :
  prefix = "hazard" \/ prefix = "resolved" ->
  startswith (image_filename prefix t ext) "/" = false.
Proof. intros [-> | ->]; reflexivity. Qed.

Lemma bind_lift {A B : Type} (r : result A) (k : A -> M B) (w : world) :
  bind (lift r) k w = match r with Ok a => k a w | Raises e => (Raise e, w) end.
Proof. destruct r; reflexivity. Qed.

Lemma bind_now {B : Type} (k : datetime -> M B) (w : world) :
  bind now k w = k (clock w (ticks w)) (set_ticks (S (ticks w)) w).
Proof. reflexivity. Qed.

Lemma bind_makedirs_cases {B : Type} (folder : string) (k : unit -> M B) (w : world) :
  bind (makedirs folder) k w =
  if has_nul folder then (Raise ValueError, w)
  else if String.eqb folder "" then (Raise OSError, w)
  else k tt (set_dirs ({[ folder ]} ∪ dirs w) w).
Proof.
  unfold bind, makedirs. destruct (has_nul folder); [reflexivity|].
  destruct (String.eqb folder ""); reflexivity.
Qed.

Lemma bind_open_wb_cases {B : Type} (path : string) (k : unit -> M B) (w : world) :
  bind (open_wb path) k w =
  if has_nul path then (Raise ValueError, w)
  else if (NAME_MAX <? String.length (basename path))%nat then (Raise OSError, w)
  else k tt (set_files (<[ path := [] ]> (files w)) w).
Proof.
  unfold bind, open_wb. destruct (has_nul path); [reflexivity|].
  destruct (_ <? _)%nat; reflexivity.
Qed.

Lemma bind_write {B : Type} (path : string) (data : list byte)
    (k : unit -> M B) (w : world) :
  bind (write path data) k w = k tt (set_files (<[ path := data ]> (files w)) w).
Proof. reflexivity. Qed.

(** [save_image] never returns from the view.  When it yields a file
    name, the name is the prefix, the time and an extension without a
    slash, the file of that name in the folder holds some content, and
    nothing else changed but the clock's reading and the directory.  When
    it raises, the table and the log are untouched and at most that one
    file was created, empty. *)
Lemma save_image_outcomes (image_data : pyval) (folder prefix : string) (w : world) :
  match save_image image_data folder prefix w with
  | (Val filename, w') =>
      exists ext content,
        no_char "/" ext = true /\
        filename = image_filename prefix (clock w (ticks w)) ext /\
        folder_ok folder = true /\
        w' = {| files := <[ os_path_join folder filename := content ]> (files w);
                dirs := {[ folder ]} ∪ dirs w;
                db := db w; clock := clock w; utc_clock := utc_clock w;
                ticks := S (ticks w); errlog := errlog w;
                write_lock := write_lock w |}
  | (Return _, _) => False
  | (Raise _, w') =>
      db w' = db w /\ errlog w' = errlog w /\
      (files w' = files w \/
       exists ext,
         no_char "/" ext = true /\
         files w' = <[ os_path_join folder
                         (image_filename prefix (clock w (ticks w)) ext) := [] ]>
                      (files w))
  end.
Proof.
  unfold save_image.
  rewrite bind_lift. destruct (py_split _ _ _) as [parts|e]; [|cbn; auto].
  rewrite bind_lift. destruct (unpack2 parts) as [[header base64_data]|e]; [|cbn; auto].
  cbn [fst snd].
  rewrite bind_lift. destruct (index _ 0) as [mime|e]; [|cbn; auto].
  rewrite bind_lift. destruct (index _ 1) as [ext|e] eqn:Hext; [|cbn; auto].
  apply index_split_no_sep in Hext.
  rewrite bind_now.
  fold (image_filename prefix (clock w (ticks w)) ext).
  set (filename := image_filename prefix (clock w (ticks w)) ext).
  rewrite bind_makedirs_cases.
  destruct (has_nul folder) eqn:Hn; [cbn; auto|].
  destruct (String.eqb folder "") eqn:He; [cbn; auto|].
  rewrite bind_open_wb_cases.
  destruct (has_nul (os_path_join folder filename)) eqn:Hp; [cbn; auto|].
  destruct (_ <? _)%nat; [cbn; auto|].
  rewrite bind_lift.
  destruct (Base64.b64decode base64_data) as [content|e].
  - rewrite bind_write. cbn. exists ext, content.
    split; [exact Hext|]. split; [reflexivity|].
    split; [unfold folder_ok; now rewrite Hn, He|].
    now rewrite insert_insert_eq.
  - cbn. split; [reflexivity|]. split; [reflexivity|]. right.
    exists ext. split; [exact Hext | reflexivity].
Qed.

End SaveImage.

(** ** Every way a submission can end *)

Section ReportOutcomes.

Variable config : Config.

Lemma execute_insert_outcomes (filename : string) (dv lav lov : pyval)
    (t : datetime) (w : world) :
  match execute_insert filename dv lav lov "Pending" t w with
  | (Val rowid, w') =>
      exists r,
        rowid = id r /\ id r = next_rowid (db w) /\ before_image r = filename /\
        status r = "Pending" /\ after_image r = None /\ date_resolved r = None /\
        date_reported r = isoformat t /\
        w' = set_db {| hazard_reports := hazard_reports (db w) ++ [r];
                       hazard_reports_seq := id r;
                       admin := admin (db w) |} w
  | (Return _, _) => False
  | (Raise _, w') => w' = w \/ w' = set_write_lock true w
  end.
Proof.
  unfold execute_insert.
  rewrite bind_lift. destruct (bind_param dv) as [ds|e]; [|now left].
  rewrite bind_lift. destruct (bind_param lav) as [las|e]; [|now left].
  rewrite bind_lift. destruct (bind_param lov) as [los|e]; [|now left].
  destruct (write_lock w); [now left|].
  unfold insert_report.
  destruct (not_null ds && not_null las && not_null los); [|now right].
  exists {| id := next_rowid (db w); before_image := filename;
            after_image := None; description := ds; latitude := las;
            longitude := los; status := "Pending"; date_reported := isoformat t;
            date_resolved := None;
            created_at := current_timestamp (utc_clock w (ticks w)) |}.
  repeat split.
Qed.

(** The part of [report_hazard] that follows the saving of the image. *)
Lemma insert_after_save (data : pyval) (filename : string) (w : world) :
  match
    (description_p <- lift (getitem data "description") ;;
     latitude_p <- lift (getitem data "latitude") ;;
     longitude_p <- lift (getitem data "longitude") ;;
     t <- now ;;
     report_id <- execute_insert filename description_p latitude_p longitude_p
                    "Pending" t ;;
     ret {| resp_body := jsonify [("success", PBool true);
                                  ("report_id", PInt report_id);
                                  ("message", PStr "Hazard reported successfully")];
            resp_status := 200 |}) w
  with
  | (Val resp, w') =>
      exists r,
        resp = report_success_response (id r) /\
        id r = next_rowid (db w) /\ before_image r = filename /\
        status r = "Pending" /\ after_image r = None /\ date_resolved r = None /\
        date_reported r = isoformat (clock w (ticks w)) /\
        db w' = {| hazard_reports := hazard_reports (db w) ++ [r];
                   hazard_reports_seq := id r;
                   admin := admin (db w) |} /\
        files w' = files w /\ errlog w' = errlog w
  | (Return _, _) => False
  | (Raise _, w') => db w' = db w /\ files w' = files w /\ errlog w' = errlog w
  end.
Proof.
  rewrite bind_lift. destruct (getitem data "description") as [dv|e]; [|cbn; auto].
  rewrite bind_lift. destruct (getitem data "latitude") as [lav|e]; [|cbn; auto].
  rewrite bind_lift. destruct (getitem data "longitude") as [lov|e]; [|cbn; auto].
  rewrite bind_now. unfold bind.
  pose proof (execute_insert_outcomes filename dv lav lov (clock w (ticks w))
                (set_ticks (S (ticks w)) w)) as H.
  destruct (execute_insert _ _ _ _ _ _ _) as [[rowid|r|e] w'].
  - destruct H as (r & -> & Hid & Hb & Hs & Ha & Hr & Hd & ->).
    exists r. cbn. repeat split; assumption.
  - contradiction.
  - destruct H as [-> | ->]; cbn; auto.
Qed.

(** Every submission ends in one of three ways: a 400 that leaves the
    world exactly as it was; the 500 of the handler, logged once, with the
    table untouched and at most the image written; or the success, with
    one row added and its image written. *)
Lemma report_hazard_cases (request_body : option pyval) (w : world) :
  let resp := fst (report_hazard config request_body w) in
  let w' := snd (report_hazard config request_body w) in
  (resp_status resp = 400 /\ w' = w) \/
  (failed_and_logged "Error reporting hazard" resp w w' /\
   at_most_image_written (UPLOAD_FOLDER_BEFORE config) "hazard" w w') \/
  (exists r, resp = report_success_response (id r) /\ report_stored config w w' r).
Proof.
  set (X := fun w' : world =>
              db w' = db w /\ errlog w' = errlog w /\
              at_most_image_written (UPLOAD_FOLDER_BEFORE config) "hazard" w w').
  set (R := fun (r : response) (w' : world) => resp_status r = 400 /\ w' = w).
  set (Q := fun (r : response) (w' : world) =>
              exists row, r = report_success_response (id row) /\
                          report_stored config w w' row).
  assert (HX : forall w0, w0 = w -> X w0).
  { intros w0 ->. unfold X, at_most_image_written. auto. }
  unfold report_hazard, run_view, try_except.
  match goal with
  | |- context [ match ?m w with _ => _ end ] =>
      match m with
      | bind _ _ => assert (H : triple (fun w0 => w0 = w) m Q R X)
      end
  end.
  { eapply triple_bind with (Q1 := fun _ w0 => w0 = w).
    { unfold request_json. destruct request_body;
        [apply triple_ret | apply triple_raise]; auto. }
    intros data.
    eapply triple_bind with (Q1 := fun _ w0 => w0 = w).
    { apply triple_for_each. intros field.
      eapply triple_bind with (Q1 := fun _ w0 => w0 = w);
        [apply triple_lift; auto | intros absent].
      eapply triple_bind with (Q1 := fun _ w0 => w0 = w).
      { destruct absent; [apply triple_ret; auto|].
        eapply triple_bind with (Q1 := fun _ w0 => w0 = w);
          [apply triple_lift; auto | intros v; apply triple_ret; auto]. }
      intros missing. destruct missing; [apply triple_return | apply triple_ret];
        unfold R; auto. }
    intros _.
    eapply triple_bind with (Q1 := fun _ w0 => w0 = w);
      [apply triple_lift; auto | intros before_image_data].
    eapply triple_bind with (Q1 := fun _ w0 => w0 = w);
      [apply triple_lift; auto | intros is_image].
    destruct is_image.
    - intros w0 ->. unfold bind at 1.
      pose proof (save_image_outcomes before_image_data
                    (UPLOAD_FOLDER_BEFORE config) "hazard" w) as Hs.
      destruct (save_image _ _ _ _) as [[filename|r|e] w1].
      + destruct Hs as (ext & content & Hext & -> & Hfolder & ->).
        cbv beta.
        match goal with
        | |- context [ bind _ _ ?w1 ] =>
            pose proof (insert_after_save data
                          (image_filename "hazard" (clock w (ticks w)) ext) w1) as Hi
        end.
        match type of Hi with
        | match ?t with _ => _ end => destruct t as [[resp|r|e] w2]
        end.
        * destruct Hi as (r & -> & Hid & Hb & Hst & Ha & Hr & Hd & Hdb & Hf & Hl).
          exists r. split; [reflexivity|]. exists ext, content.
          cbn in Hid, Hd, Hdb, Hf, Hl. rewrite Hb.
          repeat split; assumption.
        * contradiction.
        * destruct Hi as (Hdb & Hf & Hl). cbn in Hdb, Hf, Hl.
          unfold X, at_most_image_written. split; [exact Hdb|]. split; [exact Hl|].
          right. exists ext, content. split; [exact Hext | exact Hf].
      + contradiction.
      + destruct Hs as (Hdb & Hl & Hf). unfold X, at_most_image_written.
        split; [exact Hdb|]. split; [exact Hl|].
        destruct Hf as [Hf | (ext & Hext & Hf)]; [left; exact Hf|].
        right. exists ext, []. auto.
    - eapply triple_bind with (Q1 := fun _ _ => False).
      + apply triple_return. unfold R. auto.
      + intros filename w0 []. }
  specialize (H w eq_refl).
  match goal with
  | H : match ?m w with _ => _ end |- _ => destruct (m w) as [[resp|resp|e] w1]
  end; cbn [fst snd].
  - right. right. exact H.
  - left. exact H.
  - right. left. destruct H as (Hdb & Hl & Hf). cbn.
    split; [|exact Hf]. split; [reflexivity|]. split; [exact Hdb|].
    exists e. now rewrite Hl.
Qed.

End ReportOutcomes.

(** ** Every way a resolution can end *)

Section ResolveOutcomes.

Variable config : Config.

Lemma update_after_save (filename : string) (report_id : Z) (w : world) :
  match
    (t <- now ;;
     _ <- execute_update filename "Resolved" t report_id ;;
     ret {| resp_body := jsonify [("success", PBool true);
                                  ("message", PStr "Hazard marked as resolved")];
            resp_status := 200 |}) w
  with
  | (Val resp, w') =>
      resp = resolve_success_response /\
      db w' = update_resolved (db w) filename "Resolved"
                (isoformat (clock w (ticks w))) report_id /\
      files w' = files w /\ errlog w' = errlog w
  | (Return _, _) => False
  | (Raise _, w') => db w' = db w /\ files w' = files w /\ errlog w' = errlog w
  end.
Proof.
  rewrite bind_now. unfold bind at 1. unfold execute_update.
  rewrite bind_lift. unfold bind_param.
  destruct ((- 2 ^ 63 <=? report_id) && (report_id <? 2 ^ 63)); cbn; auto.
  destruct (write_lock w); cbn; auto.
Qed.

Lemma bind_guard {B : Type} (b : bool) (page : body) (code : Z)
    (k : unit -> M B) (w : world) :
  bind (if b then return_ page code else ret tt) k w =
  if b then (Return {| resp_body := page; resp_status := code |}, w) else k tt w.
Proof. destruct b; reflexivity. Qed.

(** Every resolution ends in one of four ways: the 401, or the 400 for
    the image, both leaving the world exactly as it was; the 500 of the
    handler, logged once, with the table untouched and at most the image
    written; or the success, with the image written and the update made. *)
Lemma resolve_hazard_cases (session : gmap string pyval) (report_id : Z)
    (request_body : option pyval) (w : world) :
  let resp := fst (resolve_hazard config session report_id request_body w) in
  let w' := snd (resolve_hazard config session report_id request_body w) in
  (admin_session session = false /\ resp = unauthorized_response /\ w' = w) \/
  (admin_session session = true /\
   ((resp = invalid_after_image_response /\ w' = w) \/
    (failed_and_logged "Error resolving hazard" resp w w' /\
     at_most_image_written (UPLOAD_FOLDER_AFTER config) "resolved" w w') \/
    (exists filename,
       resp = resolve_success_response /\
       resolution_stored config report_id w w' filename))).
Proof.
  unfold resolve_hazard, run_view, admin_session. rewrite !bind_guard.
  destruct (truthy (session_get session "admin_logged_in")); cbn [negb];
    [|left; cbn; auto].
  right. split; [reflexivity|].
  set (X := fun w' : world =>
              db w' = db w /\ errlog w' = errlog w /\
              at_most_image_written (UPLOAD_FOLDER_AFTER config) "resolved" w w').
  set (R := fun (r : response) (w' : world) =>
              r = invalid_after_image_response /\ w' = w).
  set (Q := fun (r : response) (w' : world) =>
              exists filename, r = resolve_success_response /\
                               resolution_stored config report_id w w' filename).
  assert (HX : forall w0, w0 = w -> X w0).
  { intros w0 ->. unfold X, at_most_image_written. auto. }
  unfold try_except.
  match goal with
  | |- context [ match ?m w with _ => _ end ] =>
      match m with
      | bind _ _ => assert (H : triple (fun w0 => w0 = w) m Q R X)
      end
  end.
  { eapply triple_bind with (Q1 := fun _ w0 => w0 = w).
    { unfold request_json. destruct request_body;
        [apply triple_ret | apply triple_raise]; auto. }
    intros data.
    eapply triple_bind with (Q1 := fun _ w0 => w0 = w);
      [apply triple_lift; auto | intros after_image_data].
    eapply triple_bind with (Q1 := fun _ w0 => w0 = w).
    { destruct (negb (truthy after_image_data)); [apply triple_ret; auto|].
      eapply triple_bind with (Q1 := fun _ w0 => w0 = w);
        [apply triple_lift; auto | intros v; apply triple_ret; auto]. }
    intros invalid.
    eapply triple_bind with (Q1 := fun _ w0 => w0 = w /\ invalid = false).
    { destruct invalid; [apply triple_return | apply triple_ret];
        unfold R, invalid_after_image_response; auto. }
    intros _ w0 [-> _]. unfold bind at 1.
    pose proof (save_image_outcomes after_image_data
                  (UPLOAD_FOLDER_AFTER config) "resolved" w) as Hs.
    destruct (save_image _ _ _ _) as [[filename|r|e] w1].
    - destruct Hs as (ext & content & Hext & -> & Hfolder & ->).
      cbv beta.
      match goal with
      | |- context [ bind _ _ ?w1 ] =>
          pose proof (update_after_save
                        (image_filename "resolved" (clock w (ticks w)) ext)
                        report_id w1) as Hu
      end.
      match type of Hu with
      | match ?t with _ => _ end => destruct t as [[resp|r|e] w2]
      end.
      + destruct Hu as (-> & Hdb & Hf & Hl). cbn in Hdb, Hf, Hl.
        eexists. split; [reflexivity|]. exists ext, content.
        repeat split; assumption.
      + contradiction.
      + destruct Hu as (Hdb & Hf & Hl). cbn in Hdb, Hf, Hl.
        unfold X, at_most_image_written. split; [exact Hdb|]. split; [exact Hl|].
        right. exists ext, content. split; [exact Hext | exact Hf].
    - contradiction.
    - destruct Hs as (Hdb & Hl & Hf). unfold X, at_most_image_written.
      split; [exact Hdb|]. split; [exact Hl|].
      destruct Hf as [Hf | (ext & Hext & Hf)]; [left; exact Hf|].
      right. exists ext, []. auto. }
  specialize (H w eq_refl).
  match goal with
  | H : match ?m w with _ => _ end |- _ => destruct (m w) as [[resp|resp|e] w1]
  end; cbn [fst snd].
  - right. right. exact H.
  - left. exact H.
  - right. left. destruct H as (Hdb & Hl & Hf). cbn.
    split; [|exact Hf]. split; [reflexivity|]. split; [exact Hdb|].
    exists e. now rewrite Hl.
Qed.

Lemma resolution_frame_refl (report_id : Z) (rows : list row) :
  Forall2 (fun r r' => same_report_fields r r' /\ (id r <> report_id -> r' = r))
    rows rows.
Proof.
  induction rows as [|r rows IH]; constructor; [|exact IH].
  split; [unfold same_report_fields; repeat split | reflexivity].
Qed.

(** C7: with an admin session and a well-formed after image, resolving an
    existing report changes nothing in the table but [after_image],
    [status] and [date_resolved] of the rows with that id, whatever the
    answer is: every row keeps its id, [before_image], [description],
    [latitude], [longitude], [date_reported] and [created_at], and a row
    with another id is the row it was.  When the answer is the success the
    targeted row is now Resolved, with an after image and a resolution
    date.  The answer is the success when the upload directory is a usable
    path, the subtype has at most 230 bytes, the id is a 64-bit integer
    (as every rowid is) and no connection left behind holds the write
    lock. *)
Theorem resolve_changes_only_resolution_fields (session : gmap string pyval)
    (report_id : Z) (d : gmap string pyval) (w : world)
    (subtype payload : string) (content : list byte) (target : row) :
  admin_session session = true ->
  d !! "after_image" = Some (PStr (data_uri subtype payload)) ->
  subtype_ok subtype = true ->
  Base64.b64decode payload = Ok content ->
  In target (hazard_reports (db w)) ->
  id target = report_id ->
  let result := resolve_hazard config session report_id (Some (PDict d)) w in
  Forall2 (fun r r' => same_report_fields r r' /\ (id r <> report_id -> r' = r))
    (hazard_reports (db w)) (hazard_reports (db (snd result))) /\
  (fst result = resolve_success_response ->
   exists target',
     In target' (hazard_reports (db (snd result))) /\
     same_report_fields target target' /\
     status target' = "Resolved" /\
     is_Some (after_image target') /\ is_Some (date_resolved target')) /\
  (folder_ok (UPLOAD_FOLDER_AFTER config) = true ->
   (String.length subtype <= 230)%nat ->
   - 2 ^ 63 <= report_id < 2 ^ 63 ->
   write_lock w = false ->
   fst result = resolve_success_response).
Proof.
  intros Hs Himg Hsub Hdec Hin Htarget result.
  split; [|split].
  - destruct (resolve_hazard_cases session report_id (Some (PDict d)) w)
      as [(_ & _ & Hw') | (_ & [[_ Hw'] | [[(_ & Hdb & _) _] | (f & _ & Hst)]])];
      unfold result.
    + rewrite Hw'. apply resolution_frame_refl.
    + rewrite Hw'. apply resolution_frame_refl.
    + rewrite Hdb. apply resolution_frame_refl.
    + destruct Hst as (ext & c & _ & _ & _ & Hdb & _). rewrite Hdb.
      apply update_resolved_frame.
  - intros Hok.
    destruct (resolve_hazard_cases session report_id (Some (PDict d)) w)
      as [(_ & Hr & _) | (_ & [[Hr _] | [[(Hr & _) _] | (f & _ & Hst)]])];
      fold result in Hr || idtac;
      try (rewrite Hok in Hr; apply (f_equal resp_status) in Hr; discriminate Hr).
    destruct Hst as (ext & c & _ & _ & _ & Hdb & _). fold result in Hdb.
    rewrite Hdb. eexists. split; [apply update_resolved_hit; eassumption|].
    split; [unfold same_report_fields; repeat split|].
    split; [reflexivity|]. split; eexists; reflexivity.
  - intros Hfolder Hfits Hid Hlock. unfold result.
    now rewrite (resolve_hazard_ok config session report_id d w subtype payload
                   content Hs Himg Hsub Hdec Hfolder Hid Hfits Hlock).
Qed.

End ResolveOutcomes.

(** ** What the outcomes give *)

Section OutcomeCorollaries.

Variable config : Config.

Lemma report_success_status (report_id : Z) :
  resp_status (report_success_response report_id) = 200.
Proof. reflexivity. Qed.

(** X1: a 400 from [report_hazard], or a 400 or a 401 from
    [resolve_hazard], means that the request changed nothing at all: the
    table, the files, the directories, the clock's count and the log are
    what they were. *)
Theorem client_error_changes_nothing :
  (forall request_body w,
     resp_status (fst (report_hazard config request_body w)) = 400 ->
     snd (report_hazard config request_body w) = w) /\
  (forall session report_id request_body w,
     resp_status (fst (resolve_hazard config session report_id request_body w)) = 400 \/
     resp_status (fst (resolve_hazard config session report_id request_body w)) = 401 ->
     snd (resolve_hazard config session report_id request_body w) = w).
Proof.
  split.
  - intros request_body w H.
    destruct (report_hazard_cases config request_body w)
      as [[_ Hw] | [[(Hr & _) _] | (r & Hr & _)]].
    + exact Hw.
    + rewrite Hr in H. discriminate.
    + rewrite Hr in H. discriminate.
  - intros session report_id request_body w H.
    destruct (resolve_hazard_cases config session report_id request_body w)
      as [(_ & _ & Hw) | (_ & [[_ Hw] | [[(Hr & _) _] | (f & Hr & _)]])].
    + exact Hw.
    + exact Hw.
    + rewrite Hr in H. destruct H; discriminate.
    + rewrite Hr in H. destruct H; discriminate.
Qed.

(** X2: the log grows exactly when the answer is a 500: a 500 from
    [report_hazard] or [resolve_hazard] comes with one new entry in the
    log and an untouched table, and any other answer leaves the log as it
    was. *)
Theorem server_error_is_logged :
  (forall request_body w,
     let resp := fst (report_hazard config request_body w) in
     let w' := snd (report_hazard config request_body w) in
     (resp_status resp = 500 ->
      db w' = db w /\
      exists e, errlog w' = errlog w ++ [("Error reporting hazard", e)]) /\
     (resp_status resp <> 500 -> errlog w' = errlog w)) /\
  (forall session report_id request_body w,
     let resp := fst (resolve_hazard config session report_id request_body w) in
     let w' := snd (resolve_hazard config session report_id request_body w) in
     (resp_status resp = 500 ->
      db w' = db w /\
      exists e, errlog w' = errlog w ++ [("Error resolving hazard", e)]) /\
     (resp_status resp <> 500 -> errlog w' = errlog w)).
Proof.
  split.
  - intros request_body w.
    destruct (report_hazard_cases config request_body w)
      as [[Hs Hw] | [[(Hr & Hdb & He) _] | (r & Hr & Hst)]]; cbv zeta.
    + rewrite Hs, Hw. split; [discriminate | reflexivity].
    + rewrite Hr. split; [auto | intros N; now elim N].
    + rewrite Hr. destruct Hst as (ext & content & Hst).
      split; [discriminate | intros _; apply Hst].
  - intros session report_id request_body w.
    destruct (resolve_hazard_cases config session report_id request_body w)
      as [(_ & Hr & Hw) | (_ & [[Hr Hw] | [[(Hr & Hdb & He) _] | (f & Hr & Hst)]])];
      cbv zeta.
    + rewrite Hr, Hw. split; [discriminate | reflexivity].
    + rewrite Hr, Hw. split; [discriminate | reflexivity].
    + rewrite Hr. split; [auto | intros N; now elim N].
    + rewrite Hr. destruct Hst as (ext & content & Hst).
      split; [discriminate | intros _; apply Hst].
Qed.

(** X3: a submission never touches the rows that are there: whatever the
    request, the table afterwards is the table before, followed by one new
    row exactly when the answer is the success, and that row then has the
    id of the answer, the next rowid, status ['Pending'] and neither
    [after_image] nor [date_resolved]. *)
Theorem submission_only_appends (request_body : option pyval) (w : world) :
  let resp := fst (report_hazard config request_body w) in
  let w' := snd (report_hazard config request_body w) in
  (resp_status resp <> 200 /\ db w' = db w) \/
  (exists r,
     resp = report_success_response (id r) /\
     hazard_reports (db w') = hazard_reports (db w) ++ [r] /\
     hazard_reports_seq (db w') = id r /\
     admin (db w') = admin (db w) /\
     id r = next_rowid (db w) /\
     status r = "Pending" /\ after_image r = None /\ date_resolved r = None).
Proof.
  destruct (report_hazard_cases config request_body w)
    as [[Hs Hw] | [[(Hr & Hdb & He) _] | (r & Hr & Hst)]]; cbv zeta.
  - left. rewrite Hs, Hw. split; [discriminate | reflexivity].
  - left. rewrite Hr. split; [discriminate | exact Hdb].
  - right. exists r.
    destruct Hst as (ext & content & _ & _ & _ & Hid & Hs & Ha & Hd & _ & Hdb & _).
    rewrite Hdb. cbn. repeat split; assumption.
Qed.

Lemma update_resolved_lives_on (d : database) (a t : string) (report_id : Z) :
  Forall2 row_lives_on (hazard_reports d)
    (hazard_reports (update_resolved d a "Resolved" t report_id)).
Proof.
  unfold update_resolved. cbn [hazard_reports].
  induction (hazard_reports d) as [|r rows IH]; [constructor|].
  cbn [List.map]. constructor; [|exact IH].
  unfold row_lives_on, same_report_fields.
  destruct (id r =? report_id); cbn; repeat split; auto.
Qed.

(** X4: a resolution never adds, removes or reorders rows: whatever the
    request, the table afterwards has the same rows in the same places,
    each with the report it had (id, before image, description,
    coordinates, dates of report and creation), a resolved row still
    resolved, and a row that changed at all now resolved; the counter of
    AUTOINCREMENT and the [admin] table are what they were, and nothing in
    the database changes unless the answer is the success. *)
Theorem resolution_keeps_the_reports (session : gmap string pyval)
    (report_id : Z) (request_body : option pyval) (w : world) :
  let resp := fst (resolve_hazard config session report_id request_body w) in
  let w' := snd (resolve_hazard config session report_id request_body w) in
  Forall2 row_lives_on (hazard_reports (db w)) (hazard_reports (db w')) /\
  hazard_reports_seq (db w') = hazard_reports_seq (db w) /\
  admin (db w') = admin (db w) /\
  (resp_status resp <> 200 -> db w' = db w).
Proof.
  assert (Hrefl : forall rows, Forall2 row_lives_on rows rows).
  { induction rows; constructor; auto.
    unfold row_lives_on, same_report_fields. repeat split; auto. }
  destruct (resolve_hazard_cases config session report_id request_body w)
    as [(_ & Hr & Hw) | (_ & [[Hr Hw] | [[(Hr & Hdb & He) _] | (f & Hr & Hst)]])];
    cbv zeta.
  - rewrite Hw. auto.
  - rewrite Hw. auto.
  - rewrite Hdb. auto.
  - destruct Hst as (ext & content & _ & _ & _ & Hdb & _). rewrite Hdb, Hr.
    split; [apply update_resolved_lives_on|].
    split; [reflexivity|]. split; [reflexivity|].
    intros N. now elim N.
Qed.

Lemma at_most_image_written_spec (folder prefix : string) (w w' : world) :
  at_most_image_written folder prefix w w' ->
  forall path,
    files w' !! path <> files w !! path ->
    exists ext,
      no_char "/" ext = true /\
      path = os_path_join folder (image_filename prefix (clock w (ticks w)) ext).
Proof.
  intros [H | (ext & content & Hext & H)] path Hne; rewrite H in Hne.
  - now elim Hne.
  - exists ext. split; [exact Hext|].
    destruct (decide (os_path_join folder
                        (image_filename prefix (clock w (ticks w)) ext) = path))
      as [E|E]; [now symmetry|].
    rewrite lookup_insert_ne in Hne by exact E. now elim Hne.
Qed.

Lemma at_most_image_written_keeps (folder prefix : string) (w w' : world) :
  at_most_image_written folder prefix w w' ->
  forall path, is_Some (files w !! path) -> is_Some (files w' !! path).
Proof.
  intros [H | (ext & content & Hext & H)] path Hs; rewrite H; [exact Hs|].
  destruct (decide (os_path_join folder
                      (image_filename prefix (clock w (ticks w)) ext) = path))
    as [E|E].
  - rewrite E, lookup_insert_eq. eauto.
  - now rewrite lookup_insert_ne.
Qed.

Lemma report_hazard_files (request_body : option pyval) (w : world) :
  at_most_image_written (UPLOAD_FOLDER_BEFORE config) "hazard" w
    (snd (report_hazard config request_body w)).
Proof.
  destruct (report_hazard_cases config request_body w)
    as [[Hs Hw] | [[_ Hf] | (r & Hr & Hst)]].
  - rewrite Hw. now left.
  - exact Hf.
  - destruct Hst as (ext & content & Hext & _ & Hb & _ & _ & _ & _ & _ & _ & Hf & _).
    right. exists ext, content. split; [exact Hext|]. now rewrite <- Hb.
Qed.

Lemma resolve_hazard_files (session : gmap string pyval) (report_id : Z)
    (request_body : option pyval) (w : world) :
  at_most_image_written (UPLOAD_FOLDER_AFTER config) "resolved" w
    (snd (resolve_hazard config session report_id request_body w)).
Proof.
  destruct (resolve_hazard_cases config session report_id request_body w)
    as [(_ & Hr & Hw) | (_ & [[Hr Hw] | [[_ Hf] | (f & Hr & Hst)]])].
  - rewrite Hw. now left.
  - rewrite Hw. now left.
  - exact Hf.
  - destruct Hst as (ext & content & Hext & _ & Hb & _ & Hf & _).
    right. exists ext, content. split; [exact Hext|]. now rewrite <- Hb.
Qed.

(** X5: whatever the request, the only file a handler can create or
    change is the one it names itself, directly in its own upload folder:
    [hazard_<time>.<ext>] for a submission, [resolved_<time>.<ext>] for a
    resolution, where [<ext>] comes from the client but never holds a
    slash.  No file is ever removed. *)
Theorem uploads_stay_in_their_folder :
  (forall request_body w path,
     let w' := snd (report_hazard config request_body w) in
     (files w' !! path <> files w !! path ->
      exists ext,
        no_char "/" ext = true /\
        path = os_path_join (UPLOAD_FOLDER_BEFORE config)
                 (image_filename "hazard" (clock w (ticks w)) ext)) /\
     (is_Some (files w !! path) -> is_Some (files w' !! path))) /\
  (forall session report_id request_body w path,
     let w' := snd (resolve_hazard config session report_id request_body w) in
     (files w' !! path <> files w !! path ->
      exists ext,
        no_char "/" ext = true /\
        path = os_path_join (UPLOAD_FOLDER_AFTER config)
                 (image_filename "resolved" (clock w (ticks w)) ext)) /\
     (is_Some (files w !! path) -> is_Some (files w' !! path))).
Proof.
  split.
  - intros request_body w path. cbv zeta.
    pose proof (report_hazard_files request_body w) as H. split.
    + now apply at_most_image_written_spec.
    + now apply (at_most_image_written_keeps _ _ _ _ H).
  - intros session report_id request_body w path. cbv zeta.
    pose proof (resolve_hazard_files session report_id request_body w) as H. split.
    + now apply at_most_image_written_spec.
    + now apply (at_most_image_written_keeps _ _ _ _ H).
Qed.

End OutcomeCorollaries.

(** ** Invariants of the table over time *)

Section TableOverTime.

Variable config : Config.
Variable generate_password_hash : string -> string.

Lemma admin_dashboard_world (session : gmap string pyval) (w : world) :
  snd (admin_dashboard session w) = w.
Proof.
  unfold admin_dashboard, run_view. rewrite bind_guard.
  destruct (negb _); reflexivity.
Qed.

Lemma send_from_directory_world (folder filename : string) (w : world) :
  snd (run_view (send_from_directory folder filename) w) = w.
Proof.
  unfold run_view, send_from_directory.
  destruct (_ || _); [reflexivity|]. destruct (files w !! _); reflexivity.
Qed.

Lemma max_rowid_nonneg (rows : list row) : 0 <= max_rowid rows.
Proof. unfold max_rowid. induction rows; cbn; lia. Qed.

Lemma rowids_ok_append (d : database) (r : row) :
  rowids_ok d -> id r = next_rowid d ->
  rowids_ok {| hazard_reports := hazard_reports d ++ [r];
               hazard_reports_seq := id r;
               admin := admin d |}.
Proof.
  intros [Hsorted Hbound] Hid. unfold rowids_ok. cbn [hazard_reports hazard_reports_seq].
  assert (Hseq : hazard_reports_seq d < id r) by (unfold next_rowid in Hid; lia).
  assert (Hpos : 1 <= id r).
  { unfold next_rowid in Hid.
    pose proof (max_rowid_nonneg (hazard_reports d)). lia. }
  split.
  - rewrite map_app. cbn [List.map].
    induction (hazard_reports d) as [|r0 rows IH]; cbn [List.map app].
    + constructor; constructor.
    + inversion Hsorted as [|? ? Hs Hall]; subst.
      inversion Hbound as [|? ? Hb Hbs]; subst.
      constructor; [now apply IH|].
      apply Forall_app. split; [exact Hall|]. constructor; [lia | constructor].
  - apply Forall_app. split.
    + eapply List.Forall_impl; [|exact Hbound]. cbn. intros; lia.
    + constructor; [lia | constructor].
Qed.

Lemma rowids_ok_update (d : database) (a s t : string) (report_id : Z) :
  rowids_ok d -> rowids_ok (update_resolved d a s t report_id).
Proof.
  intros [Hsorted Hbound]. unfold rowids_ok, update_resolved.
  cbn [hazard_reports hazard_reports_seq].
  assert (Hid : forall rows,
            List.map id (List.map (fun r => if id r =? report_id
                                            then set_resolved a s t r else r) rows)
            = List.map id rows).
  { induction rows as [|r rows IH]; [reflexivity|]. cbn [List.map].
    rewrite IH. destruct (id r =? report_id); reflexivity. }
  split; [now rewrite Hid|]. clear Hsorted Hid.
  induction Hbound as [|r rows Hr _ IH]; cbn [List.map]; [constructor|].
  constructor; [|exact IH].
  destruct (id r =? report_id); exact Hr.
Qed.

(** X6: in every world the application reaches, the ids of the reports
    are positive, increase strictly with the position in the table (so no
    two rows share an id) and are not above the counter of AUTOINCREMENT. *)
Theorem report_ids_increase (w : world) :
  reachable config generate_password_hash w ->
  rowids_ok (db w) /\ List.NoDup (List.map id (hazard_reports (db w))).
Proof.
  intros Hw.
  assert (H : rowids_ok (db w)).
  { induction Hw as [w H0|w body _ IH|w session report_id body _ IH
                    |w _ IH|w session _ IH|w filename _ IH|w filename _ IH
                    |w _ IH].
    - unfold rowids_ok.
      replace (hazard_reports (db (init_db generate_password_hash w)))
        with (@nil row)
        by (unfold init_db; destruct (existsb _ _); cbn; now rewrite H0).
      split; constructor.
    - destruct (report_hazard_cases config body w)
        as [[_ Hw'] | [[(_ & Hdb & _) _] | (r & _ & Hst)]].
      + now rewrite Hw'.
      + now rewrite Hdb.
      + destruct Hst as (ext & content & _ & _ & _ & Hid & _ & _ & _ & _ & Hdb & _).
        rewrite Hdb. now apply rowids_ok_append.
    - destruct (resolve_hazard_cases config session report_id body w)
        as [(_ & _ & Hw') | (_ & [[_ Hw'] | [[(_ & Hdb & _) _] | (f & _ & Hst)]])].
      + now rewrite Hw'.
      + now rewrite Hw'.
      + now rewrite Hdb.
      + destruct Hst as (ext & content & _ & _ & _ & Hdb & _).
        rewrite Hdb. now apply rowids_ok_update.
    - exact IH.
    - now rewrite admin_dashboard_world.
    - unfold uploaded_before_file. now rewrite send_from_directory_world.
    - unfold uploaded_after_file. now rewrite send_from_directory_world.
    - exact IH. }
  split; [exact H|]. destruct H as [Hsorted _].
  induction Hsorted as [|x l _ IH Hall]; constructor; [|exact IH].
  intros Hin. rewrite List.Forall_forall in Hall. specialize (Hall x Hin). lia.
Qed.

Lemma row_lives_on_refl (r : row) : row_lives_on r r.
Proof. unfold row_lives_on, same_report_fields. repeat split; auto. Qed.

Lemma row_lives_on_trans (a b c : row) :
  row_lives_on a b -> row_lives_on b c -> row_lives_on a c.
Proof.
  unfold row_lives_on, same_report_fields.
  intros ((A1 & A2 & A3 & A4 & A5 & A6 & A7) & Ares & Achg)
         ((B1 & B2 & B3 & B4 & B5 & B6 & B7) & Bres & Bchg).
  repeat split; try congruence.
  - auto.
  - destruct Bchg as [-> | Hc]; [exact Achg | now right].
Qed.

Lemma Forall2_row_refl (rows : list row) : Forall2 row_lives_on rows rows.
Proof. induction rows; constructor; auto using row_lives_on_refl. Qed.

Lemma table_lives_on_refl (rows : list row) : table_lives_on rows rows.
Proof.
  exists rows, []. split; [now rewrite app_nil_r | apply Forall2_row_refl].
Qed.

Lemma Forall2_row_trans (l1 l2 l3 : list row) :
  Forall2 row_lives_on l1 l2 -> Forall2 row_lives_on l2 l3 ->
  Forall2 row_lives_on l1 l3.
Proof.
  intros H. revert l3. induction H as [|a b l1 l2 Hab _ IH]; intros l3 H3.
  - inversion H3. constructor.
  - inversion H3 as [|? c ? l3' Hbc Hrest]; subst.
    constructor; [eapply row_lives_on_trans; eassumption | now apply IH].
Qed.

Lemma table_lives_on_trans (l1 l2 l3 : list row) :
  table_lives_on l1 l2 -> table_lives_on l2 l3 -> table_lives_on l1 l3.
Proof.
  intros (k1 & a1 & -> & H1) (k2 & a2 & -> & H2).
  apply Forall2_app_inv_l in H2 as (k2a & k2b & Ha & Hb & ->).
  exists k2a, (k2b ++ a2). split; [now rewrite app_assoc|].
  eapply Forall2_row_trans; eassumption.
Qed.

(** X7: over any sequence of submissions and resolutions, no report is
    ever deleted or moved and none goes back from resolved: every row of
    the earlier table is still at its place in the later one, with the
    same id, before image, description, coordinates and dates of report
    and creation; if it was resolved it still is, and if it changed at all
    it is resolved now.  New rows only come after the old ones. *)
Theorem reports_live_on (w0 w : world) :
  later config w0 w ->
  table_lives_on (hazard_reports (db w0)) (hazard_reports (db w)).
Proof.
  induction 1 as [|w body _ IH|w session report_id body _ IH|w _ IH];
    [| | |exact IH].
  - apply table_lives_on_refl.
  - eapply table_lives_on_trans; [exact IH|].
    destruct (report_hazard_cases config body w)
      as [[_ Hw'] | [[(_ & Hdb & _) _] | (r & _ & Hst)]].
    + rewrite Hw'. apply table_lives_on_refl.
    + rewrite Hdb. apply table_lives_on_refl.
    + destruct Hst as (ext & content & _ & _ & _ & _ & _ & _ & _ & _ & Hdb & _).
      rewrite Hdb. cbn [hazard_reports].
      exists (hazard_reports (db w)), [r].
      split; [reflexivity | apply Forall2_row_refl].
  - eapply table_lives_on_trans; [exact IH|].
    destruct (resolve_hazard_cases config session report_id body w)
      as [(_ & _ & Hw') | (_ & [[_ Hw'] | [[(_ & Hdb & _) _] | (f & _ & Hst)]])].
    + rewrite Hw'. apply table_lives_on_refl.
    + rewrite Hw'. apply table_lives_on_refl.
    + rewrite Hdb. apply table_lives_on_refl.
    + destruct Hst as (ext & content & _ & _ & _ & Hdb & _). rewrite Hdb.
      eexists _, []. split; [now rewrite app_nil_r|].
      apply update_resolved_lives_on.
Qed.

End TableOverTime.

(** ** Rows and their images *)

Section RowsAndImages.

Variable config : Config.
Variable generate_password_hash : string -> string.

Lemma image_filename_servable (prefix : string) (t : datetime) (ext : string) :
  prefix = "hazard" \/ prefix = "resolved" ->
  no_char "/" ext = true ->
  let name := image_filename prefix t ext in
  String.eqb name "" || str_contains name "/" || String.eqb name ".." = false.
Proof.
  intros Hp Hext name.
  assert (Hslash : str_contains name "/" = false).
  { rewrite str_contains_char. apply negb_false_iff.
    unfold name, image_filename.
    rewrite !no_char_app, no_slash_strftime, Hext.
    destruct Hp as [-> | ->]; reflexivity. }
  rewrite Hslash. destruct Hp as [-> | ->]; reflexivity.
Qed.

Lemma image_in_place_served (folder prefix name : string) (w : world) :
  prefix = "hazard" \/ prefix = "resolved" ->
  image_in_place folder prefix name w -> served folder name w.
Proof.
  intros Hp (Hfolder & (t & ext & -> & Hext) & [content Hfile]).
  exists content. unfold send_from_directory.
  rewrite (image_filename_servable prefix t ext Hp Hext).
  apply andb_true_iff in Hfolder as [_ Hne]. apply negb_true_iff in Hne.
  rewrite Hne, Hfile. reflexivity.
Qed.

Lemma image_in_place_later (folder prefix name : string) (w w' : world) :
  (forall path, is_Some (files w !! path) -> is_Some (files w' !! path)) ->
  image_in_place folder prefix name w -> image_in_place folder prefix name w'.
Proof. intros H (Hf & Hn & Hs). repeat split; auto. Qed.

Lemma images_in_place_later (w w' : world) :
  (forall path, is_Some (files w !! path) -> is_Some (files w' !! path)) ->
  db w' = db w ->
  images_in_place config w -> images_in_place config w'.
Proof.
  intros Hfiles Hdb. unfold images_in_place. rewrite Hdb.
  apply List.Forall_impl. intros r [Hb Ha]. split.
  - eapply image_in_place_later; eassumption.
  - intros a E. eapply image_in_place_later; [eassumption | now apply Ha].
Qed.

Lemma insert_keeps_files (path : string) (content : list byte)
    (fs : gmap string (list byte)) (p : string) :
  is_Some (fs !! p) -> is_Some (<[ path := content ]> fs !! p).
Proof.
  intros H. destruct (decide (path = p)) as [->|E].
  - rewrite lookup_insert_eq. eauto.
  - now rewrite lookup_insert_ne.
Qed.

Lemma report_hazard_images (request_body : option pyval) (w : world) :
  images_in_place config w ->
  images_in_place config (snd (report_hazard config request_body w)).
Proof.
  intros Hw.
  destruct (report_hazard_cases config request_body w)
    as [[_ Hw'] | [[(_ & Hdb & _) Hf] | (r & _ & Hst)]].
  - now rewrite Hw'.
  - eapply images_in_place_later; [|exact Hdb|exact Hw].
    now apply (at_most_image_written_keeps _ _ _ _ Hf).
  - destruct Hst as (ext & content & Hext & Hfolder & Hb & _ & _ & Ha & _ & _ & Hdb & Hf & _).
    unfold images_in_place. rewrite Hdb. cbn [hazard_reports].
    apply Forall_app. split.
    + eapply List.Forall_impl; [|exact Hw]. intros r0 [H1 H2]. split.
      * eapply image_in_place_later; [|exact H1].
        intros p. rewrite Hf. apply insert_keeps_files.
      * intros a E. eapply image_in_place_later; [|now apply H2].
        intros p. rewrite Hf. apply insert_keeps_files.
    + constructor; [|constructor]. split.
      * split; [exact Hfolder|]. split; [rewrite Hb; eauto|].
        rewrite Hf, lookup_insert_eq. eauto.
      * intros a E. rewrite Ha in E. discriminate.
Qed.

Lemma resolve_hazard_images (session : gmap string pyval) (report_id : Z)
    (request_body : option pyval) (w : world) :
  images_in_place config w ->
  images_in_place config
    (snd (resolve_hazard config session report_id request_body w)).
Proof.
  intros Hw.
  destruct (resolve_hazard_cases config session report_id request_body w)
    as [(_ & _ & Hw') | (_ & [[_ Hw'] | [[(_ & Hdb & _) Hf] | (f & _ & Hst)]])].
  - now rewrite Hw'.
  - now rewrite Hw'.
  - eapply images_in_place_later; [|exact Hdb|exact Hw].
    now apply (at_most_image_written_keeps _ _ _ _ Hf).
  - destruct Hst as (ext & content & Hext & Hfolder & -> & Hdb & Hf & _).
    assert (Hkeep : forall p, is_Some (files w !! p) ->
              is_Some (files (snd (resolve_hazard config session report_id
                                     request_body w)) !! p)).
    { intros p. rewrite Hf. apply insert_keeps_files. }
    unfold images_in_place in *. rewrite Hdb. unfold update_resolved.
    cbn [hazard_reports].
    rewrite List.Forall_forall in Hw. apply List.Forall_forall.
    intros r' Hin. apply in_map_iff in Hin as (r & <- & Hr).
    destruct (Hw r Hr) as [H1 H2].
    destruct (id r =? report_id).
    + cbn [set_resolved before_image after_image]. split.
      * eapply image_in_place_later; [exact Hkeep | exact H1].
      * intros a [= <-]. split; [exact Hfolder|]. split; [eauto|].
        rewrite Hf, lookup_insert_eq. eauto.
    + split.
      * eapply image_in_place_later; [exact Hkeep | exact H1].
      * intros a E. eapply image_in_place_later; [exact Hkeep | now apply H2].
Qed.

(** X8: in every world the application reaches, no row points to a
    missing image: for each row, [/uploads/before/<before_image>] answers
    200 with a file, and so does [/uploads/after/<after_image>] when the
    row has an after image. *)
Theorem images_of_rows_are_served (w : world) :
  reachable config generate_password_hash w ->
  forall r, In r (hazard_reports (db w)) ->
    served (UPLOAD_FOLDER_BEFORE config) (before_image r) w /\
    (forall a, after_image r = Some a ->
               served (UPLOAD_FOLDER_AFTER config) a w).
Proof.
  intros Hw.
  assert (H : images_in_place config w).
  { induction Hw as [w H0|w body _ IH|w session report_id body _ IH
                    |w _ IH|w session _ IH|w filename _ IH|w filename _ IH
                    |w _ IH].
    - unfold images_in_place.
      replace (hazard_reports (db (init_db generate_password_hash w)))
        with (@nil row)
        by (unfold init_db; destruct (existsb _ _); cbn; now rewrite H0).
      constructor.
    - now apply report_hazard_images.
    - now apply resolve_hazard_images.
    - exact IH.
    - now rewrite admin_dashboard_world.
    - unfold uploaded_before_file. now rewrite send_from_directory_world.
    - unfold uploaded_after_file. now rewrite send_from_directory_world.
    - exact IH. }
  intros r Hr. unfold images_in_place in H. rewrite List.Forall_forall in H.
  destruct (H r Hr) as [Hb Ha]. split.
  - eapply image_in_place_served; [left; reflexivity | exact Hb].
  - intros a E. eapply image_in_place_served; [right; reflexivity | now apply Ha].
Qed.

End RowsAndImages.

(** ** Two submissions in the same second, and the after image *)

Section SameSecond.

Variable config : Config.

Lemma send_image (folder prefix : string) (t : datetime) (ext : string)
    (content : list byte) (w : world) :
  prefix = "hazard" \/ prefix = "resolved" ->
  folder_ok folder = true ->
  no_char "/" ext = true ->
  files w !! os_path_join folder (image_filename prefix t ext) = Some content ->
  run_view (send_from_directory folder (image_filename prefix t ext)) w =
  ({| resp_body := FileBody content; resp_status := 200 |}, w).
Proof.
  intros Hp Hfolder Hext Hfile. unfold run_view, send_from_directory.
  rewrite (image_filename_servable prefix t ext Hp Hext).
  apply andb_true_iff in Hfolder as [_ Hne]. apply negb_true_iff in Hne.
  rewrite Hne, Hfile. reflexivity.
Qed.

Lemma subtype_ok_no_slash (subtype : string) :
  subtype_ok subtype = true -> no_char "/" subtype = true.
Proof.
  unfold subtype_ok. intros H.
  apply andb_true_iff in H as [H _]. now apply andb_true_iff in H as [_ H].
Qed.


(** X10: the after image makes the same round trip as the before image.
    After a resolution with an admin session, an id of 64 bits, a subtype
    of at most 230 bytes (so that the file name has at most [NAME_MAX]),
    a payload that decodes to [content], and no connection left behind
    holding the write lock, the rows with that id carry the new file name
    as [after_image], and [/uploads/after/<that name>] answers with
    exactly [content]. *)
Theorem after_image_round_trip (session : gmap string pyval) (report_id : Z)
    (d : gmap string pyval) (w : world) (subtype payload : string)
    (content : list byte) :
  admin_session session = true ->
  d !! "after_image" = Some (PStr (data_uri subtype payload)) ->
  subtype_ok subtype = true ->
  Base64.b64decode payload = Ok content ->
  folder_ok (UPLOAD_FOLDER_AFTER config) = true ->
  - 2 ^ 63 <= report_id < 2 ^ 63 ->
  (String.length subtype <= 230)%nat ->
  write_lock w = false ->
  let w' := snd (resolve_hazard config session report_id (Some (PDict d)) w) in
  let filename := image_filename "resolved" (clock w (ticks w)) subtype in
  uploaded_after_file config filename w' =
    ({| resp_body := FileBody content; resp_status := 200 |}, w') /\
  (forall r, In r (hazard_reports (db w')) -> id r = report_id ->
             after_image r = Some filename) /\
  (forall original, payload = Base64.b64encode original -> content = original).
Proof.
  intros Hs Himg Hsub Hdec Hfolder Hid Hfits Hlock w' filename.
  assert (Ew : w' = snd (resolve_hazard config session report_id (Some (PDict d)) w))
    by reflexivity.
  rewrite (resolve_hazard_ok config session report_id d w subtype payload content
             Hs Himg Hsub Hdec Hfolder Hid Hfits Hlock) in Ew.
  cbn [snd] in Ew. fold filename in Ew. split; [|split].
  - unfold uploaded_after_file.
    apply send_image; [now right | exact Hfolder | now apply subtype_ok_no_slash|].
    rewrite Ew. cbn [files]. apply lookup_insert_eq.
  - intros r Hin Hr. rewrite Ew in Hin. cbn [db] in Hin.
    now destruct (update_resolved_target _ _ _ _ _ _ Hin Hr) as (Ha & _).
  - intros original ->. rewrite b64decode_b64encode in Hdec. congruence.
Qed.

End SameSecond.

(** ** The admin table, logging in and logging out *)

Section AdminSession.

Variable config : Config.
Variable generate_password_hash : string -> string.
Variable check_password_hash : string -> string -> bool.

Lemma flash_keeps_login (message category : string) (session session' : gmap string pyval) :
  flash message category session = Ok session' ->
  session' !! "admin_logged_in" = session !! "admin_logged_in" /\
  session' !! "admin_username" = session !! "admin_username".
Proof.
  unfold flash. intros H.
  destruct (session !! "_flashes") as [[| | | | |l|]|]; try discriminate H;
    injection H as <-; split; now rewrite lookup_insert_ne.
Qed.

Lemma fetch_admin_spec (d : database) (name : string) (a : admin_row) :
  fetch_admin d name = Some a -> In a (admin d) /\ username a = name.
Proof.
  unfold fetch_admin. intros H. apply find_some in H as [Hin He].
  split; [exact Hin | now apply String.eqb_eq].
Qed.

Lemma admin_session_logged_in (session : gmap string pyval) (a : admin_row) :
  admin_session (logged_in_session session a) = true.
Proof.
  unfold admin_session, session_get, logged_in_session.
  rewrite lookup_insert_ne by discriminate. now rewrite lookup_insert_eq.
Qed.

(** X11: a login either succeeds or leaves the login state alone.  It
    succeeds only for a POST whose [username] is that of a row of the
    [admin] table and whose [password] passes [check_password_hash]
    against that row's hash: then the answer is the redirect to the
    dashboard and the session is an admin session under the row's name.
    Whatever else happens (a GET, a missing form field, an unknown name, a
    wrong password), the answer is not that redirect and the keys
    [admin_logged_in] and [admin_username] of the session are as before. *)
Theorem login_needs_matching_row (method : string) (form : gmap string string)
    (session : gmap string pyval) (w : world) :
  let answer := fst (admin_login check_password_hash method form session w) in
  let session' := snd (admin_login check_password_hash method form session w) in
  (answer = Ok login_redirect /\
   exists a password,
     method = "POST" /\
     In a (admin (db w)) /\
     form !! "username" = Some (username a) /\
     form !! "password" = Some password /\
     check_password_hash (password_hash a) password = true /\
     session' = logged_in_session session a /\
     admin_session session' = true) \/
  (answer <> Ok login_redirect /\
   session' !! "admin_logged_in" = session !! "admin_logged_in" /\
   session' !! "admin_username" = session !! "admin_username").
Proof.
  unfold admin_login.
  assert (Hflash :
    let r := match flash "Invalid credentials" "error" session with
             | Ok session' =>
                 (Ok {| resp_body := Template "admin_login.html" [];
                        resp_status := 200 |}, session')
             | Raises e => (Raises e, session)
             end in
    fst r <> Ok login_redirect /\
    snd r !! "admin_logged_in" = session !! "admin_logged_in" /\
    snd r !! "admin_username" = session !! "admin_username").
  { destruct (flash _ _ _) as [s'|e] eqn:Hf; cbn.
    - split; [discriminate|]. now apply flash_keeps_login in Hf.
    - split; [discriminate|]. auto. }
  destruct (String.eqb method "POST") eqn:Hm;
    [|right; cbn; split; [discriminate | auto]].
  apply String.eqb_eq in Hm.
  destruct (form !! "username") as [u|] eqn:Hu;
    [|right; cbn; split; [discriminate | auto]].
  destruct (form !! "password") as [p|] eqn:Hp;
    [|right; cbn; split; [discriminate | auto]].
  destruct (fetch_admin (db w) u) as [a|] eqn:Ha; [|right; exact Hflash].
  destruct (check_password_hash (password_hash a) p) eqn:Hc; [|right; exact Hflash].
  left. cbn [fst snd]. split; [reflexivity|].
  apply fetch_admin_spec in Ha as [Hin Hname].
  subst u. exists a, p.
  repeat split; try assumption. apply admin_session_logged_in.
Qed.

(** X12: a POST with both form fields that fails gets the same answer
    and the same session whether the name is unknown or the password is
    wrong: the answer does not tell which names exist. *)
Theorem failed_logins_look_alike (form1 form2 : gmap string string)
    (username1 password1 username2 password2 : string)
    (session : gmap string pyval) (w : world) :
  form1 !! "username" = Some username1 -> form1 !! "password" = Some password1 ->
  form2 !! "username" = Some username2 -> form2 !! "password" = Some password2 ->
  fst (admin_login check_password_hash "POST" form1 session w) <> Ok login_redirect ->
  fst (admin_login check_password_hash "POST" form2 session w) <> Ok login_redirect ->
  admin_login check_password_hash "POST" form1 session w =
  admin_login check_password_hash "POST" form2 session w.
Proof.
  intros Hu1 Hp1 Hu2 Hp2. unfold admin_login.
  rewrite Hu1, Hp1, Hu2, Hp2. cbn [String.eqb Ascii.eqb Bool.eqb].
  destruct (fetch_admin (db w) username1) as [a1|];
    [destruct (check_password_hash (password_hash a1) password1)|];
    (destruct (fetch_admin (db w) username2) as [a2|];
      [destruct (check_password_hash (password_hash a2) password2)|]);
    cbn [fst]; intros H1 H2; try reflexivity;
    solve [exfalso; apply H1; reflexivity | exfalso; apply H2; reflexivity].
Qed.

Lemma find_app_none {A : Type} (f : A -> bool) (l : list A) (a : A) :
  existsb f l = false -> f a = true -> List.find f (l ++ [a]) = Some a.
Proof.
  induction l as [|h t IH]; cbn; intros H Ha.
  - now rewrite Ha.
  - apply orb_false_iff in H as [Hh Ht]. rewrite Hh. now apply IH.
Qed.

Lemma existsb_app_last {A : Type} (f : A -> bool) (l : list A) (a : A) :
  f a = true -> existsb f (l ++ [a]) = true.
Proof.
  intros Ha. rewrite existsb_app. cbn. rewrite Ha. now rewrite orb_true_r.
Qed.

(** X13: [init_db] only ever adds the default admin.  It leaves the
    reports, the files and the log alone, keeps the admin rows that are
    there, leaves the world as it is when a row is already called
    ['admin'] (whatever its password), leaves afterwards a row called
    ['admin'], keeps the user names distinct, and running it a second time
    changes nothing. *)
Theorem init_db_adds_only_the_admin (w : world) :
  let w' := init_db generate_password_hash w in
  hazard_reports (db w') = hazard_reports (db w) /\
  hazard_reports_seq (db w') = hazard_reports_seq (db w) /\
  files w' = files w /\ errlog w' = errlog w /\
  (exists added, admin (db w') = admin (db w) ++ added /\
     Forall (fun a => username a = "admin" /\
                      password_hash a = generate_password_hash "admin123") added) /\
  ((exists a, In a (admin (db w)) /\ username a = "admin") -> w' = w) /\
  (exists a, In a (admin (db w')) /\ username a = "admin") /\
  (List.NoDup (List.map username (admin (db w))) ->
   List.NoDup (List.map username (admin (db w')))) /\
  init_db generate_password_hash w' = w'.
Proof.
  unfold init_db.
  destruct (existsb (fun a => String.eqb (username a) "admin") (admin (db w)))
    eqn:He.
  - cbv zeta. rewrite He.
    repeat split; try reflexivity.
    + exists []. now rewrite app_nil_r.
    + apply existsb_exists in He as (a & Hin & Ha). exists a.
      split; [exact Hin | now apply String.eqb_eq].
    + auto.
  - cbv zeta. cbn [db set_db hazard_reports hazard_reports_seq admin files errlog].
    rewrite existsb_app_last by reflexivity.
    repeat split; try reflexivity.
    + eexists. split; [reflexivity|]. constructor; [|constructor]. now split.
    + intros (a & Hin & Ha). exfalso.
      assert (existsb (fun a => String.eqb (username a) "admin") (admin (db w)) = true)
        as Ht; [|congruence].
      apply existsb_exists. exists a. split; [exact Hin | now apply String.eqb_eq].
    + eexists. split; [apply in_or_app; right; left; reflexivity | reflexivity].
    + intros Hnd. rewrite map_app. cbn [List.map username].
      assert (Hnotin : ~ In "admin" (List.map username (admin (db w)))).
      { intros Hin. apply in_map_iff in Hin as (a & Ha & Hin).
        assert (existsb (fun a => String.eqb (username a) "admin") (admin (db w)) = true)
          as Ht; [|congruence].
        apply existsb_exists. exists a. split; [exact Hin | now apply String.eqb_eq]. }
      revert Hnd Hnotin. generalize (List.map username (admin (db w))).
      intros l. induction l as [|h t IH]; cbn; intros Hnd Hnotin.
      * constructor; [intros []|constructor].
      * inversion Hnd as [|? ? Hh Ht]; subst. constructor.
        -- rewrite in_app_iff. intros [Hin|[Hin|[]]]; [now apply Hh|].
           apply Hnotin. now left.
        -- apply IH; [exact Ht|]. intros Hin. apply Hnotin. now right.
Qed.

(** X14: after [init_db] on a database without a row called ['admin'],
    the default credentials log in (given that [check_password_hash]
    accepts the password a hash was generated from), and with the session
    of that login the dashboard is shown rather than the redirect. *)
Theorem default_admin_can_log_in (session : gmap string pyval) (w : world) :
  (forall password, check_password_hash (generate_password_hash password) password = true) ->
  (forall a, In a (admin (db w)) -> username a <> "admin") ->
  let w' := init_db generate_password_hash w in
  let form : gmap string string :=
    <[ "username" := "admin" ]> (<[ "password" := "admin123" ]> ∅) in
  exists session',
    admin_login check_password_hash "POST" form session w' = (Ok login_redirect, session') /\
    session' !! "admin_username" = Some (PStr "admin") /\
    admin_session session' = true /\
    admin_dashboard session' w' =
      ({| resp_body := Template "admin_dashboard.html" (select_all_reports (db w'));
          resp_status := 200 |}, w').
Proof.
  intros Hcheck Hno w' form.
  assert (He : existsb (fun a => String.eqb (username a) "admin") (admin (db w)) = false).
  { apply not_true_is_false. intros H. apply existsb_exists in H as (a & Hin & Ha).
    apply String.eqb_eq in Ha. exact (Hno a Hin Ha). }
  set (a := {| admin_id := fold_right (fun a m => Z.max (admin_id a) m) 0 (admin (db w)) + 1;
               username := "admin";
               password_hash := generate_password_hash "admin123" |}).
  assert (Hfetch : fetch_admin (db w') "admin" = Some a).
  { unfold w', init_db. rewrite He. cbn [db set_db admin]. unfold fetch_admin.
    cbn [admin]. now apply find_app_none. }
  exists (logged_in_session session a).
  assert (Hs : admin_session (logged_in_session session a) = true)
    by apply admin_session_logged_in.
  split; [|split; [|split]].
  - unfold admin_login. cbn [String.eqb Ascii.eqb Bool.eqb].
    unfold form. rewrite lookup_insert_eq.
    rewrite lookup_insert_ne by discriminate. rewrite lookup_insert_eq.
    rewrite Hfetch. cbn [password_hash a]. now rewrite Hcheck.
  - unfold logged_in_session. now rewrite lookup_insert_eq.
  - exact Hs.
  - unfold admin_dashboard, run_view, bind. unfold admin_session in Hs.
    rewrite Hs. reflexivity.
Qed.

(** X15: logging out ends the admin session, whatever the session held:
    with the session [admin_logout] leaves, [resolve_hazard] answers 401
    and the dashboard redirects to the login page, and neither touches the
    world. *)
Theorem logout_revokes (session : gmap string pyval) (report_id : Z)
    (request_body : option pyval) (w : world) :
  let session' := snd (admin_logout session) in
  admin_session session' = false /\
  resolve_hazard config session' report_id request_body w = (unauthorized_response, w) /\
  admin_dashboard session' w =
    ({| resp_body := Redirect "admin_login"; resp_status := 302 |}, w).
Proof.
  cbn [admin_logout snd]. split; [reflexivity|]. split; reflexivity.
Qed.

End AdminSession.

(** ** Bodies that are not objects, and the way into the listing *)

Section Bodies.

Variable config : Config.

(** X16: only a JSON object can be accepted.  [report_hazard] answers a
    body that is a list or a string with the 400 for a missing
    ['before_image'] when the text ['before_image'] is not in it, and
    leaves the world alone; it answers every other body that is not an
    object (no JSON at all, [null], a number, a boolean, or a list or
    string with that text in it) with the logged 500.  [resolve_hazard]
    under an admin session answers every body that is not an object with
    the logged 500. *)
Theorem only_objects_are_accepted (request_body : option pyval) (w : world) :
  (forall d, request_body <> Some (PDict d)) ->
  report_hazard config request_body w =
    match request_body with
    | None =>
        (internal_error_response,
         set_errlog (errlog w ++ [("Error reporting hazard", BadJsonRequest)]) w)
    | Some data =>
        match not_in "before_image" data with
        | Ok true => (missing_field_response "before_image", w)
        | _ =>
            (internal_error_response,
             set_errlog (errlog w ++ [("Error reporting hazard", TypeError)]) w)
        end
    end /\
  (forall session report_id,
     admin_session session = true ->
     resolve_hazard config session report_id request_body w =
       (internal_error_response,
        set_errlog (errlog w ++ [("Error resolving hazard",
                                  match request_body with
                                  | None => BadJsonRequest
                                  | Some _ => AttributeError
                                  end)]) w)).
Proof.
  intros Hno. split.
  - unfold report_hazard, run_view, try_except, required_fields.
    destruct request_body as [data|]; [|reflexivity].
    destruct data as [| b | n | f | s | l | d];
      try reflexivity; [| |exfalso; now apply (Hno d)].
    + run. cbn [for_each]. unfold not_in.
      destruct (str_contains s "before_image"); reflexivity.
    + run. cbn [for_each]. unfold not_in.
      match goal with
      | |- context [ existsb ?f l ] => destruct (existsb f l)
      end; reflexivity.
  - intros session report_id Hs. unfold admin_session in Hs.
    unfold resolve_hazard, run_view, try_except. unfold bind at 1. rewrite Hs.
    cbn [negb ret].
    destruct request_body as [data|]; [|run; reflexivity].
    destruct data as [| b | n | f | s | l | d];
      try (run; reflexivity). exfalso. now apply (Hno d).
Qed.

(** X17: a report that was accepted is there to be seen.  When
    [report_hazard] answers with the success for id [n], the list that
    [/history] then renders has a row with that id, pending, without after
    image or resolution date, and the row's [before_image] is served under
    [/uploads/before/]. *)
Theorem accepted_report_is_listed (request_body : option pyval) (w : world) (n : Z) :
  fst (report_hazard config request_body w) = report_success_response n ->
  let w' := snd (report_hazard config request_body w) in
  exists r reports content,
    history w' = ({| resp_body := Template "history.html" reports;
                     resp_status := 200 |}, w') /\
    In r reports /\
    id r = n /\ status r = "Pending" /\
    after_image r = None /\ date_resolved r = None /\
    uploaded_before_file config (before_image r) w' =
      ({| resp_body := FileBody content; resp_status := 200 |}, w').
Proof.
  intros Hresp w'.
  destruct (report_hazard_cases config request_body w)
    as [(Hst & _) | [((Hr & _) & _) | (r & Hr & Hstored)]].
  - rewrite Hresp in Hst. discriminate Hst.
  - rewrite Hresp in Hr. discriminate Hr.
  - rewrite Hresp in Hr. apply report_success_response_inj in Hr.
    fold w' in Hstored.
    destruct Hstored as (ext & content & Hext & Hfolder & Hb & _ & Hs & Ha & Hd &
                         _ & Hdb & Hf & _).
    exists r, (select_all_reports (db w')), content.
    split; [reflexivity|]. split.
    { unfold select_all_reports.
      eapply Permutation_in; [symmetry; apply order_by_perm|].
      rewrite Hdb. cbn [hazard_reports]. apply in_or_app. right. now left. }
    split; [now symmetry|]. split; [exact Hs|]. split; [exact Ha|].
    split; [exact Hd|].
    unfold uploaded_before_file. rewrite Hb.
    apply send_image; [now left | exact Hfolder | exact Hext|].
    rewrite Hf, Hb. apply lookup_insert_eq.
Qed.

End Bodies.

(** ** The stored dates sort as the times they stand for *)

Section DateOrder.

#[local] Open Scope N_scope.

Lemma sorted_lookup {A : Type} (R : A -> A -> Prop) (l : list A) (i j : nat) (a b : A) :
  StronglySorted R l -> (i < j)%nat -> l !! i = Some a -> l !! j = Some b -> R a b.
Proof.
  intros Hs. revert i j. induction Hs as [|x l Hs IH Hall]; intros i j Hij Ha Hb.
  - discriminate Ha.
  - destruct j as [|j]; [lia|]. cbn in Hb. destruct i as [|i].
    + cbn in Ha. injection Ha as ->.
      rewrite List.Forall_forall in Hall. apply Hall.
      apply list_elem_of_In. eapply list_elem_of_lookup_2, Hb.
    + cbn in Ha. apply (IH i j); [lia | assumption | assumption].
Qed.

(** X18: the listing is newest first in time, not only in text.  Of two
    rows that [/history] lists, whose [date_reported] are the stored forms
    of the times [ta] and [tb], the one listed first is not the older
    one. *)
Theorem history_is_chronological (w : world) (reports : list row) (i j : nat)
    (a b : row) (ta tb : datetime) :
  fst (history w) = {| resp_body := Template "history.html" reports;
                       resp_status := 200 |} ->
  (i < j)%nat -> reports !! i = Some a -> reports !! j = Some b ->
  date_reported a = isoformat ta -> date_reported b = isoformat tb ->
  datetime_compare tb ta <> Gt.
Proof.
  intros Hh Hij Ha Hb Hta Htb.
  assert (Hr : reports = select_all_reports (db w)).
  { unfold history, run_view, bind, fetchall_reports, ret in Hh. cbn in Hh.
    now injection Hh. }
  subst reports.
  pose proof (sorted_lookup date_desc _ i j a b
                (order_by_sorted (hazard_reports (db w))) Hij Ha Hb) as Hd.
  unfold date_desc, String.leb in Hd.
  rewrite Hta, Htb, isoformat_compare in Hd.
  intros Hgt. rewrite Hgt in Hd. discriminate Hd.
Qed.

End DateOrder.

(** ** The same properties on the example worlds *)

Section Scenarios.

(** A submission without fields is a 400 and changes nothing. *)
Lemma client_error_changes_nothing_witness :
  resp_status (fst (report_hazard example_config (Some (PDict ∅)) example_world)) = 400 /\
  snd (report_hazard example_config (Some (PDict ∅)) example_world) = example_world.
Proof.
  assert (H : resp_status (fst (report_hazard example_config (Some (PDict ∅))
                                  example_world)) = 400) by reflexivity.
  split; [exact H|].
  exact (proj1 (client_error_changes_nothing example_config)
           (Some (PDict ∅)) example_world H).
Defined.

(** A request without a JSON body is a 500 with one entry in the log. *)
Lemma server_error_is_logged_witness :
  resp_status (fst (report_hazard example_config None example_world)) = 500 /\
  db (snd (report_hazard example_config None example_world)) = db example_world /\
  exists e,
    errlog (snd (report_hazard example_config None example_world)) =
    errlog example_world ++ [("Error reporting hazard", e)].
Proof.
  assert (H : resp_status (fst (report_hazard example_config None example_world)) = 500)
    by reflexivity.
  split; [exact H|].
  exact (proj1 (proj1 (server_error_is_logged example_config) None example_world) H).
Defined.

(** The one file that the scenario's submission creates. *)
Lemma uploads_stay_in_their_folder_witness :
  let w := init_db example_hash example_world in
  let path := "static/uploads/before/hazard_20240307_090500.jpeg" in
  files example_world_1 !! path <> files w !! path /\
  exists ext,
    no_char "/" ext = true /\
    path = os_path_join (UPLOAD_FOLDER_BEFORE example_config)
             (image_filename "hazard" (clock w (ticks w)) ext).
Proof.
  intros w path.
  assert (H : files example_world_1 !! path <> files w !! path)
    by (vm_compute; discriminate).
  split; [exact H|].
  exact (proj1 (proj1 (uploads_stay_in_their_folder example_config)
                  (Some (PDict example_submission)) w path) H).
Defined.

(** The ids after two reports. *)
Lemma report_ids_increase_witness :
  rowids_ok (db example_world_2) /\
  List.NoDup (List.map id (hazard_reports (db example_world_2))).
Proof.
  apply (report_ids_increase example_config example_hash example_world_2).
  unfold example_world_2, example_world_1.
  apply reach_report, reach_report, reach_init. reflexivity.
Defined.

(** The first report lives on through a second report and a resolution. *)
Lemma reports_live_on_witness :
  table_lives_on
    (hazard_reports (db example_world_1))
    (hazard_reports
       (db (snd (resolve_hazard example_config example_admin_session 1
                   (Some (PDict example_resolution)) example_world_2)))).
Proof.
  apply (reports_live_on example_config).
  apply later_resolve. unfold example_world_2. apply later_report, later_now.
Defined.

(** The image of the first report is served after the second report. *)
Lemma images_of_rows_are_served_witness :
  served (UPLOAD_FOLDER_BEFORE example_config) "hazard_20240307_090500.jpeg"
    example_world_2.
Proof.
  assert (Hr : exists r, In r (hazard_reports (db example_world_2)) /\
                         before_image r = "hazard_20240307_090500.jpeg").
  { vm_compute. eexists. split; [left; reflexivity | reflexivity]. }
  destruct Hr as (r & Hin & Hb). rewrite <- Hb.
  apply (images_of_rows_are_served example_config example_hash example_world_2);
    [|exact Hin].
  unfold example_world_2, example_world_1.
  apply reach_report, reach_report, reach_init. reflexivity.
Defined.


(** The after image of the scenario's resolution. *)
Lemma after_image_round_trip_witness :
  let w' := snd (resolve_hazard example_config example_admin_session 1
                   (Some (PDict example_resolution)) example_world_1) in
  let filename := image_filename "resolved"
                    (clock example_world_1 (ticks example_world_1)) "png" in
  uploaded_after_file example_config filename w' =
    ({| resp_body := FileBody ["B"%byte]; resp_status := 200 |}, w') /\
  (forall r, In r (hazard_reports (db w')) -> id r = 1 ->
             after_image r = Some filename) /\
  (forall original, "Qg==" = Base64.b64encode original -> ["B"%byte] = original).
Proof.
  assert (Hlock : write_lock example_world_1 = false) by (vm_compute; reflexivity).
  apply (after_image_round_trip example_config example_admin_session 1
           example_resolution example_world_1 "png" "Qg==" ["B"%byte]);
    [reflexivity | reflexivity | reflexivity | reflexivity | reflexivity
    | split; [intros H; vm_compute in H; discriminate H | reflexivity]
    | cbn; lia | exact Hlock].
Defined.

(** An unknown name and a wrong password for the default admin. *)
Lemma failed_logins_look_alike_witness :
  let w := init_db example_hash example_world in
  let form1 : gmap string string :=
    <[ "username" := "nobody" ]> (<[ "password" := "admin123" ]> ∅) in
  let form2 : gmap string string :=
    <[ "username" := "admin" ]> (<[ "password" := "letmein" ]> ∅) in
  admin_login example_check "POST" form1 ∅ w =
  admin_login example_check "POST" form2 ∅ w.
Proof.
  intros w form1 form2.
  apply (failed_logins_look_alike example_check form1 form2
           "nobody" "admin123" "admin" "letmein" ∅ w);
    try reflexivity; vm_compute; discriminate.
Defined.

(** The default admin on the example world. *)
Lemma default_admin_can_log_in_witness :
  let w' := init_db example_hash example_world in
  let form : gmap string string :=
    <[ "username" := "admin" ]> (<[ "password" := "admin123" ]> ∅) in
  exists session',
    admin_login example_check "POST" form ∅ w' = (Ok login_redirect, session') /\
    session' !! "admin_username" = Some (PStr "admin") /\
    admin_session session' = true /\
    admin_dashboard session' w' =
      ({| resp_body := Template "admin_dashboard.html" (select_all_reports (db w'));
          resp_status := 200 |}, w').
Proof.
  apply (default_admin_can_log_in example_hash example_check ∅ example_world).
  - intros password. unfold example_check. apply String.eqb_refl.
  - intros a Hin. destruct Hin.
Defined.

(** A list as the body of a submission. *)
Lemma only_objects_are_accepted_witness :
  report_hazard example_config (Some (PList [PStr "description"])) example_world =
  (missing_field_response "before_image", example_world).
Proof.
  apply (proj1 (only_objects_are_accepted example_config
                  (Some (PList [PStr "description"])) example_world
                  ltac:(intros d H; discriminate H))).
Defined.

(** The scenario's report in the listing. *)
Lemma accepted_report_is_listed_witness :
  let w := init_db example_hash example_world in
  exists r reports content,
    history example_world_1 =
      ({| resp_body := Template "history.html" reports; resp_status := 200 |},
       example_world_1) /\
    In r reports /\
    id r = 1 /\ status r = "Pending" /\
    after_image r = None /\ date_resolved r = None /\
    uploaded_before_file example_config (before_image r) example_world_1 =
      ({| resp_body := FileBody content; resp_status := 200 |}, example_world_1).
Proof.
  intros w.
  apply (accepted_report_is_listed example_config
           (Some (PDict example_submission)) w 1).
  reflexivity.
Defined.

(** Two reports, the second made a minute and a half after the first:
    the listing has the later one first. *)
Lemma history_is_chronological_witness :
  List.map date_reported (select_all_reports (db example_ticking_world_2)) =
    ["2024-03-07 09:06:30.250000"; "2024-03-07 09:05:00"] /\
  datetime_compare example_time example_later <> Gt.
Proof.
  split; [vm_compute; reflexivity|].
  assert (Hrows : exists a b,
            select_all_reports (db example_ticking_world_2) = [a; b] /\
            date_reported a = isoformat example_later /\
            date_reported b = isoformat example_time).
  { vm_compute. eexists _, _. repeat split. }
  destruct Hrows as (a & b & Hl & Ha & Hb).
  apply (history_is_chronological example_ticking_world_2 [a; b] 0 1 a b
           example_later example_time);
    [unfold history, run_view, bind, fetchall_reports, ret; now rewrite Hl
    | lia | reflexivity | reflexivity | exact Ha | exact Hb].
Defined.

(** Resolving report 1 of two: report 2 is the row it was. *)
Lemma resolve_changes_only_resolution_fields_witness :
  let result := resolve_hazard example_config example_admin_session 1
                  (Some (PDict example_resolution)) example_world_2 in
  List.map id (hazard_reports (db example_world_2)) = [1; 2] /\
  Forall2 (fun r r' => same_report_fields r r' /\ (id r <> 1 -> r' = r))
    (hazard_reports (db example_world_2)) (hazard_reports (db (snd result))) /\
  fst result = resolve_success_response /\
  List.map (fun r => (id r, status r, after_image r))
    (hazard_reports (db (snd result)))
  = [(1, "Resolved", Some "resolved_20240307_090500.png"); (2, "Pending", None)].
Proof.
  intros result.
  assert (Hids : List.map id (hazard_reports (db example_world_2)) = [1; 2])
    by (vm_compute; reflexivity).
  assert (Ht : exists target,
            In target (hazard_reports (db example_world_2)) /\ id target = 1).
  { vm_compute. eexists. split; [left; reflexivity | reflexivity]. }
  assert (Hlock : write_lock example_world_2 = false) by (vm_compute; reflexivity).
  destruct Ht as (target & Hin & Hid).
  destruct (resolve_changes_only_resolution_fields example_config
              example_admin_session 1 example_resolution example_world_2
              "png" "Qg==" ["B"%byte] target
              eq_refl eq_refl eq_refl eq_refl Hin Hid)
    as (Hframe & _ & Hok).
  split; [exact Hids|]. split; [exact Hframe|]. split.
  - apply Hok; [reflexivity | cbn; lia | | exact Hlock].
    split; [intros H; discriminate H | reflexivity].
  - vm_compute. reflexivity.
Defined.

End Scenarios.
